(** * The analyze route: aggregation, scoring and recommendations

    A shallow embedding of [src/app/api/analyze/route.ts]: the helpers
    [safeRate] and [topN], and the body of [POST] (validation, the loop
    over the rows with its three aggregation maps, the rankings, the action
    plan and the responses), followed by the properties of the
    specification.

    Numbers.  The counters of a row (views, likes, comments, shares) are
    integers and are carried as [Z]; sums of integers are exact in the
    source as long as they stay below 2^53.  Quotients, rates and scores
    are doubles: a finite double is carried as the rational [Q] that it
    stands for, and where the source rounds (in [/], [*] and [+], and when
    [Number] reads a decimal numeral) the model rounds, to the nearest
    double, ties going to the even mantissa.

    Values.  The body of a request is JSON.  The fields [hour] and
    [hashtags], which the code coerces and iterates, are carried as JSON
    values, with the NaN and the TypeError that the code meets there. *)

From Stdlib Require Import ZArith QArith Qround Qabs Qpower Lqa Lia.
From Stdlib Require Import List String Ascii Bool.
From Stdlib Require Import Sorting.Sorted Sorting.Permutation.
From Stdlib Require DecimalString.
Import ListNotations.

Set Implicit Arguments.

(** ** Numbers that can be NaN

    What [Number(x)] gives for a field [x]: an integer, or NaN. *)

Inductive Num : Type :=
| NaN
| Int (z : Z).

(** The equality of the keys of a [Map]: NaN is equal to NaN. *)
Definition Num_eq_dec (x y : Num) : {x = y} + {x <> y}.
Proof. decide equality. apply Z.eq_dec. Defined.

(** ** Double precision

    [round x] is the double nearest to the rational [x]: a multiple of
    [2^e], where [e] is 52 below the exponent of the binade of [x] and at
    least -1074, the even multiple when two are equally near.  The largest
    finite double is no bound here: what the route rounds is a quotient of
    a sum of counters by a count or by a sum of views, a product of such a
    rate by a constant below 1, and a sum of two such products, none of
    which leaves the range of the counters. *)

Module Double.

(** The exponent of the binade of [x > 0]: the largest [e] with
    [2^e <= x]. *)
Definition ilog2 (x : Q) : Z :=
  if Qle_bool 1 x then Z.log2 (Qfloor x)
  else (- Z.log2_up (Qceiling (/ x)))%Z.

(** The integer nearest to [y], the even one of two. *)
Definition nearestEven (y : Q) : Z :=
  let f := Qfloor y in
  match Qcompare (y - inject_Z f) (1 # 2) with
  | Lt => f
  | Gt => (f + 1)%Z
  | Eq => if Z.even f then f else (f + 1)%Z
  end.

(** The exponent of the last place of the double nearest to [x]. *)
Definition lastPlace (x : Q) : Z := Z.max (ilog2 (Qabs x) - 52) (-1074).

Definition round (x : Q) : Q :=
  if Qeq_bool x 0 then 0
  else inject_Z (nearestEven (x / 2 ^ lastPlace x)) * 2 ^ lastPlace x.

(** [x / y], [x * y] and [x + y] on doubles. *)
Definition div (x y : Q) : Q := round (x / y).

Definition mul (x y : Q) : Q := round (x * y).

Definition add (x y : Q) : Q := round (x + y).

End Double.

(** ** Numbers: [toFixed], [Number], [Math.round], [Math.min], [Math.max] *)

Module JsNum.

Fixpoint pow10 (f : nat) : positive :=
  match f with
  | O => 1%positive
  | S f' => (10 * pow10 f')%positive
  end.

(** [x > y] on numbers. *)
Definition gtb (x y : Q) : bool := negb (Qle_bool x y).

(** The decimal numeral [x.toFixed(f)] prints: a sign, the integer [n] of
    the digits and the number of fraction digits, for [n / 10^f]. *)
Record Numeral : Type := mkNumeral
  { negative : bool; digits : Z; fraction : nat }.

(** The rational that a numeral spells. *)
Definition value (s : Numeral) : Q :=
  let v := digits s # pow10 (fraction s) in
  if negative s then - v else v.

(** [Number.prototype.toFixed] on a double [x]: for [x < 0] the sign is
    kept apart and [x] negated; [n] is the integer for which [n / 10^f - x]
    is as close to zero as possible, the larger one when there are two.
    From 10^21 on the source prints [x] with an exponent instead, which
    reads back as [x]; a double of that size is an integer, so that the
    digits below spell [x] as well. *)
Definition toFixed (x : Q) (f : nat) : Numeral :=
  let s := gtb 0 x in
  let a := if s then - x else x in
  mkNumeral s (Qfloor (a * inject_Z (Zpos (pow10 f)) + (1 # 2))) f.

(** [Number(s)] on a numeral printed by [toFixed]: the double nearest to
    the rational that the numeral spells. *)
Definition Number (s : Numeral) : Q := Double.round (value s).

(** [Math.round]: the nearest integer, halves going up. *)
Definition round (x : Q) : Z := Qfloor (x + (1 # 2)).

(** [Math.min] and [Math.max] of two numbers: NaN when one of them is. *)
Definition min (a b : Num) : Num :=
  match a, b with
  | Int x, Int y => Int (Z.min x y)
  | _, _ => NaN
  end.

Definition max (a b : Num) : Num :=
  match a, b with
  | Int x, Int y => Int (Z.max x y)
  | _, _ => NaN
  end.

(** [r] is [x] rounded to [f] decimal digits: a multiple of [10^-f] at
    distance at most half a unit of the last digit. *)
Definition roundedTo (f : nat) (x r : Q) : Prop :=
  (exists n : Z, r == n # pow10 f) /\ Qabs (r - x) <= 1 # (2 * pow10 f).

End JsNum.

(** ** Strings: the hashtag regular expression, [toLowerCase], templates

    A string is a sequence of code units below 256, the range of ISO
    8859-1: a character stands for the code unit of its number.  The white
    space of the engine in this range is the space, the controls from tab
    to carriage return and the no-break space (160); its capital letters
    are A to Z and the letters from 192 to 222 except the multiplication
    sign (215), each 32 below its small letter. *)

Module JsString.

(** [\s]: the space, the controls tab, line feed, vertical tab, form feed
    and carriage return, and the no-break space. *)
Definition isSpace (c : ascii) : bool :=
  let n := N_of_ascii c in
  (n =? 32)%N || ((9 <=? n)%N && (n <=? 13)%N) || (n =? 160)%N.

(** The class [[#\s]] of the regular expression. *)
Definition isHashOrSpace (c : ascii) : bool :=
  (N_of_ascii c =? 35)%N || isSpace c.

(** [s.replace(/[#\s]+/g, e)] for the empty string [e]: every maximal run
    of the class is replaced by nothing, which removes each character of
    the class. *)
Fixpoint removeHashSpace (s : string) : string :=
  match s with
  | EmptyString => EmptyString
  | String c s' =>
      if isHashOrSpace c then removeHashSpace s'
      else String c (removeHashSpace s')
  end.

Definition isUpper (c : ascii) : bool :=
  let n := N_of_ascii c in
  ((65 <=? n)%N && (n <=? 90)%N) ||
  ((192 <=? n)%N && (n <=? 222)%N && negb (n =? 215)%N).

Definition lowerChar (c : ascii) : ascii :=
  if isUpper c then ascii_of_N (N_of_ascii c + 32) else c.

Fixpoint toLowerCase (s : string) : string :=
  match s with
  | EmptyString => EmptyString
  | String c s' => String (lowerChar c) (toLowerCase s')
  end.

(** A string is falsy exactly when it is empty. *)
Definition isEmpty (s : string) : bool :=
  match s with EmptyString => true | String _ _ => false end.

(** [`${n}`] for an integer [n], and for a number that can be NaN. *)
Definition ofZ (n : Z) : string :=
  DecimalString.NilZero.string_of_int (Z.to_int n).

Definition ofNum (n : Num) : string :=
  match n with
  | NaN => "NaN"
  | Int z => ofZ z
  end.

Definition join (sep : string) (l : list string) : string :=
  String.concat sep l.

End JsString.

(** ** [Map]: keyed accumulators in insertion order

    A [Map] iterates its entries in the order in which the keys were first
    set; setting a key that is present replaces its value in place. *)

Module JsMap.
Section Map.

Context {K V : Type} (K_eq_dec : forall x y : K, {x = y} + {x <> y}).

Definition t : Type := list (K * V).

Definition empty : t := [].

Fixpoint get (m : t) (k : K) : option V :=
  match m with
  | [] => None
  | (k', v) :: m' => if K_eq_dec k' k then Some v else get m' k
  end.

Fixpoint set (m : t) (k : K) (v : V) : t :=
  match m with
  | [] => [(k, v)]
  | (k', v') :: m' =>
      if K_eq_dec k' k then (k', v) :: m' else (k', v') :: set m' k v
  end.

Definition entries (m : t) : list (K * V) := m.

Definition keys (m : t) : list K := map fst m.

End Map.
End JsMap.

(** ** Arrays: [sort], [slice]

    A comparator of the source is a difference of two doubles, of which
    [sort] reads the sign; the rounded difference of two doubles has the
    sign of their difference, which the comparators below take. *)

Module JsArray.
Section Array.

Context {A : Type}.

(** [Array.prototype.sort] with a comparator is stable: [x], which stood
    before the elements of [l], moves behind [y] only when the comparator
    puts [y] first, that is when [cmp x y > 0]. *)
Fixpoint insert (cmp : A -> A -> Q) (x : A) (l : list A) : list A :=
  match l with
  | [] => [x]
  | y :: l' => if JsNum.gtb (cmp x y) 0 then y :: insert cmp x l' else x :: l
  end.

Fixpoint sort (cmp : A -> A -> Q) (l : list A) : list A :=
  match l with
  | [] => []
  | x :: l' => insert cmp x (sort cmp l')
  end.

(** [l.slice(0, n)] *)
Definition sliceTo (n : nat) (l : list A) : list A := firstn n l.

(** [l.slice(-1)] *)
Definition sliceLast (l : list A) : list A := skipn (List.length l - 1) l.

End Array.
End JsArray.

(** ** Text: [split], [trim], [indexOf] *)

Module JsText.

Definition isLF (c : ascii) : bool := (N_of_ascii c =? 10)%N.

Definition isCR (c : ascii) : bool := (N_of_ascii c =? 13)%N.

Definition isComma (c : ascii) : bool := (N_of_ascii c =? 44)%N.

(** The class [[ #]] of the hashtag separator. *)
Definition isSpaceOrHash (c : ascii) : bool :=
  (N_of_ascii c =? 32)%N || (N_of_ascii c =? 35)%N.

(** The white space that [trim] removes. *)
Definition isWhite (c : ascii) : bool := JsString.isSpace c.

(** [c] joins the first piece of [pieces]. *)
Definition consHead (c : ascii) (pieces : list string) : list string :=
  match pieces with
  | p :: ps => String c p :: ps
  | [] => [String c EmptyString]
  end.

(** [s.split(/\r?\n/)]: the pieces between the line ends, a line end being
    a line feed or a carriage return with its line feed. *)
Fixpoint splitLines (s : string) : list string :=
  match s with
  | EmptyString => [EmptyString]
  | String c s' =>
      if isLF c then EmptyString :: splitLines s'
      else
        match s' with
        | String c' s'' =>
            if isCR c && isLF c' then EmptyString :: splitLines s''
            else consHead c (splitLines s')
        | EmptyString => consHead c (splitLines s')
        end
  end.

(** [s.split(",")] *)
Fixpoint splitComma (s : string) : list string :=
  match s with
  | EmptyString => [EmptyString]
  | String c s' =>
      if isComma c then EmptyString :: splitComma s'
      else consHead c (splitComma s')
  end.

(** [s.split(/[ #]+/)]: a separator is a maximal run of spaces and number
    signs; the character that ends a run closes the piece before it. *)
Fixpoint splitTags (s : string) : list string :=
  match s with
  | EmptyString => [EmptyString]
  | String c s' =>
      if isSpaceOrHash c then
        match s' with
        | String c' _ =>
            if isSpaceOrHash c' then splitTags s'
            else EmptyString :: splitTags s'
        | EmptyString => EmptyString :: splitTags s'
        end
      else consHead c (splitTags s')
  end.

(** [l.filter(Boolean)] on strings. *)
Definition nonEmpty (l : list string) : list string :=
  filter (fun s => negb (JsString.isEmpty s)) l.

Fixpoint trimStart (s : string) : string :=
  match s with
  | EmptyString => EmptyString
  | String c s' => if isWhite c then trimStart s' else s
  end.

Fixpoint trimEnd (s : string) : string :=
  match s with
  | EmptyString => EmptyString
  | String c s' =>
      match trimEnd s' with
      | EmptyString => if isWhite c then EmptyString else String c EmptyString
      | t => String c t
      end
  end.

Definition trim (s : string) : string := trimEnd (trimStart s).

(** [l.indexOf(x)], [None] for [-1]. *)
Fixpoint indexOf (l : list string) (x : string) : option nat :=
  match l with
  | [] => None
  | y :: l' =>
      if string_dec y x then Some O else option_map S (indexOf l' x)
  end.

(** [l.map((x, i) => f(i, x))], the indices starting at [i]. *)
Fixpoint mapFrom {A B : Type} (f : nat -> A -> B) (i : nat) (l : list A)
  : list B :=
  match l with
  | [] => []
  | a :: l' => f i a :: mapFrom f (S i) l'
  end.

End JsText.

(** ** JSON values and their coercions

    A value of the body: [JUndefined] stands for a key that the object does
    not have.  A number is an integer, as the counters are; of an object
    the route reads no more than that it is one. *)

#[warnings="-register-all"]
Inductive JsVal : Type :=
| JUndefined
| JNull
| JBool (b : bool)
| JNumber (n : Z)
| JString (s : string)
| JArray (items : list JsVal)
| JObject.

Module JsValue.

(** The truth of a value, as [||], [&&] and [if] read it. *)
Definition truthy (v : JsVal) : bool :=
  match v with
  | JUndefined | JNull => false
  | JBool b => b
  | JNumber n => negb (n =? 0)%Z
  | JString s => negb (JsString.isEmpty s)
  | JArray _ | JObject => true
  end.

(** [x || d] *)
Definition orElse (x d : JsVal) : JsVal := if truthy x then x else d.

(** The string of a value: an array joins the strings of its items with
    commas, the empty string standing for a null item. *)
Fixpoint toString (v : JsVal) : string :=
  match v with
  | JUndefined => "undefined"
  | JNull => "null"
  | JBool true => "true"
  | JBool false => "false"
  | JNumber n => JsString.ofZ n
  | JString s => s
  | JArray items =>
      JsString.join ","
        (map (fun x => match x with
                       | JUndefined | JNull => EmptyString
                       | _ => toString x
                       end) items)
  | JObject => "[object Object]"
  end.

(** The number that a string of decimal digits spells after [acc]; NaN for
    a string with another character. *)
Fixpoint digitsValue (acc : Z) (s : string) : Num :=
  match s with
  | EmptyString => Int acc
  | String c s' =>
      let n := N_of_ascii c in
      if ((48 <=? n)%N && (n <=? 57)%N)%bool
      then digitsValue (10 * acc + Z.of_N (n - 48)) s'
      else NaN
  end.

Definition unsigned (s : string) : Num :=
  match s with
  | EmptyString => NaN
  | String _ _ => digitsValue 0 s
  end.

Definition negate (n : Num) : Num :=
  match n with
  | NaN => NaN
  | Int z => Int (- z)
  end.

(** [Number(s)] for a string: white space around is dropped; the empty
    string is 0; decimal digits after an optional sign spell an integer;
    a string that spells no number is NaN.  The numbers of the model being
    integers, the strings that spell a number in another way (with a
    fraction, an exponent, a radix prefix, or as Infinity) are strings
    that the model does not read. *)
Definition stringToNumber (s : string) : Num :=
  match JsText.trim s with
  | EmptyString => Int 0
  | String c t =>
      if (N_of_ascii c =? 43)%N then unsigned t
      else if (N_of_ascii c =? 45)%N then negate (unsigned t)
      else unsigned (String c t)
  end.

(** [Number(v)]: an array is read through its string, an object is NaN. *)
Definition Number (v : JsVal) : Num :=
  match v with
  | JUndefined => NaN
  | JNull => Int 0
  | JBool b => Int (if b then 1 else 0)
  | JNumber n => Int n
  | JString s => stringToNumber s
  | JArray _ => stringToNumber (toString v)
  | JObject => NaN
  end.

End JsValue.

(** ** Objects: the order of the keys

    [Object.fromEntries] sets the keys in the order of the entries; an
    object lists the keys that are array indices first, ascending, and then
    the other keys in the order in which they were first set. *)

Module JsObject.

(** The array index that a key spells: the decimal numeral, without
    leading zero, of an integer below 2^32 - 1. *)
Definition index (k : string) : option Z :=
  match k with
  | EmptyString => None
  | String _ _ =>
      match JsValue.digitsValue 0 k with
      | Int n =>
          if (String.eqb (JsString.ofZ n) k && (n <? 4294967295)%Z)%bool
          then Some n
          else None
      | NaN => None
      end
  end.

Definition isIndex (k : string) : bool :=
  match index k with
  | Some _ => true
  | None => false
  end.

Definition indexOr0 (k : string) : Z :=
  match index k with
  | Some n => n
  | None => 0%Z
  end.

Definition fromEntries {K V : Type} (keyText : K -> string)
    (entries : list (K * V)) : list (string * V) :=
  let set := fold_left
               (fun o e => JsMap.set string_dec o (keyText (fst e)) (snd e))
               entries JsMap.empty in
  JsArray.sort
    (fun a b => inject_Z (indexOr0 (fst a) - indexOr0 (fst b)))
    (filter (fun e => isIndex (fst e)) set)
  ++ filter (fun e => negb (isIndex (fst e))) set.

End JsObject.

(** ** [safeRate] and [topN] *)

Definition safeRate (num den : Q) : Q :=
  if JsNum.gtb den 0
  then JsNum.Number (JsNum.toFixed (Double.div num den) 4)
  else 0.

Definition topN {T : Type} (entries : list (T * Q)) (n : nat) : list T :=
  map fst
    (JsArray.sliceTo n (JsArray.sort (fun a b => snd b - snd a) entries)).

(** ** Rows

    [RowOf V T] is [MetricRow] with the types of [views] and of [hashtags]
    left open.  A row of the body carries any JSON value in both; a row
    that the filter keeps has a number as [views]; a row whose hashtags the
    loop has read carries the list of its tags, each the string or the
    falsy value that [(h || e)] sees, and no list for a falsy [hashtags].
    The [hour] is the JSON value that [Number] coerces.  A [contentType]
    that is absent or null is [None].  The other fields have the types
    that [MetricRow] declares. *)

Record RowOf (V T : Type) : Type := mkRow
  { platform : string;
    postId : string;
    date : string;
    hour : JsVal;
    contentType : option string;
    title : string;
    hashtags : T;
    views : V;
    likes : Z;
    comments : Z;
    shares : Z;
    watchTimeSec : option Z }.

Arguments platform {V T} _.
Arguments postId {V T} _.
Arguments date {V T} _.
Arguments hour {V T} _.
Arguments contentType {V T} _.
Arguments title {V T} _.
Arguments hashtags {V T} _.
Arguments views {V T} _.
Arguments likes {V T} _.
Arguments comments {V T} _.
Arguments shares {V T} _.
Arguments watchTimeSec {V T} _.

Abbreviation JsonRow := (RowOf JsVal JsVal).

Abbreviation KeptRow := (RowOf Z JsVal).

Abbreviation MetricRow := (RowOf Z (option (list (option string)))).

(** [x || d] for an optional string: absent, null and the empty string are
    falsy. *)
Definition strOr (x : option string) (d : string) : string :=
  match x with
  | Some s => if JsString.isEmpty s then d else s
  | None => d
  end.

(** ** The aggregation loop *)

Record HourAgg : Type := mkHourAgg { h_views : Z; h_posts : Z }.

Record TypeAgg : Type := mkTypeAgg
  { t_views : Z; t_posts : Z; t_likes : Z; t_comments : Z; t_shares : Z }.

Record TagStat : Type := mkTagStat { s_views : Z; s_uses : Z }.

Record Aggregates : Type := mkAggregates
  { byHour : @JsMap.t Num HourAgg;
    byType : @JsMap.t string TypeAgg;
    hashtagStats : @JsMap.t string TagStat }.

(** [Math.max(0, Math.min(23, Number(r.hour || 0)))] *)
Definition hourOf (r : MetricRow) : Num :=
  JsNum.max (Int 0)
    (JsNum.min (Int 23)
       (JsValue.Number (JsValue.orElse (hour r) (JNumber 0)))).

(** [r.contentType || "unknown"] *)
Definition typeOf (r : MetricRow) : string :=
  strOr (contentType r) "unknown".

(** [(h || e).replace(/[#\s]+/g, e).toLowerCase()], [e] the empty
    string. *)
Definition normalizeTag (h : option string) : string :=
  JsString.toLowerCase (JsString.removeHashSpace (strOr h EmptyString)).

Definition addHour (m : @JsMap.t Num HourAgg) (r : MetricRow) : JsMap.t :=
  let hour := hourOf r in
  let hAgg :=
    match JsMap.get Num_eq_dec m hour with
    | Some a => a
    | None => mkHourAgg 0 0
    end in
  JsMap.set Num_eq_dec m hour
    (mkHourAgg (h_views hAgg + views r) (h_posts hAgg + 1)).

Definition addType (m : @JsMap.t string TypeAgg) (r : MetricRow) : JsMap.t :=
  let tAgg :=
    match JsMap.get string_dec m (typeOf r) with
    | Some a => a
    | None => mkTypeAgg 0 0 0 0 0
    end in
  JsMap.set string_dec m (typeOf r)
    (mkTypeAgg (t_views tAgg + views r) (t_posts tAgg + 1)
       (t_likes tAgg + likes r) (t_comments tAgg + comments r)
       (t_shares tAgg + shares r)).

(** The body of the inner loop, for one tag [h] of the row [r]. *)
Definition addTag (r : MetricRow) (m : @JsMap.t string TagStat)
    (h : option string) : JsMap.t :=
  let key := normalizeTag h in
  if JsString.isEmpty key then m
  else
    let stat :=
      match JsMap.get string_dec m key with
      | Some a => a
      | None => mkTagStat 0 0
      end in
    JsMap.set string_dec m key
      (mkTagStat (s_views stat + views r) (s_uses stat + 1)).

(** [r.hashtags || []] *)
Definition tagsOf (r : MetricRow) : list (option string) :=
  match hashtags r with
  | Some l => l
  | None => []
  end.

Definition addTags (m : @JsMap.t string TagStat) (r : MetricRow) : JsMap.t :=
  fold_left (addTag r) (tagsOf r) m.

(** One turn of [for (const r of rows)] on a row whose hashtags can be
    read. *)
Definition step (a : Aggregates) (r : MetricRow) : Aggregates :=
  mkAggregates (addHour (byHour a) r) (addType (byType a) r)
    (addTags (hashtagStats a) r).

Definition aggregate (rows : list MetricRow) : Aggregates :=
  fold_left step rows (mkAggregates JsMap.empty JsMap.empty JsMap.empty).

(** *** The throws of the loop

    The loop uses two values of a row as the types promise them: it
    iterates [r.hashtags || []] and calls [replace] on [(h || e)].  A
    truthy value that is not iterable, and a truthy item that is not a
    string, make the engine throw a TypeError.  A throw leaves the [try]
    block and the three maps with it: nothing that the turn has written is
    read again, and the turn is modelled as reading the tags first. *)

Inductive Misuse : Type :=
| NoFilter
| NotIterable
| NoReplace.

(** [(h || e)] as the receiver of [replace]: a string, the empty string
    for a falsy item; any other item has no [replace]. *)
Definition readItem (h : JsVal) : option string + Misuse :=
  match h with
  | JString s => inl (Some s)
  | _ => if JsValue.truthy h then inr NoReplace else inl None
  end.

(** The tags of the items, up to the first throw. *)
Fixpoint readItems (items : list JsVal) : list (option string) + Misuse :=
  match items with
  | [] => inl []
  | h :: items' =>
      match readItem h with
      | inl t =>
          match readItems items' with
          | inl ts => inl (t :: ts)
          | inr m => inr m
          end
      | inr m => inr m
      end
  end.

(** The values that [for (const h of x)] visits: the items of an array
    and the characters of a string; no other value of a body is
    iterable. *)
Definition itemsOf (x : JsVal) : list JsVal + Misuse :=
  match x with
  | JArray items => inl items
  | JString s =>
      inl (map (fun c => JString (String c EmptyString))
             (list_ascii_of_string s))
  | _ => inr NotIterable
  end.

(** What the inner loop reads of [r.hashtags]. *)
Definition readTags (v : JsVal) : option (list (option string)) + Misuse :=
  if JsValue.truthy v then
    match itemsOf v with
    | inl items =>
        match readItems items with
        | inl ts => inl (Some ts)
        | inr m => inr m
        end
    | inr m => inr m
    end
  else inl None.

Definition read (r : KeptRow) : MetricRow + Misuse :=
  match readTags (hashtags r) with
  | inl tags =>
      inl (mkRow (platform r) (postId r) (date r) (hour r) (contentType r)
             (title r) tags (views r) (likes r) (comments r) (shares r)
             (watchTimeSec r))
  | inr m => inr m
  end.

(** One turn of [for (const r of rows)]. *)
Definition turn (a : Aggregates) (r : KeptRow) : Aggregates + Misuse :=
  match read r with
  | inl x => inl (step a x)
  | inr m => inr m
  end.

(** The loop, up to its first throw. *)
Fixpoint loop (a : Aggregates) (rows : list KeptRow) : Aggregates + Misuse :=
  match rows with
  | [] => inl a
  | r :: rows' =>
      match turn a r with
      | inl a' => loop a' rows'
      | inr m => inr m
      end
  end.

(** ** Rankings *)

Definition hourRates (a : Aggregates) : list (Num * Q) :=
  map (fun e => (fst e,
                 safeRate (inject_Z (h_views (snd e)))
                          (inject_Z (h_posts (snd e)))))
      (JsMap.entries (byHour a)).

Definition bestHours (a : Aggregates) : list Num := topN (hourRates a) 3.

Record TypeScore : Type := mkTypeScore
  { type : string; score : Q; viewPerPost : Q; engagementRate : Q }.

(** [v.views || v.posts] *)
Definition viewsOrPosts (v : TypeAgg) : Z :=
  if (t_views v =? 0)%Z then t_posts v else t_views v.

(** The doubles of the literals [0.7] and [0.3]. *)
Definition d07 : Q := Double.round (7 # 10).

Definition d03 : Q := Double.round (3 # 10).

Definition scoreEntry (e : string * TypeAgg) : TypeScore :=
  let v := snd e in
  let engagement := (t_likes v + t_comments v * 2 + t_shares v * 3)%Z in
  let engagementRate :=
    safeRate (inject_Z engagement) (inject_Z (viewsOrPosts v)) in
  let viewPerPost :=
    safeRate (inject_Z (t_views v)) (inject_Z (t_posts v)) in
  let score :=
    Double.add (Double.mul viewPerPost d07) (Double.mul engagementRate d03) in
  mkTypeScore (fst e) (JsNum.Number (JsNum.toFixed score 6))
    viewPerPost engagementRate.

Definition typeScores (a : Aggregates) : list TypeScore :=
  JsArray.sort (fun x y => score y - score x)
    (map scoreEntry (JsMap.entries (byType a))).

Definition tagRates (a : Aggregates) : list (string * Q) :=
  map (fun e => (fst e,
                 safeRate (inject_Z (s_views (snd e)))
                          (inject_Z (s_uses (snd e)))))
      (JsMap.entries (hashtagStats a)).

Definition topHashtags (a : Aggregates) : list string := topN (tagRates a) 15.

Definition hashtagLeaders (a : Aggregates) : list (string * TagStat) :=
  JsArray.sliceTo 20
    (JsArray.sort
       (fun x y => inject_Z (s_views (snd y) - s_views (snd x)))
       (JsMap.entries (hashtagStats a))).

(** ** The action plan *)

Definition topLine (t : string) : string :=
  ("Double down on " ++ t ++ " content (top format).")%string.

Definition hoursLine (hs : list Num) : string :=
  ("Post at "
   ++ JsString.join ", " (map (fun h => JsString.ofNum h ++ ":00") hs)
   ++ " local time.")%string.

Definition tagsLine (tags : list string) : string :=
  ("Use 1-3 of: "
   ++ JsString.join " "
        (map (fun h => "#" ++ h) (JsArray.sliceTo 5 tags))
   ++ ".")%string.

Definition lowLine (t : string) : string :=
  ("De-prioritize " ++ t ++ " until performance improves.")%string.

Definition cadenceLine (n : Z) : string :=
  ("Publish ~" ++ JsString.ofZ n
   ++ " posts next 7 days with 70/20/10: top/experimental/brand.")%string.

(** The double of the literal [0.6]. *)
Definition d06 : Q := Double.round (6 # 10).

(** [Math.min(14, Math.max(5, Math.round(rows.length * 0.6)))] *)
Definition plannedCadence (rowCount : nat) : Z :=
  Z.min 14
    (Z.max 5
       (JsNum.round (Double.mul (inject_Z (Z.of_nat rowCount)) d06))).

(** [if (c) actions.push(line)], where [c] is an array element or a
    length; an entry of [typeScores] is an object and so truthy. *)
Definition pushIf {B : Type} (c : list B) (line : string)
    (actions : list string) : list string :=
  match c with
  | [] => actions
  | _ :: _ => actions ++ [line]
  end.

Definition headType (ts : list TypeScore) : string :=
  match ts with
  | e :: _ => type e
  | [] => EmptyString
  end.

Definition actions (rowCount : nat) (a : Aggregates) : list string :=
  let ts := typeScores a in
  let actions := [] in
  let actions := pushIf ts (topLine (headType ts)) actions in
  let actions := pushIf (bestHours a) (hoursLine (bestHours a)) actions in
  let actions := pushIf (topHashtags a) (tagsLine (topHashtags a)) actions in
  let lowTypes := JsArray.sliceLast ts in
  let actions := pushIf lowTypes (lowLine (headType lowTypes)) actions in
  actions ++ [cadenceLine (plannedCadence rowCount)].

(** ** The request and the responses *)

(** The two objects of the diagnostics that [Object.fromEntries] makes of
    a map, with their keys in the order in which an object lists them. *)
Record Diagnostics : Type := mkDiagnostics
  { d_byHour : list (string * HourAgg);
    d_byType : list (string * TypeAgg);
    d_typeScores : list TypeScore;
    d_hashtagLeaders : list (string * TagStat) }.

(** The object given to [NextResponse.json], with the status: a key that
    the object does not have is [None]. *)
Record Response : Type := mkResponse
  { status : Z;
    r_error : option string;
    r_bestHours : option (list Num);
    r_topHashtags : option (list string);
    r_actions : option (list string);
    r_diagnostics : option Diagnostics }.

Definition errorResponse (msg : string) (code : Z) : Response :=
  mkResponse code (Some msg) None None None None.

(** A thrown value, read through [e?.message]. *)
Record Exn : Type := mkExn { message : option string }.

(** The engine: the TypeError that it throws for each misuse of a value.
    The wording of the message is the engine's. *)
Record Engine : Type := mkEngine { typeError : Misuse -> Exn }.

(** What [body?.rows] holds: a falsy value (absent, null, also for a null
    body), an array, or a truthy value without a [filter] method.  An item
    of the array that is no object, and so has no [views], is [None]. *)
Inductive RowsField : Type :=
| RowsFalsy
| RowsArray (l : list (option JsonRow))
| RowsNotArray.

(** What [await req.json()] gives: a rejection with the parser's error, or
    the parsed body. *)
Inductive Body : Type :=
| BodyRejected (e : Exn)
| BodyParsed (rows : RowsField).

(** [(r) => r && typeof r.views === "number"] *)
Definition keepRow (r : option JsonRow) : option KeptRow :=
  match r with
  | Some x =>
      match views x with
      | JNumber n =>
          Some (mkRow (platform x) (postId x) (date x) (hour x)
                  (contentType x) (title x) (hashtags x) n (likes x)
                  (comments x) (shares x) (watchTimeSec x))
      | _ => None
      end
  | None => None
  end.

Fixpoint filterRows (l : list (option JsonRow)) : list KeptRow :=
  match l with
  | [] => []
  | r :: l' =>
      match keepRow r with
      | Some x => x :: filterRows l'
      | None => filterRows l'
      end
  end.

(** Lines 63 to 93: the rankings, the plan and the response, from the
    number of rows and the maps that the loop has filled. *)
Definition respond (rowCount : nat) (a : Aggregates) : Response :=
  mkResponse 200 None (Some (bestHours a)) (Some (topHashtags a))
    (Some (actions rowCount a))
    (Some (mkDiagnostics
             (JsObject.fromEntries JsString.ofNum (byHour a))
             (JsObject.fromEntries (fun t => t) (byType a))
             (typeScores a) (hashtagLeaders a))).

(** The [try] block, up to the first throw. *)
Definition tryBlock (engine : Engine) (body : Body) : Response + Exn :=
  match body with
  | BodyRejected e => inr e
  | BodyParsed RowsFalsy => inl (errorResponse "No data provided" 400)
  | BodyParsed RowsNotArray => inr (typeError engine NoFilter)
  | BodyParsed (RowsArray l) =>
      match filterRows l with
      | [] => inl (errorResponse "No data provided" 400)
      | rows =>
          match
            loop (mkAggregates JsMap.empty JsMap.empty JsMap.empty) rows
          with
          | inl a => inl (respond (List.length rows) a)
          | inr m => inr (typeError engine m)
          end
      end
  end.

Definition POST (engine : Engine) (body : Body) : Response :=
  match tryBlock engine body with
  | inl response => response
  | inr e => errorResponse (strOr (message e) "Unexpected error") 500
  end.

(** ** Vocabulary of the specification *)

(** The answer for rows whose hashtags can be read: lines 34 to 93 when
    the loop does not throw. *)
Definition analysis (rows : list MetricRow) : Response :=
  respond (List.length rows) (aggregate rows).

(** The rows as the loop reads them, up to the first throw. *)
Fixpoint readRows (rows : list KeptRow) : list MetricRow + Misuse :=
  match rows with
  | [] => inl []
  | r :: rows' =>
      match read r with
      | inl x =>
          match readRows rows' with
          | inl xs => inl (x :: xs)
          | inr m => inr m
          end
      | inr m => inr m
      end
  end.

(** A JSON value that the loop reads as the tags [t]. *)
Definition jsonItem (h : option string) : JsVal :=
  match h with
  | Some s => JString s
  | None => JNull
  end.

Definition jsonTags (t : option (list (option string))) : JsVal :=
  match t with
  | Some l => JArray (map jsonItem l)
  | None => JUndefined
  end.

(** A row that the filter keeps and that the loop reads as [r]. *)
Definition unread (r : MetricRow) : KeptRow :=
  mkRow (platform r) (postId r) (date r) (hour r) (contentType r) (title r)
    (jsonTags (hashtags r)) (views r) (likes r) (comments r) (shares r)
    (watchTimeSec r).

(** The distinct values of a list, in the order of their first occurrence. *)
Fixpoint distinct {K : Type} (K_eq_dec : forall x y : K, {x = y} + {x <> y})
    (l : list K) : list K :=
  match l with
  | [] => []
  | x :: l' =>
      x :: filter (fun y => if K_eq_dec x y then false else true)
             (distinct K_eq_dec l')
  end.

(** [k] is among the keys [ks]. *)
Definition memb {K : Type} (K_eq_dec : forall x y : K, {x = y} + {x <> y})
    (k : K) (ks : list K) : bool :=
  existsb (fun x => if K_eq_dec x k then true else false) ks.

(** The idiom of the three accumulators: read the bucket of [key e] or
    start from [d], update it with [e], and store it back. *)
Definition upsert {K V E : Type}
    (K_eq_dec : forall x y : K, {x = y} + {x <> y})
    (key : E -> K) (upd : E -> V -> V) (d : V)
    (m : @JsMap.t K V) (e : E) : JsMap.t :=
  JsMap.set K_eq_dec m (key e)
    (upd e match JsMap.get K_eq_dec m (key e) with
           | Some a => a
           | None => d
           end).

(** The same on one bucket, absent at first. *)
Definition accumulate {V E : Type} (upd : E -> V -> V) (d : V)
    (o : option V) (e : E) : option V :=
  Some (upd e match o with Some a => a | None => d end).

(** What one row adds to its hour bucket and to its type bucket, and what
    one tag of a row adds to its hashtag bucket. *)
Definition hourUpd (r : MetricRow) (a : HourAgg) : HourAgg :=
  mkHourAgg (h_views a + views r) (h_posts a + 1).

Definition typeUpd (r : MetricRow) (a : TypeAgg) : TypeAgg :=
  mkTypeAgg (t_views a + views r) (t_posts a + 1) (t_likes a + likes r)
    (t_comments a + comments r) (t_shares a + shares r).

Definition tagUpd (e : MetricRow * option string) (a : TagStat) : TagStat :=
  mkTagStat (s_views a + views (fst e)) (s_uses a + 1).

(** The tags of the working set in the order of the two nested loops, each
    with its row. *)
Definition tagEvents (rows : list MetricRow)
  : list (MetricRow * option string) :=
  flat_map (fun r => map (pair r) (tagsOf r)) rows.

Definition tagKey (e : MetricRow * option string) : string :=
  normalizeTag (snd e).

Definition sumBy {A : Type} (f : A -> Z) (l : list A) : Z :=
  fold_right (fun x s => (f x + s)%Z) 0%Z l.

Definition count {A : Type} (l : list A) : Z := Z.of_nat (List.length l).

(** The rows that fall into the hour bucket [h], and into the type bucket
    [t]. *)
Definition rowsAtHour (h : Num) (rows : list MetricRow) : list MetricRow :=
  filter (fun r => if Num_eq_dec (hourOf r) h then true else false) rows.

Definition rowsOfType (t : string) (rows : list MetricRow) : list MetricRow :=
  filter (fun r => String.eqb (typeOf r) t) rows.

(** The rows that use the hashtag [k], each listed once for every tag of
    its list that normalizes to [k]. *)
Definition tagUses (k : string) (rows : list MetricRow) : list MetricRow :=
  flat_map
    (fun r =>
       map (fun _ => r)
         (filter (fun h => String.eqb (normalizeTag h) k) (tagsOf r)))
    rows.

(** Every tag occurrence of the working set, normalized. *)
Definition allTags (rows : list MetricRow) : list string :=
  flat_map (fun r => map normalizeTag (tagsOf r)) rows.

(** A list is ranked by [key], descending, and keeps the order that [from]
    gives to elements of equal [key]. *)
Definition rankedDesc {A : Type} (key : A -> Q) (from ranked : list A)
  : Prop :=
  Permutation from ranked /\
  StronglySorted (fun x y => key y <= key x) ranked /\
  forall q : Q,
    filter (fun x => Qeq_bool (key x) q) ranked =
    filter (fun x => Qeq_bool (key x) q) from.


(** [s] holds no number sign and no white space. *)
Fixpoint noHashOrSpace (s : string) : bool :=
  match s with
  | EmptyString => true
  | String c s' => negb (JsString.isHashOrSpace c) && noHashOrSpace s'
  end.








(** The working set of a request, when the code gets as far as building
    it: the rows that the filter keeps. *)
Definition workingSet (body : Body) : option (list KeptRow) :=
  match body with
  | BodyParsed RowsFalsy => Some []
  | BodyParsed (RowsArray l) => Some (filterRows l)
  | _ => None
  end.

(** An engine whose TypeErrors all carry the message [msg], for
    examples. *)
Definition engineWith (msg : string) : Engine :=
  mkEngine (fun _ => mkExn (Some msg)).

(** One row whose hour is the text [abc]. *)
Definition textHourRows : list MetricRow :=
  [mkRow "TikTok" "tt1" "2024-11-01" (JString "abc") (Some "short")
     "AI Tools" None 100%Z 0%Z 0%Z 0%Z None]%string.

(** The totals of a bucket, all zero for a key that has none. *)
Definition hourBucket (a : Aggregates) (h : Num) : HourAgg :=
  match JsMap.get Num_eq_dec (byHour a) h with
  | Some v => v
  | None => mkHourAgg 0 0
  end.

Definition typeBucket (a : Aggregates) (t : string) : TypeAgg :=
  match JsMap.get string_dec (byType a) t with
  | Some v => v
  | None => mkTypeAgg 0 0 0 0 0
  end.

Definition tagBucket (a : Aggregates) (k : string) : TagStat :=
  match JsMap.get string_dec (hashtagStats a) k with
  | Some v => v
  | None => mkTagStat 0 0
  end.

(** * The page: CSV input, totals and the request

    The client of the route, [src/app/page.tsx]: [parseCSV], [sampleData],
    the totals, the handlers that replace the rows, and [analyze] with what
    the page shows of its result. *)

(** ** The rows of the page *)

Module Page.

(** A number of the page is an integer, as for the route, or the NaN that
    [Number] gives for a cell that is no number. *)

(** [a + b] *)
Definition add (a b : Num) : Num :=
  match a, b with
  | Int x, Int y => Int (x + y)
  | _, _ => NaN
  end.

Record Row : Type := mkPageRow
  { p_platform : string;
    p_postId : string;
    p_date : string;
    p_hour : Num;
    p_contentType : string;
    p_title : string;
    p_hashtags : list string;
    p_views : Num;
    p_likes : Num;
    p_comments : Num;
    p_shares : Num;
    p_watchTimeSec : option Num }.

Definition sampleData : list Row :=
  [ mkPageRow "TikTok" "tt1" "2024-11-01" (Int 18) "short" "AI Tools"
      ["ai"; "productivity"] (Int 12000) (Int 1300) (Int 120) (Int 80)
      (Some (Int 19));
    mkPageRow "TikTok" "tt2" "2024-11-03" (Int 12) "short" "Editing Hack"
      ["editing"; "capcut"] (Int 6000) (Int 430) (Int 32) (Int 20)
      (Some (Int 12));
    mkPageRow "YouTube" "yt1" "2024-11-05" (Int 17) "long" "AI Workflow"
      ["ai"; "workflow"] (Int 4500) (Int 380) (Int 55) (Int 10)
      (Some (Int 720));
    mkPageRow "Instagram" "ig1" "2024-11-02" (Int 20) "image" "Setup"
      ["desk"; "setup"] (Int 5200) (Int 610) (Int 41) (Int 22) None
  ]%string.

(** ** [parseCSV]

    [Number] on a string that is not empty is the engine's; the identifiers
    that [Math.random] gives and the dates that [new Date] gives are those
    of the call, by the index of the data line. *)

Section Csv.

Variable Number : string -> Num.

(** [a || b] on two cells *)
Definition orCell (a b : option string) : option string :=
  match a with
  | Some s => if JsString.isEmpty s then b else a
  | None => b
  end.

(** [Number(x || 0)] *)
Definition numberOr0 (x : option string) : Num :=
  match x with
  | Some s => if JsString.isEmpty s then Int 0 else Number s
  | None => Int 0
  end.

(** [cols[idx(key)]], with [idx(key) = header.indexOf(key.toLowerCase())];
    the index [-1] and an index past the end read [undefined]. *)
Definition cell (header cols : list string) (key : string) : option string :=
  match JsText.indexOf header (JsString.toLowerCase key) with
  | Some i => nth_error cols i
  | None => None
  end.

(** The row of the data line [l], the [i]-th one. *)
Definition parseLine (randomId isoNow : nat -> string)
    (header : list string) (i : nat) (l : string) : Row :=
  let cols := JsText.splitComma l in
  let hashtags :=
    JsText.nonEmpty
      (JsText.splitTags (strOr (cell header cols "hashtags") EmptyString)) in
  mkPageRow
    (strOr (cell header cols "platform") EmptyString)
    (strOr (cell header cols "postId")
       (strOr (cell header cols "post_id") (randomId i)))
    (strOr (cell header cols "date") (isoNow i))
    (numberOr0 (cell header cols "hour"))
    (strOr (cell header cols "contentType")
       (strOr (cell header cols "content_type") "short"))
    (strOr (cell header cols "title") EmptyString)
    hashtags
    (numberOr0 (cell header cols "views"))
    (numberOr0 (cell header cols "likes"))
    (numberOr0 (cell header cols "comments"))
    (numberOr0 (cell header cols "shares"))
    (Some (numberOr0 (orCell (cell header cols "watchTimeSec")
                        (cell header cols "watch_time_sec")))).

Definition parseCSV (randomId isoNow : nat -> string) (text : string)
  : list Row :=
  let lines := JsText.nonEmpty (JsText.splitLines text) in
  if (List.length lines <? 2)%nat then []
  else
    let header :=
      map (fun h => JsString.toLowerCase (JsText.trim h))
        (JsText.splitComma (hd EmptyString lines)) in
    JsText.mapFrom (parseLine randomId isoNow header) O (tl lines).

(** ** The handlers that replace the rows *)

(** A click on Load Sample, a click on Parse Pasted CSV with the text of
    the text area, and the end of the reading of a chosen file, each parse
    with the identifiers and dates of its call. *)
Inductive Event : Type :=
| LoadSample
| ParsePasted (raw : string) (randomId isoNow : nat -> string)
| FileLoaded (text : string) (randomId isoNow : nat -> string).

(** [if (parsed.length) setRows(parsed)] *)
Definition setRowsIf (parsed rows : list Row) : list Row :=
  match parsed with
  | [] => rows
  | _ :: _ => parsed
  end.

Definition handle (rows : list Row) (e : Event) : list Row :=
  match e with
  | LoadSample => sampleData
  | ParsePasted raw randomId isoNow =>
      setRowsIf (parseCSV randomId isoNow raw) rows
  | FileLoaded text randomId isoNow =>
      setRowsIf (parseCSV randomId isoNow text) rows
  end.

(** The rows after a run of events, from [useState(sampleData())]. *)
Definition rowsAfter (events : list Event) : list Row :=
  fold_left handle events sampleData.

End Csv.

(** ** The totals *)

Record Totals : Type := mkTotals
  { totalViews : Num; totalLikes : Num; totalComments : Num;
    totalShares : Num }.

(** [rows.reduce((a, r) => a + f(r), 0)] *)
Definition reduceSum (f : Row -> Num) (rows : list Row) : Num :=
  fold_left (fun a r => add a (f r)) rows (Int 0).

Definition totals (rows : list Row) : Totals :=
  mkTotals (reduceSum p_views rows) (reduceSum p_likes rows)
    (reduceSum p_comments rows) (reduceSum p_shares rows).

(** ** The request and its result *)

(** [JSON.stringify] writes a NaN as [null]. *)
Definition jsonNumber (n : Num) : option Z :=
  match n with
  | Int z => Some z
  | NaN => None
  end.

(** The counter that the route adds for the JSON of [n]: [a += null] adds
    0. *)
Definition jsonCounter (n : Num) : Z :=
  match n with
  | Int z => z
  | NaN => 0%Z
  end.

(** The JSON of a number: [JSON.stringify] writes a NaN as [null]. *)
Definition jsonValue (n : Num) : JsVal :=
  match n with
  | Int z => JNumber z
  | NaN => JNull
  end.

(** The row that [req.json()] reads for [JSON.stringify] of [r]. *)
Definition toJson (r : Row) : option JsonRow :=
  Some (mkRow (p_platform r) (p_postId r) (p_date r)
          (jsonValue (p_hour r)) (Some (p_contentType r)) (p_title r)
          (JArray (map JString (p_hashtags r)))
          (jsonValue (p_views r))
          (jsonCounter (p_likes r)) (jsonCounter (p_comments r))
          (jsonCounter (p_shares r))
          match p_watchTimeSec r with
          | Some n => jsonNumber n
          | None => None
          end).

(** The body of [fetch]: [JSON.stringify({ rows })]. *)
Definition request (rows : list Row) : Body :=
  BodyParsed (RowsArray (map toJson rows)).

(** The JSON of a response, as [res.json()] reads it: a best hour that is
    NaN arrives as [null]. *)
Record Data : Type := mkData
  { j_error : option string;
    j_bestHours : option (list (option Z));
    j_topHashtags : option (list string);
    j_actions : option (list string);
    j_diagnostics : option Diagnostics }.

Definition dataOf (r : Response) : Data :=
  mkData (r_error r) (option_map (map jsonNumber) (r_bestHours r))
    (r_topHashtags r) (r_actions r) (r_diagnostics r).

(** [analyze]: the result that the page keeps, [fetched] being the answer
    of the route, or nothing when [fetch] or [res.json()] throws. *)
Definition analyze (fetched : option Response) : Data :=
  match fetched with
  | Some r => dataOf r
  | None => mkData (Some "Failed to analyze"%string) None None None None
  end.

(** What the Strategy panel shows of a result: the error when
    [result.error] is truthy, else the action plan, the best post times
    joined by a comma and the first 10 hashtags joined by two spaces. *)
Inductive Panel : Type :=
| ErrorPanel (msg : string)
| StrategyPanel (plan : option (list string)) (times tags : option string).

(** [`${h}`] for a best hour of the result. *)
Definition hourText (h : option Z) : string :=
  match h with
  | Some z => JsString.ofZ z
  | None => "null"
  end.

Definition strategy (result : Data) : Panel :=
  match j_error result with
  | Some (String c msg) => ErrorPanel (String c msg)
  | _ =>
      StrategyPanel (j_actions result)
        (option_map
           (fun hs =>
              JsString.join ", "
                (map (fun h => (hourText h ++ ":00")%string) hs))
           (j_bestHours result))
        (option_map
           (fun ts =>
              JsString.join "  "
                (map (fun h => ("#" ++ h)%string) (JsArray.sliceTo 10 ts)))
           (j_topHashtags result))
  end.

End Page.

(** ** Vocabulary for the page *)

Definition lineFeed : string := String (ascii_of_N 10) EmptyString.

Definition crlf : string :=
  String (ascii_of_N 13) (String (ascii_of_N 10) EmptyString).

(** [s] holds no line feed and no carriage return. *)
Fixpoint cleanLine (s : string) : bool :=
  match s with
  | EmptyString => true
  | String c s' =>
      negb (JsText.isLF c) && negb (JsText.isCR c) && cleanLine s'
  end.

(** [s] holds no space and no number sign. *)
Fixpoint sepFree (s : string) : bool :=
  match s with
  | EmptyString => true
  | String c s' => negb (JsText.isSpaceOrHash c) && sepFree s'
  end.


(** The rows of the page that the route keeps, as its loop reads them. *)
Definition numericRows (rows : list Page.Row) : list MetricRow :=
  match readRows (filterRows (map Page.toJson rows)) with
  | inl xs => xs
  | inr _ => []
  end.

(** A row of the page as the loop of the route reads it, when the filter
    keeps it. *)
Definition routeRow (r : Page.Row) : option MetricRow :=
  match keepRow (Page.toJson r) with
  | Some x =>
      match read x with
      | inl y => Some y
      | inr _ => None
      end
  | None => None
  end.

(** [n] is a number. *)
Definition isInt (n : Num) : bool :=
  match n with
  | Int _ => true
  | NaN => false
  end.

(** [Number] on the strings of decimal digits, NaN elsewhere: an instance
    for examples. *)
Definition digitsNumber (s : string) : Num := JsValue.digitsValue 0 s.

(** The four counters of a row of the page are numbers. *)
Definition allNumeric (r : Page.Row) : bool :=
  isInt (Page.p_views r) && isInt (Page.p_likes r) &&
  isInt (Page.p_comments r) && isInt (Page.p_shares r).

(** The sample rows of the page as the route reads them. *)
Definition sampleRows : list MetricRow := numericRows Page.sampleData.

(** * Properties *)

(** ** Maps *)

Section MapFacts.

Context {K V : Type} (dec : forall x y : K, {x = y} + {x <> y}).

Lemma memb_In (k : K) (ks : list K) : memb dec k ks = true <-> In k ks.
Proof.
  unfold memb. rewrite existsb_exists. split.
  - intros [x [Hx E]]. destruct (dec x k); [subst; assumption|discriminate].
  - intro H. exists k. split; [assumption|].
    destruct (dec k k); [reflexivity|contradiction].
Qed.

Lemma memb_app (k : K) (ks ks' : list K) :
  memb dec k (ks ++ ks') = memb dec k ks || memb dec k ks'.
Proof. apply existsb_app. Qed.

Lemma get_set (m : @JsMap.t K V) (k k' : K) (v : V) :
  JsMap.get dec (JsMap.set dec m k v) k' =
  if dec k k' then Some v else JsMap.get dec m k'.
Proof.
  induction m as [|[k0 v0] m IH]; simpl.
  - destruct (dec k k'); reflexivity.
  - destruct (dec k0 k) as [E|N]; simpl.
    + subst k0. destruct (dec k k'); reflexivity.
    + destruct (dec k0 k') as [E'|N'].
      * subst k0. destruct (dec k k'); [congruence|reflexivity].
      * apply IH.
Qed.

Lemma keys_set (m : @JsMap.t K V) (k : K) (v : V) :
  JsMap.keys (JsMap.set dec m k v) =
  if memb dec k (JsMap.keys m) then JsMap.keys m else JsMap.keys m ++ [k].
Proof.
  induction m as [|[k0 v0] m IH]; simpl; [reflexivity|].
  destruct (dec k0 k) as [E|N]; simpl; [reflexivity|].
  fold (JsMap.keys (JsMap.set dec m k v)). rewrite IH.
  fold (memb dec k (JsMap.keys m)).
  destruct (memb dec k (JsMap.keys m)); reflexivity.
Qed.

Lemma get_None (m : @JsMap.t K V) (k : K) :
  JsMap.get dec m k = None <-> ~ In k (JsMap.keys m).
Proof.
  induction m as [|[k0 v0] m IH]; simpl.
  - tauto.
  - destruct (dec k0 k) as [E|N].
    + split; [discriminate|]. intro H. exfalso. apply H. left. assumption.
    + rewrite IH. tauto.
Qed.

Lemma get_In (m : @JsMap.t K V) (k : K) (v : V) :
  JsMap.get dec m k = Some v -> In (k, v) m.
Proof.
  induction m as [|[k0 v0] m IH]; simpl; [discriminate|].
  destruct (dec k0 k) as [E|N].
  - intro H. inversion H. subst. left. reflexivity.
  - intro H. right. apply IH. assumption.
Qed.

Lemma In_get (m : @JsMap.t K V) (k : K) (v : V) :
  NoDup (JsMap.keys m) -> In (k, v) m -> JsMap.get dec m k = Some v.
Proof.
  induction m as [|[k0 v0] m IH]; simpl; [contradiction|].
  intros ND [E|I].
  - inversion E. subst. destruct (dec k k); [reflexivity|contradiction].
  - inversion ND as [|? ? Hn ND']. subst.
    destruct (dec k0 k) as [E|N].
    + subst. exfalso. apply Hn. change k with (fst (k, v)).
      apply in_map. assumption.
    + apply IH; assumption.
Qed.

(** The sum of a measure over the values of a map. *)
Lemma sumBy_set (f : V -> Z) (m : @JsMap.t K V) (k : K) (v : V) :
  sumBy (fun e => f (snd e)) (JsMap.set dec m k v) =
  (sumBy (fun e => f (snd e)) m
   - match JsMap.get dec m k with Some o => f o | None => 0 end + f v)%Z.
Proof.
  induction m as [|[k0 v0] m IH]; simpl.
  - lia.
  - destruct (dec k0 k) as [E|N]; simpl.
    + lia.
    + rewrite IH. lia.
Qed.

End MapFacts.

(** ** Distinct values *)

Section DistinctFacts.

Context {K : Type} (dec : forall x y : K, {x = y} + {x <> y}).

Lemma In_distinct (l : list K) (x : K) : In x (distinct dec l) <-> In x l.
Proof.
  induction l as [|a l IH]; simpl; [tauto|].
  rewrite filter_In, IH.
  destruct (dec a x) as [E|N]; [tauto|].
  split; [tauto|]. intros [H|H]; [contradiction|tauto].
Qed.

Lemma NoDup_filter (f : K -> bool) (l : list K) :
  NoDup l -> NoDup (filter f l).
Proof.
  induction 1 as [|x l Hn ND IH]; simpl; [constructor|].
  destruct (f x); [|assumption].
  constructor; [|assumption]. rewrite filter_In. tauto.
Qed.

Lemma NoDup_distinct (l : list K) : NoDup (distinct dec l).
Proof.
  induction l as [|a l IH]; simpl; constructor.
  - rewrite filter_In. intros [_ H].
    destruct (dec a a); [discriminate|contradiction].
  - apply NoDup_filter. assumption.
Qed.

Lemma length_filter_le (f : K -> bool) (l : list K) :
  (List.length (filter f l) <= List.length l)%nat.
Proof.
  induction l as [|a l IH]; simpl; [lia|].
  destruct (f a); simpl; lia.
Qed.

Lemma length_distinct_le (l : list K) :
  (List.length (distinct dec l) <= List.length l)%nat.
Proof.
  induction l as [|a l IH]; simpl; [lia|].
  pose proof (length_filter_le (fun y => if dec a y then false else true)
                (distinct dec l)).
  lia.
Qed.

Lemma distinct_constant (l : list K) (x : K) :
  l <> [] -> (forall y, In y l -> y = x) -> distinct dec l = [x].
Proof.
  induction l as [|a l IH]; intros Hne Hall; [contradiction|].
  simpl. assert (a = x) by (apply Hall; left; reflexivity). subst a.
  f_equal. destruct l as [|b l]; [reflexivity|].
  rewrite IH; [|discriminate|intros y Hy; apply Hall; right; assumption].
  simpl. destruct (dec x x); [reflexivity|contradiction].
Qed.

End DistinctFacts.

(** ** Folding an accumulator over a list of events *)

Section UpsertFacts.

Context {K V E : Type} (dec : forall x y : K, {x = y} + {x <> y}).
Context (key : E -> K) (upd : E -> V -> V) (d : V).

Lemma get_upsert (m : @JsMap.t K V) (e : E) (k : K) :
  JsMap.get dec (upsert dec key upd d m e) k =
  if dec (key e) k then accumulate upd d (JsMap.get dec m k) e
  else JsMap.get dec m k.
Proof.
  unfold upsert. rewrite get_set.
  destruct (dec (key e) k) as [Eq|N]; [subst k|]; reflexivity.
Qed.

Lemma get_fold_upsert (l : list E) (m : @JsMap.t K V) (k : K) :
  JsMap.get dec (fold_left (upsert dec key upd d) l m) k =
  fold_left (accumulate upd d)
    (filter (fun e => if dec (key e) k then true else false) l)
    (JsMap.get dec m k).
Proof.
  revert m. induction l as [|e l IH]; intro m; simpl; [reflexivity|].
  rewrite IH, get_upsert.
  destruct (dec (key e) k); reflexivity.
Qed.

Lemma filter_filter (A : Type) (f g : A -> bool) (l : list A) :
  filter f (filter g l) = filter (fun x => g x && f x) l.
Proof.
  induction l as [|a l IH]; simpl; [reflexivity|].
  destruct (g a); simpl; [destruct (f a)|]; rewrite IH; reflexivity.
Qed.

Lemma keys_fold_upsert (l : list E) (m : @JsMap.t K V) :
  JsMap.keys (fold_left (upsert dec key upd d) l m) =
  JsMap.keys m ++
  filter (fun k => negb (memb dec k (JsMap.keys m)))
    (distinct dec (map key l)).
Proof.
  revert m. induction l as [|e l IH]; intro m; simpl.
  - symmetry. apply app_nil_r.
  - rewrite IH. unfold upsert at 1 2. rewrite keys_set.
    destruct (memb dec (key e) (JsMap.keys m)) eqn:M; simpl.
    + f_equal. rewrite filter_filter. apply filter_ext_in.
      intros k _. destruct (dec (key e) k) as [Eq|N]; [|reflexivity].
      subst k. rewrite M. reflexivity.
    + rewrite <- app_assoc. simpl. f_equal. f_equal.
      rewrite filter_filter. apply filter_ext.
      intro k. rewrite memb_app. simpl.
      destruct (dec (key e) k); destruct (memb dec k (JsMap.keys m));
        reflexivity.
Qed.

Lemma filter_all (A : Type) (f : A -> bool) (l : list A) :
  (forall x, In x l -> f x = true) -> filter f l = l.
Proof.
  induction l as [|a l IH]; intro H; simpl; [reflexivity|].
  rewrite (H a (or_introl eq_refl)). f_equal. apply IH.
  intros x Hx. apply H. right. assumption.
Qed.

Lemma keys_fold_upsert_empty (l : list E) :
  JsMap.keys (fold_left (upsert dec key upd d) l JsMap.empty) =
  distinct dec (map key l).
Proof.
  rewrite keys_fold_upsert. simpl. apply filter_all. reflexivity.
Qed.

Lemma NoDup_keys_fold_upsert (l : list E) :
  NoDup (JsMap.keys (fold_left (upsert dec key upd d) l JsMap.empty)).
Proof. rewrite keys_fold_upsert_empty. apply NoDup_distinct. Qed.

Lemma sumBy_fold_upsert (f : V -> Z) (w : E -> Z) :
  f d = 0%Z ->
  (forall e a, f (upd e a) = (f a + w e)%Z) ->
  forall (l : list E) (m : @JsMap.t K V),
    sumBy (fun e => f (snd e)) (fold_left (upsert dec key upd d) l m) =
    (sumBy (fun e => f (snd e)) m + sumBy w l)%Z.
Proof.
  intros Hd Hupd l. induction l as [|e l IH]; intro m; simpl; [lia|].
  rewrite IH. unfold upsert. rewrite sumBy_set, Hupd.
  destruct (JsMap.get dec m (key e)); [|rewrite Hd]; lia.
Qed.

End UpsertFacts.

(** ** The three accumulators as folds *)

Section AggregateFacts.

Lemma addHour_upsert (m : @JsMap.t Num HourAgg) (r : MetricRow) :
  addHour m r = upsert Num_eq_dec hourOf hourUpd (mkHourAgg 0 0) m r.
Proof. reflexivity. Qed.

Lemma addType_upsert (m : @JsMap.t string TypeAgg) (r : MetricRow) :
  addType m r = upsert string_dec typeOf typeUpd (mkTypeAgg 0 0 0 0 0) m r.
Proof. reflexivity. Qed.

Lemma addTag_upsert (m : @JsMap.t string TagStat)
    (e : MetricRow * option string) :
  addTag (fst e) m (snd e) =
  if JsString.isEmpty (tagKey e) then m
  else upsert string_dec tagKey tagUpd (mkTagStat 0 0) m e.
Proof. reflexivity. Qed.

Lemma fold_step (rows : list MetricRow) (a : Aggregates) :
  fold_left step rows a =
  mkAggregates (fold_left addHour rows (byHour a))
    (fold_left addType rows (byType a))
    (fold_left addTags rows (hashtagStats a)).
Proof.
  revert a. induction rows as [|r rows IH]; intro a; simpl.
  - destruct a; reflexivity.
  - rewrite IH. reflexivity.
Qed.

Lemma fold_addTags (rows : list MetricRow) (m : @JsMap.t string TagStat) :
  fold_left addTags rows m =
  fold_left (fun m e => addTag (fst e) m (snd e)) (tagEvents rows) m.
Proof.
  revert m. induction rows as [|r rows IH]; intro m; simpl; [reflexivity|].
  rewrite fold_left_app, IH. f_equal. unfold addTags.
  generalize (tagsOf r). intro l. revert m.
  induction l as [|h l IHl]; intro m; simpl; [reflexivity|apply IHl].
Qed.

Lemma fold_skip (A B : Type) (skip : B -> bool) (f : A -> B -> A)
    (l : list B) (a : A) :
  fold_left (fun a e => if skip e then a else f a e) l a =
  fold_left f (filter (fun e => negb (skip e)) l) a.
Proof.
  revert a. induction l as [|e l IH]; intro a; simpl; [reflexivity|].
  destruct (skip e); simpl; apply IH.
Qed.

Lemma byHour_aggregate (rows : list MetricRow) :
  byHour (aggregate rows) =
  fold_left (upsert Num_eq_dec hourOf hourUpd (mkHourAgg 0 0)) rows
    JsMap.empty.
Proof. unfold aggregate. rewrite fold_step. reflexivity. Qed.

Lemma byType_aggregate (rows : list MetricRow) :
  byType (aggregate rows) =
  fold_left (upsert string_dec typeOf typeUpd (mkTypeAgg 0 0 0 0 0)) rows
    JsMap.empty.
Proof. unfold aggregate. rewrite fold_step. reflexivity. Qed.

Lemma hashtagStats_aggregate (rows : list MetricRow) :
  hashtagStats (aggregate rows) =
  fold_left (upsert string_dec tagKey tagUpd (mkTagStat 0 0))
    (filter (fun e => negb (JsString.isEmpty (tagKey e))) (tagEvents rows))
    JsMap.empty.
Proof.
  unfold aggregate. rewrite fold_step. simpl.
  rewrite fold_addTags. apply fold_skip.
Qed.

Lemma fold_accumulate (V E : Type) (upd : E -> V -> V) (d : V)
    (l : list E) (a : V) :
  fold_left (accumulate upd d) l (Some a) =
  Some (fold_left (fun a e => upd e a) l a).
Proof.
  revert a. induction l as [|e l IH]; intro a; simpl; [reflexivity|].
  unfold accumulate at 2. apply IH.
Qed.

Lemma fold_accumulate_None (V E : Type) (upd : E -> V -> V) (d : V)
    (l : list E) :
  fold_left (accumulate upd d) l None =
  match l with
  | [] => None
  | _ :: _ => Some (fold_left (fun a e => upd e a) l d)
  end.
Proof.
  destruct l as [|e l]; simpl; [reflexivity|].
  unfold accumulate at 2. apply fold_accumulate.
Qed.

Lemma sumBy_app (A : Type) (f : A -> Z) (l l' : list A) :
  sumBy f (l ++ l') = (sumBy f l + sumBy f l')%Z.
Proof. induction l as [|a l IH]; simpl; [reflexivity|rewrite IH; lia]. Qed.

Lemma count_cons (A : Type) (a : A) (l : list A) :
  count (a :: l) = (count l + 1)%Z.
Proof. unfold count. simpl List.length. lia. Qed.

Lemma count_app (A : Type) (l l' : list A) :
  count (l ++ l') = (count l + count l')%Z.
Proof. unfold count. rewrite length_app. lia. Qed.

Lemma sumBy_cons (A : Type) (f : A -> Z) (a : A) (l : list A) :
  sumBy f (a :: l) = (f a + sumBy f l)%Z.
Proof. reflexivity. Qed.

Lemma sumBy_one (A : Type) (l : list A) : sumBy (fun _ => 1%Z) l = count l.
Proof.
  induction l as [|a l IH]; [reflexivity|].
  rewrite count_cons, sumBy_cons, IH. lia.
Qed.

Lemma fold_hourUpd (l : list MetricRow) (a : HourAgg) :
  fold_left (fun a e => hourUpd e a) l a =
  mkHourAgg (h_views a + sumBy views l) (h_posts a + count l).
Proof.
  revert a. induction l as [|r l IH]; intro a.
  - destruct a. simpl. unfold count. simpl. f_equal; lia.
  - simpl fold_left. rewrite IH, count_cons, !sumBy_cons. simpl. f_equal; lia.
Qed.

Lemma fold_typeUpd (l : list MetricRow) (a : TypeAgg) :
  fold_left (fun a e => typeUpd e a) l a =
  mkTypeAgg (t_views a + sumBy views l) (t_posts a + count l)
    (t_likes a + sumBy likes l) (t_comments a + sumBy comments l)
    (t_shares a + sumBy shares l).
Proof.
  revert a. induction l as [|r l IH]; intro a.
  - destruct a. simpl. unfold count. simpl. f_equal; lia.
  - simpl fold_left. rewrite IH, count_cons, !sumBy_cons. simpl. f_equal; lia.
Qed.

Lemma fold_tagUpd (l : list (MetricRow * option string)) (a : TagStat) :
  fold_left (fun a e => tagUpd e a) l a =
  mkTagStat (s_views a + sumBy views (map fst l))
    (s_uses a + count (map fst l)).
Proof.
  revert a. induction l as [|r l IH]; intro a.
  - destruct a. simpl. unfold count. simpl. f_equal; lia.
  - simpl fold_left. rewrite IH. simpl map. rewrite count_cons, sumBy_cons.
    simpl. f_equal; lia.
Qed.

(** The bucket of an hour holds the sums over the rows of that hour. *)
Lemma hour_bucket (rows : list MetricRow) (h : Num) :
  JsMap.get Num_eq_dec (byHour (aggregate rows)) h =
  match rowsAtHour h rows with
  | [] => None
  | rs => Some (mkHourAgg (sumBy views rs) (count rs))
  end.
Proof.
  rewrite byHour_aggregate, get_fold_upsert. simpl JsMap.get.
  replace (filter _ rows) with (rowsAtHour h rows).
  - rewrite fold_accumulate_None.
    destruct (rowsAtHour h rows) as [|r rs]; [reflexivity|].
    rewrite fold_hourUpd. reflexivity.
  - reflexivity.
Qed.

(** The bucket of a type holds the sums over the rows of that type. *)
Lemma type_bucket (rows : list MetricRow) (t : string) :
  JsMap.get string_dec (byType (aggregate rows)) t =
  match rowsOfType t rows with
  | [] => None
  | rs =>
      Some (mkTypeAgg (sumBy views rs) (count rs) (sumBy likes rs)
              (sumBy comments rs) (sumBy shares rs))
  end.
Proof.
  rewrite byType_aggregate, get_fold_upsert. simpl JsMap.get.
  replace (filter _ rows) with (rowsOfType t rows).
  - rewrite fold_accumulate_None.
    destruct (rowsOfType t rows) as [|r rs]; [reflexivity|].
    rewrite fold_typeUpd. reflexivity.
  - apply filter_ext. intro r.
    destruct (string_dec (typeOf r) t) as [E|N].
    + apply String.eqb_eq. assumption.
    + apply String.eqb_neq. assumption.
Qed.

Lemma isEmpty_true (s : string) : JsString.isEmpty s = true <-> s = EmptyString.
Proof. destruct s; simpl; split; congruence. Qed.

Lemma tagUses_events (rows : list MetricRow) (k : string) :
  map fst
    (filter (fun e => if string_dec (tagKey e) k then true else false)
       (tagEvents rows)) =
  tagUses k rows.
Proof.
  unfold tagEvents, tagUses.
  induction rows as [|r rows IH]; simpl; [reflexivity|].
  rewrite filter_app, map_app, IH. f_equal.
  generalize (tagsOf r). intro l.
  induction l as [|h l IHl]; simpl; [reflexivity|].
  unfold tagKey at 1. simpl snd.
  destruct (string_dec (normalizeTag h) k) as [E|N].
  - rewrite (proj2 (String.eqb_eq _ _) E). simpl. f_equal. apply IHl.
  - rewrite (proj2 (String.eqb_neq _ _) N). apply IHl.
Qed.

(** The bucket of a hashtag holds one use, with the views of the row, for
    every tag occurrence that normalizes to it; the empty key has no
    bucket. *)
Lemma tag_bucket (rows : list MetricRow) (k : string) :
  JsMap.get string_dec (hashtagStats (aggregate rows)) k =
  if JsString.isEmpty k then None
  else
    match tagUses k rows with
    | [] => None
    | rs => Some (mkTagStat (sumBy views rs) (count rs))
    end.
Proof.
  rewrite hashtagStats_aggregate, get_fold_upsert. simpl JsMap.get.
  rewrite filter_filter.
  destruct (JsString.isEmpty k) eqn:Ek.
  - apply isEmpty_true in Ek. subst k.
    replace (filter _ (tagEvents rows)) with (@nil (MetricRow * option string));
      [reflexivity|].
    symmetry. rewrite <- (filter_ext (fun _ => false)).
    + induction (tagEvents rows); simpl; auto.
    + intro e. destruct (string_dec (tagKey e) EmptyString) as [E|N].
      * rewrite E. reflexivity.
      * rewrite andb_false_r. reflexivity.
  - rewrite <- tagUses_events.
    rewrite (filter_ext
               (fun x => negb (JsString.isEmpty (tagKey x)) &&
                         (if string_dec (tagKey x) k then true else false))
               (fun e => if string_dec (tagKey e) k then true else false)).
    + rewrite fold_accumulate_None.
      destruct (filter _ (tagEvents rows)) as [|e es]; [reflexivity|].
      rewrite fold_tagUpd. reflexivity.
    + intro e. destruct (string_dec (tagKey e) k) as [E|N].
      * rewrite E, Ek. reflexivity.
      * apply andb_false_r.
Qed.

End AggregateFacts.

(** ** Rounding to the nearest double *)

Section DoubleFacts.

Import Double.

Lemma two_pos (e : Z) : 0 < 2 ^ e.
Proof. apply Qpower_0_lt. reflexivity. Qed.

Lemma two_int (n : Z) : (0 <= n)%Z -> 2 ^ n == inject_Z (2 ^ n).
Proof. intro H. rewrite Zpower_Qpower by exact H. reflexivity. Qed.

Lemma two_le (a b : Z) : (a <= b)%Z -> 2 ^ a <= 2 ^ b.
Proof.
  intro H. apply Qpower_le_compat_l; [exact H|].
  unfold Qle; simpl; lia.
Qed.

Lemma two_lt_inv (a b : Z) : 2 ^ a < 2 ^ b -> (a < b)%Z.
Proof.
  intro H. destruct (Z_lt_le_dec a b) as [L|L]; [exact L|].
  exfalso. apply (Qlt_not_le _ _ H). apply two_le. exact L.
Qed.

Lemma two_split (a b : Z) : 2 ^ (a + b) == 2 ^ a * 2 ^ b.
Proof. apply Qpower_plus. intro H. discriminate H. Qed.

Lemma ilog2_spec (x : Q) :
  0 < x -> 2 ^ ilog2 x <= x /\ x < 2 ^ (ilog2 x + 1).
Proof.
  intro Hx. unfold ilog2.
  destruct (Qle_bool 1 x) eqn:E.
  - apply Qle_bool_iff in E.
    assert (F : (1 <= Qfloor x)%Z).
    { change 1%Z with (Qfloor 1). apply Qfloor_resp_le. exact E. }
    destruct (Z.log2_spec (Qfloor x)) as [L U]; [lia|].
    pose proof (Z.log2_nonneg (Qfloor x)) as N.
    rewrite !two_int by lia. split.
    + apply Qle_trans with (inject_Z (Qfloor x)); [|apply Qfloor_le].
      rewrite <- Zle_Qle. exact L.
    + apply Qlt_le_trans with (inject_Z (Qfloor x + 1)); [apply Qlt_floor|].
      rewrite <- Zle_Qle. lia.
  - assert (L1 : x < 1).
    { apply Qnot_le_lt. intro H. apply Qle_bool_iff in H. congruence. }
    assert (I : 1 < / x).
    { apply Qlt_shift_inv_l; [exact Hx|]. lra. }
    set (c := Qceiling (/ x)).
    assert (C : (2 <= c)%Z).
    { assert (H : (1 < c)%Z).
      { apply Qlt_le_trans with (z := inject_Z c) in I; [|apply Qle_ceiling].
        change 1 with (inject_Z 1) in I. rewrite <- Zlt_Qlt in I. exact I. }
      lia. }
    destruct (Z.log2_up_spec c) as [L U]; [lia|].
    assert (K : (1 <= Z.log2_up c)%Z).
    { pose proof (Z.log2_up_pos c). lia. }
    set (k := Z.log2_up c) in *.
    split.
    + rewrite Qpower_opp. apply Qle_shift_inv_r; [apply two_pos|].
      rewrite two_int by lia.
      assert (H : / x <= inject_Z (2 ^ k)).
      { apply Qle_trans with (inject_Z c); [apply Qle_ceiling|].
        rewrite <- Zle_Qle. exact U. }
      assert (M : / x * x == 1) by (field; lra).
      assert (P : / x * x <= inject_Z (2 ^ k) * x).
      { apply Qmult_le_compat_r; [exact H|lra]. }
      rewrite Qmult_comm. lra.
    + replace (- k + 1)%Z with (- (k - 1))%Z by lia.
      rewrite Qpower_opp.
      assert (M : / x * x == 1) by (field; lra).
      assert (Q1 : 2 ^ (k - 1) * x < / x * x).
      { apply Qmult_lt_compat_r; [exact Hx|].
        apply Qle_lt_trans with (inject_Z (c - 1)).
        - rewrite two_int by lia. rewrite <- Zle_Qle.
          replace (k - 1)%Z with (Z.pred k) by lia. lia.
        - apply Qceiling_lt. }
      apply Qlt_shift_inv_l; [apply two_pos|].
      rewrite Qmult_comm. lra.
Qed.


Lemma ilog2_wd (x y : Q) : x == y -> ilog2 x = ilog2 y.
Proof.
  intro E. unfold ilog2.
  assert (B : Qle_bool 1 x = Qle_bool 1 y) by (rewrite E; reflexivity).
  rewrite B. destruct (Qle_bool 1 y).
  - rewrite E. reflexivity.
  - rewrite E. reflexivity.
Qed.

Lemma ilog2_mono (x y : Q) : 0 < x -> x <= y -> (ilog2 x <= ilog2 y)%Z.
Proof.
  intros Hx H.
  destruct (ilog2_spec Hx) as [L _].
  assert (Hy : 0 < y) by lra.
  destruct (ilog2_spec Hy) as [_ U].
  assert (T : 2 ^ ilog2 x < 2 ^ (ilog2 y + 1)) by lra.
  apply two_lt_inv in T. lia.
Qed.

Lemma nearestEven_cases (y : Q) :
  (nearestEven y = Qfloor y /\ y - inject_Z (Qfloor y) <= 1 # 2 /\
   (y - inject_Z (Qfloor y) == 1 # 2 -> Z.even (Qfloor y) = true)) \/
  (nearestEven y = (Qfloor y + 1)%Z /\ 1 # 2 <= y - inject_Z (Qfloor y) /\
   (y - inject_Z (Qfloor y) == 1 # 2 -> Z.even (Qfloor y) = false)).
Proof.
  unfold nearestEven.
  destruct (Qcompare (y - inject_Z (Qfloor y)) (1 # 2)) eqn:C.
  - apply Qeq_alt in C. destruct (Z.even (Qfloor y)) eqn:E.
    + left. split; [reflexivity|]. split; [lra|]. intros _. reflexivity.
    + right. split; [reflexivity|]. split; [lra|]. intros _. reflexivity.
  - apply Qlt_alt in C. left. split; [reflexivity|]. split; [lra|].
    intro H. lra.
  - apply Qgt_alt in C. right. split; [reflexivity|]. split; [lra|].
    intro H. lra.
Qed.

Lemma nearestEven_wd (x y : Q) : x == y -> nearestEven x = nearestEven y.
Proof.
  intro E. unfold nearestEven.
  rewrite (Qfloor_comp _ _ E).
  assert (C : Qcompare (x - inject_Z (Qfloor y)) (1 # 2) =
              Qcompare (y - inject_Z (Qfloor y)) (1 # 2))
    by (rewrite E; reflexivity).
  rewrite C. reflexivity.
Qed.

Lemma floor_bounds (y : Q) :
  inject_Z (Qfloor y) <= y /\ y < inject_Z (Qfloor y) + 1.
Proof.
  split; [apply Qfloor_le|].
  pose proof (Qlt_floor y) as H. rewrite inject_Z_plus in H. exact H.
Qed.

Lemma nearestEven_mono (x y : Q) :
  x <= y -> (nearestEven x <= nearestEven y)%Z.
Proof.
  intro H.
  pose proof (Qfloor_resp_le _ _ H) as F.
  destruct (floor_bounds x) as [Lx Ux]. destruct (floor_bounds y) as [Ly Uy].
  destruct (Z.eq_dec (Qfloor x) (Qfloor y)) as [E|N].
  - destruct (nearestEven_cases x) as [[Ex [Bx Tx]]|[Ex [Bx Tx]]];
      destruct (nearestEven_cases y) as [[Ey [By Ty]]|[Ey [By Ty]]];
      rewrite Ex, Ey; try lia.
    exfalso. rewrite E in *.
    assert (Hx : x - inject_Z (Qfloor y) == 1 # 2) by lra.
    assert (Hy : y - inject_Z (Qfloor y) == 1 # 2) by lra.
    specialize (Tx Hx). specialize (Ty Hy). congruence.
  - assert (L : (Qfloor x + 1 <= Qfloor y)%Z) by lia.
    destruct (nearestEven_cases x) as [[Ex _]|[Ex _]];
      destruct (nearestEven_cases y) as [[Ey _]|[Ey _]];
      rewrite Ex, Ey; lia.
Qed.

Lemma nearestEven_int (n : Z) : nearestEven (inject_Z n) = n.
Proof.
  unfold nearestEven. rewrite Qfloor_Z.
  assert (C : Qcompare (inject_Z n - inject_Z n) (1 # 2) = Lt).
  { apply (proj1 (Qlt_alt _ _)). lra. }
  rewrite C. reflexivity.
Qed.

Lemma nearestEven_close (y : Q) :
  Qabs (inject_Z (nearestEven y) - y) <= 1 # 2.
Proof.
  destruct (floor_bounds y) as [L U].
  destruct (nearestEven_cases y) as [[E [B _]]|[E [B _]]]; rewrite E.
  - apply Qabs_case; intro; lra.
  - assert (I : inject_Z (Qfloor y + 1) == inject_Z (Qfloor y) + 1)
      by (rewrite inject_Z_plus; reflexivity).
    apply Qabs_case; intro; lra.
Qed.

Lemma floor_opp (y : Q) :
  (y == inject_Z (Qfloor y) /\ Qfloor (- y) = (- Qfloor y)%Z) \/
  (inject_Z (Qfloor y) < y /\ Qfloor (- y) = (- Qfloor y - 1)%Z).
Proof.
  destruct (floor_bounds y) as [L U].
  destruct (Qlt_le_dec (inject_Z (Qfloor y)) y) as [H|H].
  - right. split; [exact H|].
    destruct (floor_bounds (- y)) as [L' U'].
    assert (A : inject_Z (Qfloor (- y)) < inject_Z (- Qfloor y)).
    { rewrite inject_Z_opp. lra. }
    assert (B : inject_Z (- Qfloor y - 2) < inject_Z (Qfloor (- y))).
    { assert (I : inject_Z (- Qfloor y - 2) == - inject_Z (Qfloor y) - 2).
      { unfold Z.sub. rewrite inject_Z_plus, inject_Z_opp. reflexivity. }
      rewrite I. lra. }
    rewrite <- Zlt_Qlt in A, B. lia.
  - left. assert (E : y == inject_Z (Qfloor y)) by lra.
    split; [exact E|].
    rewrite (Qfloor_comp (- y) (inject_Z (- Qfloor y))).
    + apply Qfloor_Z.
    + rewrite inject_Z_opp, <- E. reflexivity.
Qed.

Lemma nearestEven_opp (y : Q) : nearestEven (- y) = (- nearestEven y)%Z.
Proof.
  destruct (floor_opp y) as [[E F]|[L F]].
  - rewrite (nearestEven_wd E).
    rewrite (@nearestEven_wd (- y) (inject_Z (- Qfloor y))).
    + rewrite !nearestEven_int. reflexivity.
    + rewrite inject_Z_opp, <- E. reflexivity.
  - destruct (floor_bounds y) as [_ U].
    assert (I : inject_Z (Qfloor (- y)) == - inject_Z (Qfloor y) - 1).
    { rewrite F. unfold Z.sub. rewrite inject_Z_plus, !inject_Z_opp.
      reflexivity. }
    assert (Ev : Z.even (Qfloor (- y)) = negb (Z.even (Qfloor y))).
    { rewrite F. replace (- Qfloor y - 1)%Z with (- (Qfloor y + 1))%Z by lia.
      rewrite Z.even_opp, Z.even_add. simpl.
      destruct (Z.even (Qfloor y)); reflexivity. }
    destruct (nearestEven_cases y) as [[Ey [By Ty]]|[Ey [By Ty]]];
      destruct (nearestEven_cases (- y)) as [[En [Bn Tn]]|[En [Bn Tn]]];
      rewrite Ey, En, F; try lia; exfalso.
    + assert (Hy : y - inject_Z (Qfloor y) == 1 # 2) by lra.
      assert (Hn : - y - inject_Z (Qfloor (- y)) == 1 # 2) by lra.
      specialize (Ty Hy). specialize (Tn Hn). rewrite Ev, Ty in Tn.
      discriminate.
    + assert (Hy : y - inject_Z (Qfloor y) == 1 # 2) by lra.
      assert (Hn : - y - inject_Z (Qfloor (- y)) == 1 # 2) by lra.
      specialize (Ty Hy). specialize (Tn Hn). rewrite Ev, Ty in Tn.
      discriminate.
Qed.


Lemma lastPlace_wd (x y : Q) : x == y -> lastPlace x = lastPlace y.
Proof.
  intro E. unfold lastPlace. rewrite (@ilog2_wd (Qabs x) (Qabs y)).
  - reflexivity.
  - rewrite E. reflexivity.
Qed.

Lemma round_wd (x y : Q) : x == y -> round x = round y.
Proof.
  intro E. unfold round.
  assert (B : Qeq_bool x 0 = Qeq_bool y 0).
  { destruct (Qeq_bool y 0) eqn:Y.
    - apply Qeq_bool_iff in Y. apply Qeq_bool_iff. rewrite E. exact Y.
    - destruct (Qeq_bool x 0) eqn:X; [|reflexivity].
      apply Qeq_bool_iff in X. rewrite E in X. apply Qeq_bool_iff in X.
      congruence. }
  rewrite B, (lastPlace_wd E).
  rewrite (@nearestEven_wd (x / 2 ^ lastPlace y) (y / 2 ^ lastPlace y)).
  - reflexivity.
  - rewrite E. reflexivity.
Qed.

Lemma round_0 : round 0 = 0.
Proof. reflexivity. Qed.

Lemma round_eq (x : Q) :
  round x == inject_Z (nearestEven (x / 2 ^ lastPlace x)) * 2 ^ lastPlace x.
Proof.
  unfold round. destruct (Qeq_bool x 0) eqn:E; [|reflexivity].
  apply Qeq_bool_iff in E.
  rewrite (@nearestEven_wd (x / 2 ^ lastPlace x) (inject_Z 0)).
  - rewrite nearestEven_int. ring.
  - unfold Qdiv. apply Qeq_trans with (0 * / 2 ^ lastPlace x); [|ring].
    apply Qmult_comp; [exact E|reflexivity].
Qed.

Lemma round_opp (x : Q) : round (- x) == - round x.
Proof.
  rewrite !round_eq.
  assert (L : lastPlace (- x) = lastPlace x).
  { unfold lastPlace. rewrite (@ilog2_wd (Qabs (- x)) (Qabs x)).
    - reflexivity.
    - apply Qabs_opp. }
  rewrite L.
  rewrite (@nearestEven_wd (- x / 2 ^ lastPlace x) (- (x / 2 ^ lastPlace x))).
  - rewrite nearestEven_opp, inject_Z_opp. ring.
  - unfold Qdiv. ring.
Qed.

(** A power of two at or above the last place of [x] is kept by the
    rounding of [x] on the side where [x] lies. *)
Lemma round_below (x : Q) (j : Z) :
  (lastPlace x <= j)%Z -> x <= 2 ^ j -> round x <= 2 ^ j.
Proof.
  intros J H. rewrite round_eq.
  set (e := lastPlace x) in *.
  assert (P : 0 < 2 ^ e) by apply two_pos.
  assert (S : 2 ^ j == inject_Z (2 ^ (j - e)) * 2 ^ e).
  { rewrite <- two_int by lia. rewrite <- two_split. 
    replace (j - e + e)%Z with j by lia. reflexivity. }
  rewrite S. apply Qmult_le_compat_r; [|lra].
  rewrite <- Zle_Qle.
  rewrite <- (nearestEven_int (2 ^ (j - e))).
  apply nearestEven_mono.
  apply Qle_shift_div_r; [exact P|]. rewrite <- S. exact H.
Qed.

Lemma round_above (x : Q) (j : Z) :
  (lastPlace x <= j)%Z -> 2 ^ j <= x -> 2 ^ j <= round x.
Proof.
  intros J H. rewrite round_eq.
  set (e := lastPlace x) in *.
  assert (P : 0 < 2 ^ e) by apply two_pos.
  assert (S : 2 ^ j == inject_Z (2 ^ (j - e)) * 2 ^ e).
  { rewrite <- two_int by lia. rewrite <- two_split. 
    replace (j - e + e)%Z with j by lia. reflexivity. }
  rewrite S. apply Qmult_le_compat_r; [|lra].
  rewrite <- Zle_Qle.
  rewrite <- (nearestEven_int (2 ^ (j - e))) at 1.
  apply nearestEven_mono.
  apply Qle_shift_div_l; [exact P|]. rewrite <- S. exact H.
Qed.

Lemma round_nonneg (x : Q) : 0 <= x -> 0 <= round x.
Proof.
  intro H. rewrite round_eq.
  apply Qmult_le_0_compat; [|apply Qlt_le_weak, two_pos].
  change 0 with (inject_Z 0). rewrite <- Zle_Qle.
  rewrite <- (nearestEven_int 0). apply nearestEven_mono.
  apply Qle_shift_div_l; [apply two_pos|]. 
  change (inject_Z 0) with 0. lra.
Qed.

Lemma round_mono_pos (x y : Q) : 0 < x -> x <= y -> round x <= round y.
Proof.
  intros Hx H.
  assert (Hy : 0 < y) by lra.
  assert (Ax : Qabs x == x) by (apply Qabs_pos; lra).
  assert (Ay : Qabs y == y) by (apply Qabs_pos; lra).
  assert (Lx : lastPlace x = Z.max (ilog2 x - 52) (-1074)).
  { unfold lastPlace. rewrite (ilog2_wd Ax). reflexivity. }
  assert (Ly : lastPlace y = Z.max (ilog2 y - 52) (-1074)).
  { unfold lastPlace. rewrite (ilog2_wd Ay). reflexivity. }
  pose proof (ilog2_mono Hx H) as M.
  destruct (Z.eq_dec (lastPlace x) (lastPlace y)) as [E|N].
  - rewrite !round_eq, E.
    apply Qmult_le_compat_r; [|apply Qlt_le_weak, two_pos].
    rewrite <- Zle_Qle. apply nearestEven_mono.
    apply Qmult_le_compat_r; [exact H|].
    apply Qlt_le_weak, Qinv_lt_0_compat, two_pos.
  - assert (K : (lastPlace x < lastPlace y)%Z) by lia.
    assert (Ky : lastPlace y = (ilog2 y - 52)%Z) by lia.
    assert (Ix : (ilog2 x < ilog2 y)%Z) by lia.
    destruct (ilog2_spec Hx) as [_ Ux]. destruct (ilog2_spec Hy) as [Ly' _].
    apply Qle_trans with (2 ^ ilog2 y).
    + apply round_below; [lia|].
      apply Qle_trans with (2 ^ (ilog2 x + 1)); [lra|].
      apply two_le. lia.
    + apply round_above; [lia|exact Ly'].
Qed.

Lemma round_mono (x y : Q) : x <= y -> round x <= round y.
Proof.
  intro H.
  destruct (Qlt_le_dec 0 x) as [Hx|Hx].
  - apply round_mono_pos; assumption.
  - destruct (Qlt_le_dec y 0) as [Hy|Hy].
    + assert (M : round (- y) <= round (- x)) by (apply round_mono_pos; lra).
      rewrite !round_opp in M. lra.
    + apply Qle_trans with 0.
      * assert (M : 0 <= round (- x)) by (apply round_nonneg; lra).
        rewrite round_opp in M. lra.
      * apply round_nonneg. exact Hy.
Qed.

Lemma round_close (x : Q) :
  Qabs (round x - x) <= 2 ^ (lastPlace x - 1).
Proof.
  rewrite round_eq. set (e := lastPlace x).
  assert (P : 0 < 2 ^ e) by apply two_pos.
  pose proof (nearestEven_close (x / 2 ^ e)) as C.
  set (n := inject_Z (nearestEven (x / 2 ^ e))) in *.
  assert (S : 2 ^ (e - 1) == (1 # 2) * 2 ^ e).
  { unfold Z.sub. rewrite two_split. change (2 ^ (- (1))) with (1 # 2).
    ring. }
  assert (D : n * 2 ^ e - x == (n - x / 2 ^ e) * 2 ^ e) by (field; lra).
  rewrite D, S, Qabs_Qmult, (Qabs_pos (2 ^ e)) by lra.
  apply Qmult_le_compat_r; [exact C|lra].
Qed.

End DoubleFacts.

Section NumberFacts.

Import JsNum.

Lemma gtb_true_iff (x y : Q) : gtb x y = true <-> y < x.
Proof.
  unfold gtb. rewrite negb_true_iff. split; intro H.
  - apply Qnot_le_lt. intro L. apply Qle_bool_iff in L. congruence.
  - destruct (Qle_bool x y) eqn:E; [|reflexivity].
    apply Qle_bool_iff in E. exfalso. apply (Qlt_not_le _ _ H E).
Qed.

Lemma gtb_false_iff (x y : Q) : gtb x y = false <-> x <= y.
Proof.
  unfold gtb. rewrite negb_false_iff. apply Qle_bool_iff.
Qed.

Lemma floor_half_close (a : Q) (p : positive) :
  Qabs ((Qfloor (a * inject_Z (Zpos p) + (1 # 2)) # p) - a) <= 1 # (2 * p).
Proof.
  set (y := a * inject_Z (Zpos p) + (1 # 2)).
  pose proof (Qfloor_le y) as Hlo.
  pose proof (Qlt_floor y) as Hhi.
  set (n := Qfloor y) in *.
  assert (Hp : 0 < inject_Z (Zpos p)) by (unfold Qlt; simpl; lia).
  assert (Hn : n # p == inject_Z n / inject_Z (Zpos p)) by apply Qmake_Qdiv.
  assert (Hh : 1 # (2 * p) == (1 # 2) / inject_Z (Zpos p)).
  { unfold Qeq, Qdiv, Qmult, Qinv; simpl. lia. }
  rewrite Hn, Hh.
  assert (Hs : inject_Z (n + 1) == inject_Z n + 1)
    by (rewrite inject_Z_plus; reflexivity).
  rewrite Hs in Hhi. unfold y in Hlo, Hhi.
  set (P := inject_Z (Zpos p)) in *. set (N := inject_Z n) in *.
  assert (Ha : a == (a * P) / P) by (field; lra).
  apply Qabs_case; intros _.
  - apply Qle_shift_div_l; [assumption|].
    assert (E : (N / P - a) * P == N - a * P) by (field; lra).
    rewrite E. lra.
  - apply Qle_shift_div_l; [assumption|].
    assert (E : - (N / P - a) * P == a * P - N) by (field; lra).
    rewrite E. lra.
Qed.

Lemma value_toFixed_rounded (x : Q) (f : nat) :
  roundedTo f x (value (toFixed x f)).
Proof.
  unfold value, toFixed; cbn [negative digits fraction].
  destruct (gtb 0 x) eqn:S.
  - split.
    + eexists (- _)%Z. reflexivity.
    + pose proof (floor_half_close (- x) (pow10 f)) as H.
      set (q := Qfloor _ # pow10 f) in *.
      assert (E : Qabs (- q - x) == Qabs (q - - x)).
      { rewrite <- (Qabs_opp (q - - x)). apply Qabs_wd. ring. }
      rewrite E. exact H.
  - split.
    + eexists. reflexivity.
    + apply floor_half_close.
Qed.

End NumberFacts.

(** ** Sorting with a comparator that follows a key, descending *)

Section SortFacts.

Context {A : Type} (key : A -> Q) (cmp : A -> A -> Q).
Hypothesis cmp_key : forall x y : A, 0 < cmp x y <-> key x < key y.

Lemma insert_perm (x : A) (l : list A) :
  Permutation (x :: l) (JsArray.insert cmp x l).
Proof.
  induction l as [|y l IH]; simpl; [apply Permutation_refl|].
  destruct (JsNum.gtb (cmp x y) 0); [|apply Permutation_refl].
  eapply perm_trans; [apply perm_swap|]. apply perm_skip. exact IH.
Qed.

Lemma sort_perm (l : list A) : Permutation l (JsArray.sort cmp l).
Proof.
  induction l as [|x l IH]; simpl; [constructor|].
  eapply perm_trans; [apply perm_skip; exact IH|apply insert_perm].
Qed.

Lemma length_sort (l : list A) :
  List.length (JsArray.sort cmp l) = List.length l.
Proof. symmetry. apply Permutation_length, sort_perm. Qed.

Lemma insert_sorted (x : A) (l : list A) :
  StronglySorted (fun a b => key b <= key a) l ->
  StronglySorted (fun a b => key b <= key a) (JsArray.insert cmp x l).
Proof.
  induction 1 as [|y l S IH F]; simpl.
  - constructor; constructor.
  - destruct (JsNum.gtb (cmp x y) 0) eqn:G.
    + apply gtb_true_iff, cmp_key in G.
      constructor; [exact IH|].
      apply (Permutation_Forall (insert_perm x l)).
      constructor; [apply Qlt_le_weak; exact G|exact F].
    + apply gtb_false_iff in G.
      assert (L : key y <= key x).
      { apply Qnot_lt_le. intro H. apply cmp_key in H.
        apply (Qlt_not_le _ _ H G). }
      constructor; [constructor; assumption|].
      constructor; [exact L|].
      eapply Forall_impl; [|exact F].
      intros z Hz. simpl in Hz. apply Qle_trans with (key y); assumption.
Qed.

Lemma sort_sorted (l : list A) :
  StronglySorted (fun a b => key b <= key a) (JsArray.sort cmp l).
Proof.
  induction l as [|x l IH]; simpl; [constructor|].
  apply insert_sorted. exact IH.
Qed.

Lemma insert_stable (q : Q) (x : A) (l : list A) :
  filter (fun a => Qeq_bool (key a) q) (JsArray.insert cmp x l) =
  filter (fun a => Qeq_bool (key a) q) (x :: l).
Proof.
  induction l as [|y l IH]; [reflexivity|].
  simpl JsArray.insert.
  destruct (JsNum.gtb (cmp x y) 0) eqn:G; [|reflexivity].
  apply gtb_true_iff, cmp_key in G.
  cbn [filter]. cbn [filter] in IH. rewrite IH.
  destruct (Qeq_bool (key y) q) eqn:Ey; [|reflexivity].
  destruct (Qeq_bool (key x) q) eqn:Ex; [|reflexivity].
  apply Qeq_bool_iff in Ex, Ey. exfalso.
  rewrite Ex, Ey in G. apply (Qlt_irrefl _ G).
Qed.

Lemma sort_stable (q : Q) (l : list A) :
  filter (fun a => Qeq_bool (key a) q) (JsArray.sort cmp l) =
  filter (fun a => Qeq_bool (key a) q) l.
Proof.
  induction l as [|x l IH]; [reflexivity|].
  simpl JsArray.sort. rewrite insert_stable.
  cbn [filter]. rewrite IH. reflexivity.
Qed.

Lemma sort_ranked (l : list A) : rankedDesc key l (JsArray.sort cmp l).
Proof.
  split; [apply sort_perm|]. split; [apply sort_sorted|].
  intro q. apply sort_stable.
Qed.

End SortFacts.

(** A ranking is determined by the list it ranks: any stable sort gives
    the same order. *)
Lemma ranked_eq (A : Type) (key : A -> Q) (r1 r2 : list A) :
  Permutation r1 r2 ->
  StronglySorted (fun x y => key y <= key x) r1 ->
  StronglySorted (fun x y => key y <= key x) r2 ->
  (forall q : Q,
     filter (fun x => Qeq_bool (key x) q) r1 =
     filter (fun x => Qeq_bool (key x) q) r2) ->
  r1 = r2.
Proof.
  revert r2. induction r1 as [|x r1 IH]; intros r2 P S1 S2 F.
  - apply Permutation_nil in P. auto.
  - destruct r2 as [|y r2].
    { apply Permutation_sym, Permutation_nil in P. discriminate. }
    inversion S1 as [|? ? S1' F1]. inversion S2 as [|? ? S2' F2]. subst.
    assert (Lyx : key y <= key x).
    { assert (I : In y (x :: r1))
        by (apply (Permutation_in _ (Permutation_sym P)); left; reflexivity).
      destruct I as [I|I]; [subst; apply Qle_refl|].
      rewrite Forall_forall in F1. apply F1. exact I. }
    assert (Lxy : key x <= key y).
    { assert (I : In x (y :: r2))
        by (apply (Permutation_in _ P); left; reflexivity).
      destruct I as [I|I]; [subst; apply Qle_refl|].
      rewrite Forall_forall in F2. apply F2. exact I. }
    assert (E : x = y).
    { pose proof (F (key x)) as Fx. cbn [filter] in Fx.
      rewrite (proj2 (Qeq_bool_iff (key x) (key x)) (Qeq_refl _)) in Fx.
      rewrite (proj2 (Qeq_bool_iff (key y) (key x))
                 (Qle_antisym _ _ Lyx Lxy)) in Fx.
      inversion Fx. reflexivity. }
    subst y. f_equal. apply IH.
    + apply Permutation_cons_inv with x. exact P.
    + exact S1'.
    + exact S2'.
    + intro q. pose proof (F q) as Fq. cbn [filter] in Fq.
      destruct (Qeq_bool (key x) q); [inversion Fq|]; auto.
Qed.

Lemma rankedDesc_unique (A : Type) (key : A -> Q) (l r1 r2 : list A) :
  rankedDesc key l r1 -> rankedDesc key l r2 -> r1 = r2.
Proof.
  intros [P1 [S1 F1]] [P2 [S2 F2]].
  apply (ranked_eq key); try assumption.
  - eapply perm_trans; [apply Permutation_sym; exact P1|exact P2].
  - intro q. rewrite F1, F2. reflexivity.
Qed.

Lemma cmp_snd (T : Type) (x y : T * Q) :
  0 < snd y - snd x <-> snd x < snd y.
Proof. split; intro H; lra. Qed.

Lemma topN_ranked (T : Type) (entries : list (T * Q)) (n : nat) :
  exists ranked : list (T * Q),
    rankedDesc snd entries ranked /\
    (forall other, rankedDesc snd entries other -> other = ranked) /\
    topN entries n = map fst (firstn n ranked).
Proof.
  assert (R : rankedDesc snd entries
                (JsArray.sort (fun a b => snd b - snd a) entries)).
  { apply sort_ranked. intros x y. apply cmp_snd. }
  exists (JsArray.sort (fun a b => snd b - snd a) entries).
  split; [exact R|]. split; [|reflexivity].
  intros other O. exact (rankedDesc_unique O R).
Qed.

Lemma length_topN (T : Type) (entries : list (T * Q)) (n : nat) :
  List.length (topN entries n) = Nat.min n (List.length entries).
Proof.
  unfold topN, JsArray.sliceTo.
  rewrite length_map, length_firstn.
  rewrite (length_sort (fun a b : T * Q => snd b - snd a)). reflexivity.
Qed.

Lemma safeRate_pos (n d : Q) :
  0 < d ->
  safeRate n d = Double.round (JsNum.value (JsNum.toFixed (Double.div n d) 4)).
Proof.
  intro H. apply gtb_true_iff in H. unfold safeRate. rewrite H. reflexivity.
Qed.

(** C7. For [d > 0], [safeRate n d] is the double nearest to [r], where [r]
    is the double quotient [n / d] rounded to 4 decimal digits; the double
    quotient is the exact one up to half a unit of its last place.  In
    every other case [safeRate n d] is exactly [0]; in particular
    [safeRate n 0 = 0] for every [n].  [safeRate 10 4] is 2.5, and
    [safeRate 3 160] is the double of 0.0187. *)
Theorem safeRate_rounds_or_zero :
  forall n d : Q,
    (0 < d ->
     exists r : Q,
       JsNum.roundedTo 4 (Double.div n d) r /\
       safeRate n d = Double.round r /\
       Qabs (Double.div n d - n / d) <= 2 ^ (Double.lastPlace (n / d) - 1) /\
       Qabs (safeRate n d - r) <= 2 ^ (Double.lastPlace r - 1)) /\
    (~ 0 < d -> safeRate n d = 0) /\
    safeRate n 0 = 0 /\
    safeRate 10 4 == 25 # 10 /\
    safeRate 3 160 == 2694954017018505 # 144115188075855872.
Proof.
  intros n d. split; [|split; [|split; [|split]]].
  - intro H. exists (JsNum.value (JsNum.toFixed (Double.div n d) 4)).
    split; [apply value_toFixed_rounded|].
    split; [apply safeRate_pos; exact H|].
    split; [apply round_close|].
    rewrite (safeRate_pos n H). apply round_close.
  - intro H. unfold safeRate.
    destruct (JsNum.gtb d 0) eqn:E; [|reflexivity].
    apply gtb_true_iff in E. contradiction.
  - reflexivity.
  - vm_compute. reflexivity.
  - vm_compute. reflexivity.
Qed.

(** The rounding of [safeRate] is not the rounding of the exact quotient.
    [3 / 160] is 0.01875, which rounds to 0.0188; its double lies below,
    and [safeRate 3 160] is the double of 0.0187.  [534967076173 / 31] is
    17257002457.19354..., which rounds to 17257002457.1935; its double lies
    above 17257002457.19355, and [safeRate] gives the double of
    17257002457.1936, farther from the quotient than half a unit of the
    fourth digit. *)
Lemma safeRate_double_rounding :
  3 / 160 == 1875 # 100000 /\
  JsNum.value (JsNum.toFixed (3 / 160) 4) == 188 # 10000 /\
  JsNum.toFixed (Double.div 3 160) 4 = JsNum.mkNumeral false 187 4 /\
  safeRate 3 160 = Double.round (187 # 10000) /\
  safeRate 3 160 < Double.round (188 # 10000) /\
  JsNum.roundedTo 4 (534967076173 / 31) (172570024571935 # 10000) /\
  safeRate 534967076173 31 = Double.round (172570024571936 # 10000) /\
  1 # 20000 < Qabs ((172570024571936 # 10000) - 534967076173 / 31) /\
  1 # 20000 < Qabs (safeRate 534967076173 31 - 534967076173 / 31).
Proof.
  split; [reflexivity|]. split; [vm_compute; reflexivity|].
  split; [vm_compute; reflexivity|]. split; [vm_compute; reflexivity|].
  split; [vm_compute; reflexivity|].
  split.
  { split; [exists 172570024571935%Z; reflexivity|].
    vm_compute. intro H. discriminate H. }
  split; [vm_compute; reflexivity|].
  split; vm_compute; reflexivity.
Qed.

(** ** Hashtag normalization *)

Section StringFacts.

Import JsString.

Lemma lowerChar_class (c : ascii) :
  isHashOrSpace (lowerChar c) = isHashOrSpace c.
Proof. destruct c as [[] [] [] [] [] [] [] []]; reflexivity. Qed.



Lemma toLowerCase_app (s t : string) :
  toLowerCase (s ++ t) = (toLowerCase s ++ toLowerCase t)%string.
Proof. induction s as [|c s IH]; simpl; [|rewrite IH]; reflexivity. Qed.




Lemma noHash_removeHashSpace (s : string) :
  noHashOrSpace (removeHashSpace s) = true.
Proof.
  induction s as [|c s IH]; simpl; [reflexivity|].
  destruct (isHashOrSpace c) eqn:E; simpl; [exact IH|].
  rewrite E, IH. reflexivity.
Qed.

Lemma noHash_toLowerCase (s : string) :
  noHashOrSpace (toLowerCase s) = noHashOrSpace s.
Proof.
  induction s as [|c s IH]; simpl; [reflexivity|].
  rewrite lowerChar_class, IH. reflexivity.
Qed.



Lemma noHash_normalizeTag (h : option string) :
  noHashOrSpace (normalizeTag h) = true.
Proof.
  unfold normalizeTag. rewrite noHash_toLowerCase.
  apply noHash_removeHashSpace.
Qed.




End StringFacts.

(** ** The rankings *)

Lemma map_filter_comm (A B : Type) (f : A -> B) (p : B -> bool)
    (l : list A) :
  map f (filter (fun x => p (f x)) l) = filter p (map f l).
Proof.
  induction l as [|a l IH]; simpl; [reflexivity|].
  destruct (p (f a)); simpl; rewrite IH; reflexivity.
Qed.

Lemma allTags_events (rows : list MetricRow) :
  map tagKey (tagEvents rows) = allTags rows.
Proof.
  unfold tagEvents, allTags.
  induction rows as [|r l IH]; simpl; [reflexivity|].
  rewrite map_app, IH, map_map. reflexivity.
Qed.

Section RankingFacts.

Variable rows : list MetricRow.

Lemma keys_byHour :
  JsMap.keys (byHour (aggregate rows)) = distinct Num_eq_dec (map hourOf rows).
Proof. rewrite byHour_aggregate. apply keys_fold_upsert_empty. Qed.

Lemma keys_byType :
  JsMap.keys (byType (aggregate rows)) =
  distinct string_dec (map typeOf rows).
Proof. rewrite byType_aggregate. apply keys_fold_upsert_empty. Qed.

Lemma keys_hashtagStats :
  JsMap.keys (hashtagStats (aggregate rows)) =
  distinct string_dec
    (filter (fun k => negb (JsString.isEmpty k)) (allTags rows)).
Proof.
  rewrite hashtagStats_aggregate, keys_fold_upsert_empty. f_equal.
  rewrite <- allTags_events.
  apply (map_filter_comm tagKey (fun k => negb (JsString.isEmpty k))).
Qed.

Lemma hour_entry (h : Num) (v : HourAgg) :
  In (h, v) (byHour (aggregate rows)) ->
  v = mkHourAgg (sumBy views (rowsAtHour h rows)) (count (rowsAtHour h rows))
  /\ rowsAtHour h rows <> [].
Proof.
  intro H. apply (In_get Num_eq_dec) in H.
  - rewrite hour_bucket in H.
    destruct (rowsAtHour h rows); [discriminate|].
    inversion H. split; [reflexivity|discriminate].
  - rewrite keys_byHour. apply NoDup_distinct.
Qed.

Lemma type_entry (t : string) (v : TypeAgg) :
  In (t, v) (byType (aggregate rows)) ->
  v = mkTypeAgg (sumBy views (rowsOfType t rows)) (count (rowsOfType t rows))
        (sumBy likes (rowsOfType t rows)) (sumBy comments (rowsOfType t rows))
        (sumBy shares (rowsOfType t rows))
  /\ rowsOfType t rows <> [].
Proof.
  intro H. apply (In_get string_dec) in H.
  - rewrite type_bucket in H.
    destruct (rowsOfType t rows); [discriminate|].
    inversion H. split; [reflexivity|discriminate].
  - rewrite keys_byType. apply NoDup_distinct.
Qed.

Lemma tag_entry (k : string) (v : TagStat) :
  In (k, v) (hashtagStats (aggregate rows)) ->
  v = mkTagStat (sumBy views (tagUses k rows)) (count (tagUses k rows))
  /\ tagUses k rows <> [] /\ k <> EmptyString.
Proof.
  intro H. apply (In_get string_dec) in H.
  - rewrite tag_bucket in H.
    destruct (JsString.isEmpty k) eqn:E; [discriminate|].
    destruct (tagUses k rows); [discriminate|].
    inversion H. split; [reflexivity|]. split; [discriminate|].
    intro Hk. subst k. discriminate.
  - rewrite keys_hashtagStats. apply NoDup_distinct.
Qed.

End RankingFacts.

Lemma firstn_short (A : Type) (n : nat) (l : list A) :
  (List.length l <= n)%nat -> firstn n l = l.
Proof. apply firstn_all2. Qed.

(** C2. [bestHours] is the first three hour buckets in the ranking by
    [safeRate(totalViews, postCount)], descending, buckets of equal rate
    keeping the insertion order of the map, which is the order in which the
    hours first occur in the rows; its length is at most 3 and at most the
    number of distinct hours, and with fewer than 3 distinct hours it is the
    whole ranking. *)
Theorem bestHours_top3 :
  forall rows : list MetricRow,
  exists ranked : list (Num * Q),
    rankedDesc snd (hourRates (aggregate rows)) ranked /\
    (forall other,
       rankedDesc snd (hourRates (aggregate rows)) other -> other = ranked) /\
    bestHours (aggregate rows) = map fst (firstn 3 ranked) /\
    map fst (hourRates (aggregate rows)) =
      distinct Num_eq_dec (map hourOf rows) /\
    (forall h q, In (h, q) (hourRates (aggregate rows)) ->
       q = safeRate (inject_Z (sumBy views (rowsAtHour h rows)))
             (inject_Z (count (rowsAtHour h rows)))) /\
    (List.length (bestHours (aggregate rows)) <= 3)%nat /\
    (List.length (bestHours (aggregate rows)) <=
       List.length (distinct Num_eq_dec (map hourOf rows)))%nat /\
    ((List.length (distinct Num_eq_dec (map hourOf rows)) < 3)%nat ->
       bestHours (aggregate rows) = map fst ranked /\
       Permutation (bestHours (aggregate rows))
         (distinct Num_eq_dec (map hourOf rows))).
Proof.
  intro rows.
  destruct (topN_ranked (hourRates (aggregate rows)) 3)
    as [ranked [R [U T]]].
  assert (Hkeys : map fst (hourRates (aggregate rows)) =
                  distinct Num_eq_dec (map hourOf rows)).
  { unfold hourRates, JsMap.entries. rewrite map_map. simpl.
    apply keys_byHour. }
  assert (Hlen : List.length (hourRates (aggregate rows)) =
                 List.length (distinct Num_eq_dec (map hourOf rows))).
  { rewrite <- Hkeys, length_map. reflexivity. }
  exists ranked. split; [exact R|]. split; [exact U|]. split; [exact T|].
  split; [exact Hkeys|]. split.
  { intros h q H. unfold hourRates in H. apply in_map_iff in H.
    destruct H as [[h' v] [E I]]. simpl in E. inversion E. subst h' q.
    apply hour_entry in I. destruct I as [I _]. subst v. reflexivity. }
  unfold bestHours in *. rewrite length_topN, Hlen.
  split; [apply Nat.le_min_l|]. split; [apply Nat.le_min_r|].
  intro H3. destruct R as [P _].
  assert (F : firstn 3 ranked = ranked).
  { apply firstn_short. rewrite <- (Permutation_length P), Hlen. lia. }
  rewrite T, F. split; [reflexivity|].
  rewrite <- Hkeys. apply Permutation_map, Permutation_sym, P.
Qed.

Lemma cmp_score (x y : TypeScore) :
  0 < score y - score x <-> score x < score y.
Proof. split; intro H; lra. Qed.

Lemma typeScores_sorted (rows : list MetricRow) :
  rankedDesc score (map scoreEntry (JsMap.entries (byType (aggregate rows))))
    (typeScores (aggregate rows)).
Proof. apply sort_ranked. exact cmp_score. Qed.

Lemma typeScores_types (rows : list MetricRow) :
  Permutation (map type (typeScores (aggregate rows)))
    (distinct string_dec (map typeOf rows)).
Proof.
  destruct (typeScores_sorted rows) as [P _].
  rewrite <- keys_byType. unfold JsMap.keys.
  apply Permutation_sym.
  replace (map fst (byType (aggregate rows)))
    with (map type (map scoreEntry (byType (aggregate rows))))
    by (rewrite map_map; reflexivity).
  apply Permutation_map. exact P.
Qed.

(** C1. [typeScores] has one entry for every distinct content type of the
    working set, [unknown] standing for an empty or missing [contentType];
    the entry of a type carries, over the totals of the rows of that type,
    [engagementRate = safeRate(likes + 2 comments + 3 shares, views)] with
    the post count as denominator when the views are 0,
    [viewPerPost = safeRate(views, posts)], and as [score] the double
    nearest to the blend rounded to 6 decimal digits, the blend being the
    double sum of the double products of [viewPerPost] by the double of
    0.7 and of [engagementRate] by the double of 0.3; the list is sorted by
    score, descending, entries of equal score in the order in which their
    types first occur. *)
Theorem typeScores_ranking :
  forall rows : list MetricRow,
    Permutation (map type (typeScores (aggregate rows)))
      (distinct string_dec (map typeOf rows)) /\
    (forall r, In r rows ->
       typeOf r = match contentType r with
                  | Some EmptyString | None => "unknown"%string
                  | Some t => t
                  end) /\
    StronglySorted (fun x y => score y <= score x)
      (typeScores (aggregate rows)) /\
    (exists scored : list TypeScore,
       map type scored = distinct string_dec (map typeOf rows) /\
       rankedDesc score scored (typeScores (aggregate rows))) /\
    (forall e, In e (typeScores (aggregate rows)) ->
       let rs := rowsOfType (type e) rows in
       let engagement :=
         (sumBy likes rs + 2 * sumBy comments rs + 3 * sumBy shares rs)%Z in
       let den :=
         if (sumBy views rs =? 0)%Z then count rs else sumBy views rs in
       let blend :=
         Double.add (Double.mul (viewPerPost e) (Double.round (7 # 10)))
           (Double.mul (engagementRate e) (Double.round (3 # 10))) in
       engagementRate e = safeRate (inject_Z engagement) (inject_Z den) /\
       viewPerPost e =
         safeRate (inject_Z (sumBy views rs)) (inject_Z (count rs)) /\
       score e = JsNum.Number (JsNum.toFixed blend 6) /\
       exists r : Q, JsNum.roundedTo 6 blend r /\ score e = Double.round r) /\
    Double.round (7 # 10) == 3152519739159347 # 4503599627370496 /\
    Double.round (3 # 10) == 5404319552844595 # 18014398509481984.
Proof.
  intro rows.
  destruct (typeScores_sorted rows) as [P [S F]].
  split; [|split; [|split; [exact S|split; [|split; [|split]]]]].
  - apply typeScores_types.
  - intros r _. unfold typeOf, strOr.
    destruct (contentType r) as [[|c t]|]; reflexivity.
  - exists (map scoreEntry (JsMap.entries (byType (aggregate rows)))).
    split; [|apply typeScores_sorted].
    rewrite <- keys_byType. unfold JsMap.keys, JsMap.entries.
    rewrite map_map. reflexivity.
  - intros e He.
    apply (Permutation_in _ (Permutation_sym P)) in He.
    apply in_map_iff in He. destruct He as [[t v] [E I]].
    apply type_entry in I. destruct I as [I _]. subst v e.
    unfold scoreEntry. cbn [fst snd type score viewPerPost engagementRate
      t_views t_posts t_likes t_comments t_shares viewsOrPosts].
    set (rs := rowsOfType t rows).
    split; [f_equal; f_equal; lia|]. split; [reflexivity|].
    split; [reflexivity|].
    eexists. split; [apply value_toFixed_rounded|reflexivity].
  - vm_compute. reflexivity.
  - vm_compute. reflexivity.
Qed.

(** The score is not the blend rounded to 6 decimal digits.  For one row
    with 6000000000 views and 6000000 likes the rate is 0.001 and the
    blend 4200000000.0003 in exact arithmetic; the double sum lies below
    4200000000.0002995, and the score is the double of 4200000000.000299,
    farther from the blend than half a unit of the sixth digit. *)
Lemma score_double_rounding :
  exists e : TypeScore,
    typeScores
      (aggregate
         [mkRow "TikTok" "tt1" "2024-11-01" (JNumber 18) (Some "short")
            "AI Tools" None 6000000000%Z 6000000%Z 0%Z 0%Z None]%string) =
      [e] /\
    viewPerPost e == 6000000000 /\
    engagementRate e = Double.round (1 # 1000) /\
    JsNum.roundedTo 6
      ((7 # 10) * viewPerPost e + (3 # 10) * engagementRate e)
      (4200000000000300 # 1000000) /\
    score e = Double.round (4200000000000299 # 1000000) /\
    1 # 2000000 <
      Qabs ((4200000000000299 # 1000000) -
            ((7 # 10) * viewPerPost e + (3 # 10) * engagementRate e)) /\
    1 # 2000000 <
      Qabs (score e -
            ((7 # 10) * viewPerPost e + (3 # 10) * engagementRate e)).
Proof.
  eexists. split; [vm_compute; reflexivity|].
  cbn [viewPerPost engagementRate score].
  split; [vm_compute; reflexivity|]. split; [vm_compute; reflexivity|].
  split.
  { split; [exists 4200000000000300%Z; reflexivity|].
    vm_compute. intro H. discriminate H. }
  split; [vm_compute; reflexivity|].
  split; vm_compute; reflexivity.
Qed.

Lemma In_firstn (A : Type) (n : nat) (l : list A) (x : A) :
  In x (firstn n l) -> In x l.
Proof.
  intro H. rewrite <- (firstn_skipn n l). apply in_or_app. left. exact H.
Qed.

Lemma topN_incl (T : Type) (entries : list (T * Q)) (n : nat) (t : T) :
  In t (topN entries n) -> In t (map fst entries).
Proof.
  unfold topN, JsArray.sliceTo. intro H.
  apply in_map_iff in H. destruct H as [e [E I]].
  apply in_map_iff. exists e. split; [exact E|].
  apply In_firstn in I.
  apply (Permutation_in _
           (Permutation_sym (sort_perm (fun a b => snd b - snd a) entries))).
  exact I.
Qed.

Lemma cmp_views (x y : string * TagStat) :
  0 < inject_Z (s_views (snd y) - s_views (snd x)) <->
  inject_Z (s_views (snd x)) < inject_Z (s_views (snd y)).
Proof.
  rewrite <- Zlt_Qlt. change 0 with (inject_Z 0). rewrite <- Zlt_Qlt. lia.
Qed.

Lemma tagKeys_normal (rows : list MetricRow) (k : string) :
  In k (JsMap.keys (hashtagStats (aggregate rows))) <->
  k <> EmptyString /\ In k (allTags rows).
Proof.
  rewrite keys_hashtagStats, In_distinct, filter_In.
  rewrite negb_true_iff.
  destruct (JsString.isEmpty k) eqn:E.
  - apply isEmpty_true in E. split; [intros [_ H]; discriminate|].
    intros [H _]. contradiction.
  - split; intros [H1 H2]; split; try assumption; try reflexivity.
    intro Hk. subst k. discriminate.
Qed.

Lemma allTags_normal (rows : list MetricRow) (k : string) :
  In k (allTags rows) -> exists h, k = normalizeTag h.
Proof.
  unfold allTags. rewrite in_flat_map. intros [r [_ H]].
  apply in_map_iff in H. destruct H as [h [E _]]. exists h. auto.
Qed.

Lemma topHashtags_keys (rows : list MetricRow) (t : string) :
  In t (topHashtags (aggregate rows)) ->
  In t (JsMap.keys (hashtagStats (aggregate rows))).
Proof.
  intro H. apply topN_incl in H.
  unfold tagRates, JsMap.entries in H. rewrite map_map in H. exact H.
Qed.

(** C3. [topHashtags] is the first 15 tags of the ranking of the hashtag
    buckets by [safeRate(totalViews, uses)], descending, its tags being
    normalized keys without number sign; [hashtagLeaders] is the first 20
    entries of the ranking of the same buckets by their total views,
    descending; the two orders can differ on the same input. *)
Theorem hashtag_rankings :
  forall rows : list MetricRow,
    (exists ranked : list (string * Q),
       rankedDesc snd (tagRates (aggregate rows)) ranked /\
       (forall other,
          rankedDesc snd (tagRates (aggregate rows)) other ->
          other = ranked) /\
       topHashtags (aggregate rows) = map fst (firstn 15 ranked)) /\
    (List.length (topHashtags (aggregate rows)) <= 15)%nat /\
    (forall t, In t (topHashtags (aggregate rows)) ->
       noHashOrSpace t = true /\ t <> EmptyString /\
       exists h, t = normalizeTag h) /\
    (exists byViews : list (string * TagStat),
       rankedDesc (fun e => inject_Z (s_views (snd e)))
         (hashtagStats (aggregate rows)) byViews /\
       hashtagLeaders (aggregate rows) = firstn 20 byViews) /\
    (List.length (hashtagLeaders (aggregate rows)) <= 20)%nat /\
    tagRates (aggregate rows) =
      map (fun e => (fst e,
                     safeRate (inject_Z (s_views (snd e)))
                       (inject_Z (s_uses (snd e)))))
        (hashtagStats (aggregate rows)) /\
    (forall k v, In (k, v) (hashtagStats (aggregate rows)) ->
       v = mkTagStat (sumBy views (tagUses k rows))
             (count (tagUses k rows))) /\
    (exists rows' : list MetricRow,
       topHashtags (aggregate rows') <>
       map fst (hashtagLeaders (aggregate rows'))).
Proof.
  intro rows.
  split; [apply topN_ranked|].
  split; [unfold topHashtags; rewrite length_topN; apply Nat.le_min_l|].
  split.
  { intros t H. apply topHashtags_keys, tagKeys_normal in H.
    destruct H as [Hne H]. apply allTags_normal in H.
    destruct H as [h E]. subst t.
    split; [apply noHash_normalizeTag|]. split; [exact Hne|].
    exists h. reflexivity. }
  split.
  { exists (JsArray.sort
              (fun x y => inject_Z (s_views (snd y) - s_views (snd x)))
              (JsMap.entries (hashtagStats (aggregate rows)))).
    split; [|reflexivity]. apply sort_ranked. exact cmp_views. }
  split.
  { unfold hashtagLeaders, JsArray.sliceTo. rewrite length_firstn.
    apply Nat.le_min_l. }
  split; [reflexivity|].
  split; [intros k v H; apply tag_entry in H; tauto|].
  exists [ mkRow "x" "1" "d" JUndefined None "t"
             (Some [Some "a"; Some "b"]%string)
             10%Z 0%Z 0%Z 0%Z None;
           mkRow "x" "1" "d" JUndefined None "t" (Some [Some "a"]%string)
             1%Z 0%Z 0%Z 0%Z None ].
  vm_compute. discriminate.
Qed.

Section NormalFacts.

Import JsString.












End NormalFacts.



(** ** One turn of the loop *)

Lemma hour_step (a : Aggregates) (r : MetricRow) (h : Num) :
  JsMap.get Num_eq_dec (byHour (step a r)) h =
  if Num_eq_dec (hourOf r) h
  then Some (hourUpd r match JsMap.get Num_eq_dec (byHour a) h with
                       | Some v => v
                       | None => mkHourAgg 0 0
                       end)
  else JsMap.get Num_eq_dec (byHour a) h.
Proof.
  simpl. rewrite addHour_upsert. apply get_upsert.
Qed.

Lemma type_step (a : Aggregates) (r : MetricRow) (t : string) :
  JsMap.get string_dec (byType (step a r)) t =
  if string_dec (typeOf r) t
  then Some (typeUpd r match JsMap.get string_dec (byType a) t with
                       | Some v => v
                       | None => mkTypeAgg 0 0 0 0 0
                       end)
  else JsMap.get string_dec (byType a) t.
Proof.
  simpl. rewrite addType_upsert. apply get_upsert.
Qed.

Lemma fold_accumulate_any (V E : Type) (upd : E -> V -> V) (d : V)
    (l : list E) (o : option V) :
  fold_left (accumulate upd d) l o =
  match l with
  | [] => o
  | _ :: _ =>
      Some (fold_left (fun a e => upd e a) l
              match o with Some a => a | None => d end)
  end.
Proof.
  destruct o as [a|]; [|apply fold_accumulate_None].
  rewrite fold_accumulate. destruct l; reflexivity.
Qed.

Lemma sumBy_constant (A B : Type) (f : A -> Z) (x : A) (l : list B) :
  sumBy f (map (fun _ => x) l) = (count l * f x)%Z.
Proof.
  induction l as [|b l IH]; [reflexivity|].
  simpl map. rewrite sumBy_cons, count_cons, IH. lia.
Qed.

Lemma count_map (A B : Type) (f : A -> B) (l : list A) :
  count (map f l) = count l.
Proof. unfold count. rewrite length_map. reflexivity. Qed.

Lemma count_nonneg (A : Type) (l : list A) : (0 <= count l)%Z.
Proof. unfold count. lia. Qed.

Lemma count_zero (A : Type) (l : list A) : count l = 0%Z <-> l = [].
Proof.
  unfold count. destruct l; simpl; split; intro H;
    try reflexivity; try discriminate; lia.
Qed.

(** The tags of [r] that normalize to [k]. *)
Lemma tags_step (a : Aggregates) (r : MetricRow) (k : string) :
  k <> EmptyString ->
  JsMap.get string_dec (hashtagStats (step a r)) k =
  match filter (fun h => String.eqb (normalizeTag h) k) (tagsOf r) with
  | [] => JsMap.get string_dec (hashtagStats a) k
  | occ =>
      let old := match JsMap.get string_dec (hashtagStats a) k with
                 | Some v => v
                 | None => mkTagStat 0 0
                 end in
      Some (mkTagStat (s_views old + count occ * views r)
              (s_uses old + count occ))
  end.
Proof.
  intro Hk. simpl hashtagStats.
  assert (F : addTags (hashtagStats a) r =
              fold_left (upsert string_dec tagKey tagUpd (mkTagStat 0 0))
                (filter (fun e => negb (JsString.isEmpty (tagKey e)))
                   (tagEvents [r]))
                (hashtagStats a)).
  { rewrite <- fold_skip.
    change (fold_left addTags [r] (hashtagStats a) =
            fold_left (fun m e => addTag (fst e) m (snd e)) (tagEvents [r])
              (hashtagStats a)).
    apply fold_addTags. }
  rewrite F, get_fold_upsert, filter_filter.
  rewrite (filter_ext
             (fun x => negb (JsString.isEmpty (tagKey x)) &&
                       (if string_dec (tagKey x) k then true else false))
             (fun e => if string_dec (tagKey e) k then true else false)).
  - rewrite fold_accumulate_any.
    set (es := filter
                 (fun e => if string_dec (tagKey e) k then true else false)
                 (tagEvents [r])).
    set (occ := filter (fun h => String.eqb (normalizeTag h) k) (tagsOf r)).
    assert (U : map fst es = map (fun _ => r) occ).
    { subst es occ. rewrite tagUses_events. unfold tagUses. simpl.
      apply app_nil_r. }
    destruct es as [|e es].
    + destruct occ; [reflexivity|discriminate].
    + rewrite fold_tagUpd, U.
      destruct occ as [|h occ]; [discriminate|].
      rewrite sumBy_constant, count_map. reflexivity.
  - intro e. destruct (string_dec (tagKey e) k) as [E|N].
    + rewrite E. destruct (JsString.isEmpty k) eqn:I; [|reflexivity].
      apply isEmpty_true in I. contradiction.
    + apply andb_false_r.
Qed.

Lemma hourOf_number (r : MetricRow) (n : Z) :
  hour r = JNumber n -> hourOf r = Int (Z.max 0 (Z.min 23 n)).
Proof.
  intro H. unfold hourOf, JsValue.orElse. rewrite H. simpl.
  destruct (Z.eqb_spec n 0) as [E|E]; [subst n|]; reflexivity.
Qed.

Lemma hourOf_falsy (r : MetricRow) :
  JsValue.truthy (hour r) = false -> hourOf r = Int 0.
Proof.
  intro H. unfold hourOf, JsValue.orElse. rewrite H. reflexivity.
Qed.




Lemma tags_step_empty (a : Aggregates) (r : MetricRow) :
  JsMap.get string_dec (hashtagStats (step a r)) EmptyString =
  JsMap.get string_dec (hashtagStats a) EmptyString.
Proof.
  cbn [step hashtagStats]. unfold addTags.
  generalize (hashtagStats a). induction (tagsOf r) as [|h l IH]; intro m;
    [reflexivity|].
  cbn [fold_left]. rewrite IH. unfold addTag.
  destruct (JsString.isEmpty (normalizeTag h)) eqn:E; [reflexivity|].
  rewrite get_set.
  destruct (string_dec (normalizeTag h) EmptyString) as [N|N]; [|reflexivity].
  rewrite N in E. discriminate.
Qed.

(** The tags of the rows that have a key, row by row. *)
Lemma keyed_events (rows : list MetricRow) :
  filter (fun e => negb (JsString.isEmpty (tagKey e))) (tagEvents rows) =
  flat_map
    (fun x =>
       map (pair x)
         (filter (fun h => negb (JsString.isEmpty (normalizeTag h)))
            match hashtags x with
            | Some tags => tags
            | None => []
            end))
    rows.
Proof.
  unfold tagEvents.
  induction rows as [|r rows IH]; [reflexivity|].
  cbn [flat_map]. rewrite filter_app, IH. f_equal.
  unfold tagsOf. generalize (match hashtags r with
                             | Some l => l
                             | None => []
                             end).
  intro l. induction l as [|h l IHl]; [reflexivity|].
  cbn [map filter]. unfold tagKey at 1. cbn [snd].
  destruct (JsString.isEmpty (normalizeTag h)); cbn [negb map];
    rewrite IHl; reflexivity.
Qed.

Lemma keyed_events_count (rows : list MetricRow) :
  count (filter (fun e => negb (JsString.isEmpty (tagKey e)))
           (tagEvents rows)) =
  count
    (flat_map
       (fun x =>
          filter (fun h => negb (JsString.isEmpty (normalizeTag h)))
            match hashtags x with
            | Some tags => tags
            | None => []
            end)
       rows).
Proof.
  rewrite keyed_events.
  induction rows as [|r rows IH]; [reflexivity|].
  cbn [flat_map]. rewrite !count_app, IH, count_map. reflexivity.
Qed.

Lemma keyed_events_views (rows : list MetricRow) :
  sumBy (fun e => views (fst e))
    (filter (fun e => negb (JsString.isEmpty (tagKey e))) (tagEvents rows)) =
  sumBy
    (fun x =>
       (views x *
        count
          (filter (fun h => negb (JsString.isEmpty (normalizeTag h)))
             match hashtags x with
             | Some tags => tags
             | None => []
             end))%Z)
    rows.
Proof.
  rewrite keyed_events.
  induction rows as [|r rows IH]; [reflexivity|].
  cbn [flat_map]. rewrite sumBy_app, sumBy_cons, IH. f_equal.
  generalize (filter (fun h => negb (JsString.isEmpty (normalizeTag h)))
                match hashtags r with
                | Some tags => tags
                | None => []
                end).
  intro l. induction l as [|h l IHl]; [rewrite Z.mul_0_r; reflexivity|].
  cbn [map]. rewrite sumBy_cons, count_cons, IHl. cbn [fst]. lia.
Qed.

(** C8. A row adds its views and one post to the bucket of its hour and to
    the bucket of its type and to no other hour or type bucket, and one use
    with its views to a hashtag bucket for every tag of its [hashtags] with
    that key, a tag that occurs twice counting twice; a row without
    [hashtags] touches no hashtag bucket.  So the posts of the hour buckets
    and of the type buckets both add up to the number of rows, and their
    views to the total views, and the uses of the hashtag buckets to the
    number of tags of all rows that have a key. *)
Theorem row_contributions :
  forall (rows : list MetricRow) (a : Aggregates) (r : MetricRow),
    (forall h,
       JsMap.get Num_eq_dec (byHour (step a r)) h =
       if Num_eq_dec (hourOf r) h
       then Some (let old := match JsMap.get Num_eq_dec (byHour a) h with
                             | Some v => v
                             | None => mkHourAgg 0 0
                             end in
                  mkHourAgg (h_views old + views r) (h_posts old + 1))
       else JsMap.get Num_eq_dec (byHour a) h) /\
    (forall t,
       JsMap.get string_dec (byType (step a r)) t =
       if string_dec (typeOf r) t
       then Some (let old := match JsMap.get string_dec (byType a) t with
                             | Some v => v
                             | None => mkTypeAgg 0 0 0 0 0
                             end in
                  mkTypeAgg (t_views old + views r) (t_posts old + 1)
                    (t_likes old + likes r) (t_comments old + comments r)
                    (t_shares old + shares r))
       else JsMap.get string_dec (byType a) t) /\
    (forall k, k <> EmptyString ->
       JsMap.get string_dec (hashtagStats (step a r)) k =
       match
         filter (fun h => String.eqb (normalizeTag h) k)
           match hashtags r with
           | Some tags => tags
           | None => []
           end
       with
       | [] => JsMap.get string_dec (hashtagStats a) k
       | occ =>
           let old := match JsMap.get string_dec (hashtagStats a) k with
                      | Some v => v
                      | None => mkTagStat 0 0
                      end in
           Some (mkTagStat (s_views old + count occ * views r)
                   (s_uses old + count occ))
       end) /\
    JsMap.get string_dec (hashtagStats (step a r)) EmptyString =
      JsMap.get string_dec (hashtagStats a) EmptyString /\
    (hashtags r = None -> hashtagStats (step a r) = hashtagStats a) /\
    sumBy (fun e => h_posts (snd e)) (byHour (aggregate rows)) = count rows /\
    sumBy (fun e => t_posts (snd e)) (byType (aggregate rows)) = count rows /\
    sumBy (fun e => h_views (snd e)) (byHour (aggregate rows)) =
      sumBy views rows /\
    sumBy (fun e => t_views (snd e)) (byType (aggregate rows)) =
      sumBy views rows /\
    sumBy (fun e => s_uses (snd e)) (hashtagStats (aggregate rows)) =
      count
        (flat_map
           (fun x =>
              filter (fun h => negb (JsString.isEmpty (normalizeTag h)))
                match hashtags x with
                | Some tags => tags
                | None => []
                end)
           rows) /\
    sumBy (fun e => s_views (snd e)) (hashtagStats (aggregate rows)) =
      sumBy
        (fun x =>
           (views x *
            count
              (filter (fun h => negb (JsString.isEmpty (normalizeTag h)))
                 match hashtags x with
                 | Some tags => tags
                 | None => []
                 end))%Z)
        rows /\
    hashtagStats
      (aggregate
         [mkRow "TikTok" "tt1" "2024-11-01" (JNumber 18) (Some "short")
            "AI Tools" (Some [Some "ai"; Some "#AI"; None; Some "x"; Some "#"])
            10%Z 0%Z 0%Z 0%Z None;
          mkRow "TikTok" "tt2" "2024-11-01" (JNumber 18) (Some "short")
            "AI Tools" None 5%Z 0%Z 0%Z 0%Z None;
          mkRow "TikTok" "tt3" "2024-11-01" (JNumber 18) (Some "short")
            "AI Tools" (Some [Some " Ai "]) 7%Z 0%Z 0%Z 0%Z None]%string) =
      [("ai"%string, mkTagStat 27 3); ("x"%string, mkTagStat 10 1)].
Proof.
  intros rows a r.
  split; [intro h; apply hour_step|].
  split; [intro t; apply type_step|].
  split; [intros k Hk; apply tags_step; exact Hk|].
  split; [apply tags_step_empty|].
  split.
  { intro H. cbn [step hashtagStats]. unfold addTags, tagsOf. rewrite H.
    reflexivity. }
  rewrite byHour_aggregate, byType_aggregate, hashtagStats_aggregate.
  split.
  { rewrite (sumBy_fold_upsert Num_eq_dec hourOf hourUpd (mkHourAgg 0 0)
               h_posts (fun _ => 1%Z)); [|reflexivity|reflexivity].
    simpl. apply sumBy_one. }
  split.
  { rewrite (sumBy_fold_upsert string_dec typeOf typeUpd
               (mkTypeAgg 0 0 0 0 0) t_posts (fun _ => 1%Z));
      [|reflexivity|reflexivity].
    simpl. apply sumBy_one. }
  split.
  { rewrite (sumBy_fold_upsert Num_eq_dec hourOf hourUpd (mkHourAgg 0 0)
               h_views views); [|reflexivity|reflexivity].
    reflexivity. }
  split.
  { rewrite (sumBy_fold_upsert string_dec typeOf typeUpd
               (mkTypeAgg 0 0 0 0 0) t_views views);
      [|reflexivity|reflexivity].
    reflexivity. }
  split.
  { rewrite (sumBy_fold_upsert string_dec tagKey tagUpd (mkTagStat 0 0)
               s_uses (fun _ => 1%Z)); [|reflexivity|reflexivity].
    simpl. rewrite sumBy_one. apply keyed_events_count. }
  split.
  { rewrite (sumBy_fold_upsert string_dec tagKey tagUpd (mkTagStat 0 0)
               s_views (fun e => views (fst e))); [|reflexivity|reflexivity].
    apply keyed_events_views. }
  vm_compute. reflexivity.
Qed.

(** ** The action plan *)

Lemma sliceLast_rev (A : Type) (l : list A) :
  JsArray.sliceLast l = match rev l with [] => [] | x :: _ => [x] end.
Proof.
  unfold JsArray.sliceLast.
  destruct (rev l) as [|x t] eqn:E.
  - apply (f_equal (@rev A)) in E. rewrite rev_involutive in E.
    subst l. reflexivity.
  - apply (f_equal (@rev A)) in E. rewrite rev_involutive in E.
    subst l. simpl rev. rewrite length_app. simpl List.length.
    replace (List.length (rev t) + 1 - 1)%nat with (List.length (rev t))
      by lia.
    rewrite skipn_app, skipn_all, Nat.sub_diag. reflexivity.
Qed.

Lemma actions_shape (n : nat) (a : Aggregates) :
  actions n a =
  match typeScores a with e :: _ => [topLine (type e)] | [] => [] end ++
  match bestHours a with _ :: _ => [hoursLine (bestHours a)] | [] => [] end ++
  match topHashtags a with
  | _ :: _ => [tagsLine (topHashtags a)]
  | [] => []
  end ++
  match rev (typeScores a) with e :: _ => [lowLine (type e)] | [] => [] end ++
  [cadenceLine (plannedCadence n)].
Proof.
  unfold actions. rewrite sliceLast_rev.
  assert (P : forall (B : Type) (c : list B) line acts,
             pushIf c line acts =
             acts ++ match c with _ :: _ => [line] | [] => [] end).
  { intros B c line acts. destruct c; simpl; [rewrite app_nil_r|];
      reflexivity. }
  rewrite !P. simpl app at 1.
  destruct (typeScores a) as [|e ts]; destruct (bestHours a);
    destruct (topHashtags a); destruct (rev _) as [|x t];
    simpl; reflexivity.
Qed.

Lemma distinct_nonempty (K : Type)
    (dec : forall x y : K, {x = y} + {x <> y}) (l : list K) :
  l <> [] -> distinct dec l <> [].
Proof. destruct l; [contradiction|discriminate]. Qed.

Lemma length_typeScores (rows : list MetricRow) :
  List.length (typeScores (aggregate rows)) =
  List.length (distinct string_dec (map typeOf rows)).
Proof.
  unfold typeScores.
  rewrite (length_sort (fun x y => score y - score x)), length_map.
  rewrite <- keys_byType. unfold JsMap.keys, JsMap.entries.
  rewrite length_map. reflexivity.
Qed.

Lemma typeScores_nonempty (rows : list MetricRow) :
  rows <> [] -> typeScores (aggregate rows) <> [].
Proof.
  intros H E. apply (f_equal (@List.length _)) in E.
  rewrite length_typeScores in E.
  destruct rows as [|r rows]; [contradiction|discriminate].
Qed.

Lemma bestHours_nonempty (rows : list MetricRow) :
  rows <> [] -> bestHours (aggregate rows) <> [].
Proof.
  intros H E. apply (f_equal (@List.length _)) in E.
  unfold bestHours in E. rewrite length_topN in E.
  unfold hourRates, JsMap.entries in E. rewrite length_map in E.
  rewrite <- (length_map fst) in E.
  change (map fst (byHour (aggregate rows)))
    with (JsMap.keys (byHour (aggregate rows))) in E.
  rewrite keys_byHour in E.
  destruct rows as [|r rows]; [contradiction|simpl in E; lia].
Qed.

Lemma round_cadence (n : nat) :
  JsNum.round (inject_Z (Z.of_nat n) * (6 # 10)) =
  ((6 * Z.of_nat n + 5) / 10)%Z.
Proof.
  generalize (Z.of_nat n). intro z.
  change (((z * 6 * 2 + 1 * 10) / 20)%Z = ((6 * z + 5) / 10)%Z).
  replace (z * 6 * 2 + 1 * 10)%Z with (2 * (6 * z + 5))%Z by lia.
  replace 20%Z with (2 * 10)%Z by reflexivity.
  apply Z.div_mul_cancel_l; lia.
Qed.

(** The product in doubles rounds to the same integer as the exact
    product, up to the clamp. *)
Lemma cadence_double (n : nat) :
  Z.min 14
    (Z.max 5 (JsNum.round (Double.mul (inject_Z (Z.of_nat n)) d06))) =
  Z.min 14 (Z.max 5 (JsNum.round (inject_Z (Z.of_nat n) * (6 # 10)))).
Proof.
  destruct (le_lt_dec n 23) as [L|L].
  - do 24 (destruct n as [|n]; [vm_compute; reflexivity|]). lia.
  - assert (A : (14 <=
                 JsNum.round (Double.mul (inject_Z (Z.of_nat n)) d06))%Z).
    { unfold JsNum.round, Double.mul.
      assert (M : Double.round (24 * d06) <=
                  Double.round (inject_Z (Z.of_nat n) * d06)).
      { apply round_mono. apply Qmult_le_compat_r.
        - change 24 with (inject_Z 24). rewrite <- Zle_Qle. lia.
        - apply Qle_bool_imp_le. vm_compute. reflexivity. }
      assert (V : 27 # 2 <= Double.round (24 * d06))
        by (apply Qle_bool_imp_le; vm_compute; reflexivity).
      rewrite <- (Qfloor_Z 14). apply Qfloor_resp_le.
      change (inject_Z 14) with (14 # 1). lra. }
    assert (B : (14 <= JsNum.round (inject_Z (Z.of_nat n) * (6 # 10)))%Z).
    { rewrite round_cadence. apply Z.div_le_lower_bound; lia. }
    lia.
Qed.

(** C4. The action plan is, in this order, the line [Double down on T
    content (top format).] for the type [T] of the first entry of the score
    ranking when there is one, the line [Post at H:00, ... local time.]
    over the best hours when there are any, the line [Use 1-3 of: #t ... .]
    over the first 5 of the top hashtags when there are any, the line
    [De-prioritize L until performance improves.] for the type [L] of the
    last entry of the score ranking when there is one, and always the line
    [Publish ~N posts next 7 days with 70/20/10: top/experimental/brand.]
    with [N = plannedCadence = clamp(round(rowCount * 0.6), 5, 14)]: 5 for
    1 row, 6 for 10 rows and 14 for 100 rows.  For a working set that is
    not empty only the hashtag line can be missing. *)
Theorem actions_plan :
  forall (rows : list MetricRow) (n : nat) (a : Aggregates),
    actions n a =
      match typeScores a with
      | e :: _ =>
          [("Double down on " ++ type e ++ " content (top format).")%string]
      | [] => []
      end ++
      match bestHours a with
      | _ :: _ =>
          [("Post at "
            ++ JsString.join ", "
                 (map (fun h => match h with
                                | Int z => JsString.ofZ z
                                | NaN => "NaN"
                                end ++ ":00") (bestHours a))
            ++ " local time.")%string]
      | [] => []
      end ++
      match topHashtags a with
      | _ :: _ =>
          [("Use 1-3 of: "
            ++ JsString.join " "
                 (map (fun h => "#" ++ h) (firstn 5 (topHashtags a)))
            ++ ".")%string]
      | [] => []
      end ++
      match rev (typeScores a) with
      | e :: _ =>
          [("De-prioritize " ++ type e
            ++ " until performance improves.")%string]
      | [] => []
      end ++
      [("Publish ~" ++ JsString.ofZ (plannedCadence n)
        ++ " posts next 7 days with 70/20/10: top/experimental/brand.")%string]
    /\
    (rows <> [] ->
     exists top low rest,
       typeScores (aggregate rows) = top :: rest /\
       last (typeScores (aggregate rows)) top = low /\
       bestHours (aggregate rows) <> [] /\
       actions (List.length rows) (aggregate rows) =
         [("Double down on " ++ type top ++ " content (top format).")%string;
          ("Post at "
           ++ JsString.join ", "
                (map (fun h => match h with
                               | Int z => JsString.ofZ z
                               | NaN => "NaN"
                               end ++ ":00") (bestHours (aggregate rows)))
           ++ " local time.")%string] ++
         match topHashtags (aggregate rows) with
         | _ :: _ =>
             [("Use 1-3 of: "
               ++ JsString.join " "
                    (map (fun h => "#" ++ h)
                       (firstn 5 (topHashtags (aggregate rows))))
               ++ ".")%string]
         | [] => []
         end ++
         [("De-prioritize " ++ type low
           ++ " until performance improves.")%string;
          ("Publish ~" ++ JsString.ofZ (plannedCadence (List.length rows))
           ++ " posts next 7 days with 70/20/10: top/experimental/brand."
          )%string])
    /\
    actions (List.length sampleRows) (aggregate sampleRows) =
      ["Double down on short content (top format).";
       "Post at 18:00, 12:00, 20:00 local time.";
       "Use 1-3 of: #productivity #ai #editing #capcut #desk.";
       "De-prioritize long until performance improves.";
       "Publish ~5 posts next 7 days with 70/20/10: top/experimental/brand."
      ]%string
    /\
    actions 100 (aggregate textHourRows) =
      ["Double down on short content (top format).";
       "Post at NaN:00 local time.";
       "De-prioritize short until performance improves.";
       "Publish ~14 posts next 7 days with 70/20/10: top/experimental/brand."
      ]%string
    /\
    plannedCadence n =
      Z.max 5 (Z.min 14 (JsNum.round (inject_Z (Z.of_nat n) * (6 # 10)))) /\
    plannedCadence n = Z.max 5 (Z.min 14 ((6 * Z.of_nat n + 5) / 10)) /\
    (5 <= plannedCadence n <= 14)%Z /\
    plannedCadence 1 = 5%Z /\
    plannedCadence 10 = 6%Z /\
    plannedCadence 100 = 14%Z.
Proof.
  intros rows n a.
  split; [apply actions_shape|]. split.
  { intro H. rewrite actions_shape.
    pose proof (typeScores_nonempty H) as Ht.
    pose proof (bestHours_nonempty H) as Hb.
    destruct (typeScores (aggregate rows)) as [|top rest] eqn:Et;
      [contradiction|].
    exists top, (last (top :: rest) top), rest.
    split; [reflexivity|]. split; [reflexivity|]. split; [exact Hb|].
    destruct (bestHours (aggregate rows)) as [|h hs] eqn:Eb;
      [contradiction|].
    assert (R : exists t, rev (top :: rest) = last (top :: rest) top :: t).
    { destruct (exists_last (l := top :: rest)) as [l' [x E]];
        [discriminate|].
      rewrite E, last_last, rev_app_distr. simpl. eauto. }
    destruct R as [t R]. rewrite R.
    destruct (topHashtags (aggregate rows)); reflexivity. }
  split; [vm_compute; reflexivity|].
  split; [vm_compute; reflexivity|].
  rewrite <- round_cadence. unfold plannedCadence.
  rewrite cadence_double.
  split; [lia|]. split; [lia|]. split; [lia|].
  repeat split; reflexivity.
Qed.

(** C10. When every row of the working set has the content type [T], the
    action plan has the top-format line for [T] and the de-prioritize line
    for the same [T]. *)
Theorem single_type_lines :
  forall (rows : list MetricRow) (T : string),
    rows <> [] ->
    (forall r, In r rows -> typeOf r = T) ->
    exists acts : list string,
      r_actions (analysis rows) = Some acts /\
      In ("Double down on " ++ T ++ " content (top format).")%string acts /\
      In ("De-prioritize " ++ T ++ " until performance improves.")%string
        acts /\
      map type (typeScores (aggregate rows)) = [T].
Proof.
  intros rows T Hne Hall.
  assert (D : distinct string_dec (map typeOf rows) = [T]).
  { apply distinct_constant.
    - destruct rows; [contradiction|discriminate].
    - intros y Hy. apply in_map_iff in Hy.
      destruct Hy as [r [E I]]. subst y. apply Hall. exact I. }
  assert (M : map type (typeScores (aggregate rows)) = [T]).
  { pose proof (typeScores_types rows) as P. rewrite D in P.
    apply Permutation_sym, Permutation_length_1_inv in P. exact P. }
  exists (actions (List.length rows) (aggregate rows)).
  split; [reflexivity|].
  rewrite actions_shape.
  destruct (typeScores (aggregate rows)) as [|e [|e' ts]]; try discriminate.
  simpl in M. inversion M as [Ht]. simpl rev.
  rewrite !in_app_iff.
  split; [left; left; reflexivity|]. split; [|reflexivity].
  right. right. right. left. left. reflexivity.
Qed.

(** ** Validation and the responses *)







(** *** The loop and its throws *)

Lemma readItems_json (l : list (option string)) :
  readItems (map jsonItem l) = inl l.
Proof.
  induction l as [|h l IH]; [reflexivity|].
  simpl. rewrite IH. destruct h as [s|]; reflexivity.
Qed.

Lemma readTags_json (t : option (list (option string))) :
  readTags (jsonTags t) = inl t.
Proof.
  destruct t as [l|]; [|reflexivity].
  unfold readTags. simpl. rewrite readItems_json. reflexivity.
Qed.

Lemma readItems_strings (l : list string) :
  readItems (map JString l) = inl (map Some l).
Proof.
  induction l as [|h l IH]; [reflexivity|].
  simpl. rewrite IH. reflexivity.
Qed.

Lemma readTags_strings (l : list string) :
  readTags (JArray (map JString l)) = inl (Some (map Some l)).
Proof. unfold readTags. simpl. rewrite readItems_strings. reflexivity. Qed.

Lemma read_unread (r : MetricRow) : read (unread r) = inl r.
Proof.
  unfold read, unread. cbn [hashtags]. rewrite readTags_json.
  destruct r; reflexivity.
Qed.

Lemma readRows_unread (rows : list MetricRow) :
  readRows (map unread rows) = inl rows.
Proof.
  induction rows as [|r rows IH]; [reflexivity|].
  simpl. rewrite read_unread, IH. reflexivity.
Qed.

Lemma length_readRows (kept : list KeptRow) (rows : list MetricRow) :
  readRows kept = inl rows -> List.length rows = List.length kept.
Proof.
  revert rows. induction kept as [|r kept IH]; intros rows H; simpl in H.
  - inversion H. reflexivity.
  - destruct (read r) as [x|m]; [|discriminate].
    destruct (readRows kept) as [xs|m]; [|discriminate].
    inversion H. simpl. f_equal. apply IH. reflexivity.
Qed.

(** The loop is the fold of [step] over the rows as it reads them, up to
    the first row that it cannot read. *)
Lemma loop_readRows (kept : list KeptRow) (a : Aggregates) :
  loop a kept =
  match readRows kept with
  | inl rows => inl (fold_left step rows a)
  | inr m => inr m
  end.
Proof.
  revert a. induction kept as [|r kept IH]; intro a; [reflexivity|].
  simpl. unfold turn. destruct (read r) as [x|m]; [|reflexivity].
  rewrite IH. destruct (readRows kept); reflexivity.
Qed.


Lemma POST_array (engine : Engine) (l : list (option JsonRow)) :
  POST engine (BodyParsed (RowsArray l)) =
  match filterRows l with
  | [] => errorResponse "No data provided" 400
  | kept =>
      match readRows kept with
      | inl rows => analysis rows
      | inr m =>
          errorResponse
            (strOr (message (typeError engine m)) "Unexpected error") 500
      end
  end.
Proof.
  unfold POST, tryBlock. destruct (filterRows l) as [|r kept] eqn:E;
    [reflexivity|].
  rewrite loop_readRows.
  destruct (readRows (r :: kept)) as [rows|m] eqn:R; [|reflexivity].
  unfold analysis, aggregate. rewrite (length_readRows _ R). reflexivity.
Qed.


(** A working set of one row of the type [short]. *)
Lemma single_type_lines_witness :
  exists acts : list string,
    r_actions
      (analysis
         [mkRow "TikTok" "tt1" "2024-11-01" (JNumber 18) (Some "short")
            "AI Tools" (Some [Some "ai"; Some "productivity"])
            12000%Z 1300%Z 120%Z 80%Z (Some 19%Z)]%string) = Some acts /\
    In "Double down on short content (top format)."%string acts /\
    In "De-prioritize short until performance improves."%string acts /\
    map type
      (typeScores
         (aggregate
            [mkRow "TikTok" "tt1" "2024-11-01" (JNumber 18) (Some "short")
               "AI Tools" (Some [Some "ai"; Some "productivity"])
               12000%Z 1300%Z 120%Z 80%Z (Some 19%Z)]%string)) =
    ["short"%string].
Proof.
  apply (@single_type_lines
           [mkRow "TikTok" "tt1" "2024-11-01" (JNumber 18) (Some "short")
              "AI Tools" (Some [Some "ai"; Some "productivity"])
              12000%Z 1300%Z 120%Z 80%Z (Some 19%Z)]%string
           "short"%string).
  - discriminate.
  - intros r [H|[]]. subst r. reflexivity.
Defined.

(** ** The examples of the specification *)

(** Two rows of the type [short], at 18 and at 12 hours: the map of the
    hours holds 18 first, the object of the diagnostics lists 12 first. *)
Example end_to_end :
  let rows : list MetricRow :=
    [ mkRow "TikTok" "tt1" "2024-11-01" (JNumber 18) (Some "short")
        "AI Tools" (Some [Some "ai"; Some "productivity"])
        12000%Z 1300%Z 120%Z 80%Z None;
      mkRow "TikTok" "tt2" "2024-11-03" (JNumber 12) (Some "short")
        "Editing Hack" (Some [Some "editing"])
        6000%Z 430%Z 32%Z 20%Z None ]%string in
  bestHours (aggregate rows) = [Int 18; Int 12] /\
  map type (typeScores (aggregate rows)) = ["short"%string] /\
  map (fun e => (fst e, Qred (snd e))) (tagRates (aggregate rows)) =
    [("ai"%string, 12000); ("productivity"%string, 12000);
     ("editing"%string, 6000)] /\
  topHashtags (aggregate rows) = ["ai"; "productivity"; "editing"]%string /\
  actions 2 (aggregate rows) =
    [ "Double down on short content (top format).";
      "Post at 18:00, 12:00 local time.";
      "Use 1-3 of: #ai #productivity #editing.";
      "De-prioritize short until performance improves.";
      "Publish ~5 posts next 7 days with 70/20/10: top/experimental/brand."
    ]%string /\
  JsMap.keys (byHour (aggregate rows)) = [Int 18; Int 12] /\
  option_map (fun d => map fst (d_byHour d))
    (r_diagnostics (analysis rows)) = Some ["12"; "18"]%string.
Proof. vm_compute. repeat split. Qed.

(** An empty list of rows, a body that does not parse, rows that are no
    array, a list in which only one row has a numeric [views], and a row
    whose hashtags are the number 5. *)
Example responses :
  POST (engineWith "not iterable") (BodyParsed (RowsArray [])) =
    mkResponse 400 (Some "No data provided"%string) None None None None /\
  POST (engineWith "not iterable")
    (BodyRejected (mkExn (Some "Unexpected end of JSON input"%string))) =
    mkResponse 500 (Some "Unexpected end of JSON input"%string)
      None None None None /\
  POST (engineWith "not iterable") (BodyRejected (mkExn None)) =
    mkResponse 500 (Some "Unexpected error"%string) None None None None /\
  POST (engineWith "not a function") (BodyParsed RowsNotArray) =
    mkResponse 500 (Some "not a function"%string) None None None None /\
  r_bestHours
    (POST (engineWith "not iterable")
       (BodyParsed (RowsArray
          [ None;
            Some (mkRow "x" "a" "d" (JNumber 7) None "t" JUndefined
                    (JString "12") 0%Z 0%Z 0%Z None);
            Some (mkRow "x" "b" "d" (JNumber 30) None "t" JUndefined
                    (JNumber 12) 0%Z 0%Z 0%Z None) ]%string))) =
    Some [Int 23] /\
  POST (engineWith "not iterable")
    (BodyParsed (RowsArray
       [ Some (mkRow "x" "a" "d" (JNumber 7) None "t" (JArray [JString "ai"])
                 (JNumber 12) 0%Z 0%Z 0%Z None);
         Some (mkRow "x" "b" "d" (JNumber 9) None "t" (JNumber 5)
                 (JNumber 12) 0%Z 0%Z 0%Z None) ]%string)) =
    mkResponse 500 (Some "not iterable"%string) None None None None /\
  POST (mkEngine (fun _ => mkExn (Some EmptyString)))
    (BodyParsed (RowsArray
       [ Some (mkRow "x" "a" "d" (JNumber 7) None "t" (JArray [JNumber 7])
                 (JNumber 12) 0%Z 0%Z 0%Z None) ]%string)) =
    mkResponse 500 (Some "Unexpected error"%string) None None None None.
Proof. vm_compute. repeat split. Qed.

(** * Further properties of the route *)

(** ** [topN] *)

Lemma sorted_app_le (A : Type) (R : A -> A -> Prop) (l1 l2 : list A) :
  StronglySorted R (l1 ++ l2) ->
  forall a b, In a l1 -> In b l2 -> R a b.
Proof.
  induction l1 as [|x l1 IH]; simpl; intros S a b Ha Hb; [contradiction|].
  inversion S as [|? ? S' F]. subst.
  destruct Ha as [Ha|Ha].
  - subst a. rewrite Forall_forall in F. apply F.
    apply in_or_app. right. exact Hb.
  - apply IH; assumption.
Qed.

Lemma NoDup_firstn (A : Type) (n : nat) (l : list A) :
  NoDup l -> NoDup (firstn n l).
Proof.
  intro H. rewrite <- (firstn_skipn n l) in H.
  apply NoDup_app_remove_r in H. exact H.
Qed.

(** X1. [topN] keeps [min n (length entries)] entries, and every entry it
    leaves out has a value that is at most the value of every entry it
    keeps. *)
Theorem topN_selects :
  forall (T : Type) (entries : list (T * Q)) (n : nat),
  exists top rest : list (T * Q),
    Permutation entries (top ++ rest) /\
    topN entries n = map fst top /\
    List.length top = Nat.min n (List.length entries) /\
    (forall a b, In a top -> In b rest -> snd b <= snd a) /\
    (NoDup (map fst entries) -> NoDup (topN entries n)).
Proof.
  intros T entries n.
  pose proof (sort_ranked snd (fun a b : T * Q => snd b - snd a)
                (@cmp_snd T) entries) as [P [S _]].
  set (ranked := JsArray.sort (fun a b : T * Q => snd b - snd a) entries)
    in *.
  exists (firstn n ranked), (skipn n ranked).
  rewrite firstn_skipn.
  split; [exact P|]. split; [reflexivity|]. split.
  { rewrite length_firstn, (Permutation_length P). reflexivity. }
  split.
  { rewrite <- (firstn_skipn n ranked) in S.
    intros a b Ha Hb.
    exact (@sorted_app_le _ _ _ _ S a b Ha Hb). }
  intro ND. unfold topN, JsArray.sliceTo. fold ranked.
  rewrite <- firstn_map. apply NoDup_firstn.
  apply (Permutation_NoDup (Permutation_map fst P)). exact ND.
Qed.

(** ** Buckets and rates *)

Lemma count_pos (A : Type) (l : list A) : l <> [] -> (1 <= count l)%Z.
Proof.
  destruct l as [|a l]; [contradiction|]. intros _.
  rewrite count_cons. pose proof (count_nonneg l). lia.
Qed.

Lemma inject_pos (z : Z) : (1 <= z)%Z -> 0 < inject_Z z.
Proof.
  intro H. change 0 with (inject_Z 0). rewrite <- Zlt_Qlt. lia.
Qed.

Lemma safeRate_average (n d : Z) :
  (1 <= d)%Z ->
  exists r : Q,
    JsNum.roundedTo 4 (Double.div (inject_Z n) (inject_Z d)) r /\
    safeRate (inject_Z n) (inject_Z d) = Double.round r.
Proof.
  intro H. eexists. split; [apply value_toFixed_rounded|].
  apply safeRate_pos, inject_pos. exact H.
Qed.

(** X2. Every bucket of the three maps holds at least one post, or one use,
    so that the zero which [safeRate] keeps for a denominator that is not
    positive never shows in the rates of the hours and of the hashtags and
    in the views per post of the types: each is the double nearest to the
    double average rounded to 4 decimal digits. *)
Theorem buckets_hold_rows :
  forall rows : list MetricRow,
    (forall h v, In (h, v) (byHour (aggregate rows)) ->
       (1 <= h_posts v)%Z /\ h_posts v = count (rowsAtHour h rows)) /\
    (forall t v, In (t, v) (byType (aggregate rows)) ->
       (1 <= t_posts v)%Z /\ t_posts v = count (rowsOfType t rows)) /\
    (forall k v, In (k, v) (hashtagStats (aggregate rows)) ->
       (1 <= s_uses v)%Z /\ s_uses v = count (tagUses k rows)) /\
    (forall h q, In (h, q) (hourRates (aggregate rows)) ->
       exists r : Q,
         JsNum.roundedTo 4
           (Double.div (inject_Z (sumBy views (rowsAtHour h rows)))
              (inject_Z (count (rowsAtHour h rows)))) r /\
         q = Double.round r) /\
    (forall k q, In (k, q) (tagRates (aggregate rows)) ->
       exists r : Q,
         JsNum.roundedTo 4
           (Double.div (inject_Z (sumBy views (tagUses k rows)))
              (inject_Z (count (tagUses k rows)))) r /\
         q = Double.round r) /\
    (forall e, In e (typeScores (aggregate rows)) ->
       exists r : Q,
         JsNum.roundedTo 4
           (Double.div (inject_Z (sumBy views (rowsOfType (type e) rows)))
              (inject_Z (count (rowsOfType (type e) rows)))) r /\
         viewPerPost e = Double.round r).
Proof.
  intro rows.
  split.
  { intros h v H. apply hour_entry in H. destruct H as [E N]. subst v.
    split; [apply count_pos; exact N|reflexivity]. }
  split.
  { intros t v H. apply type_entry in H. destruct H as [E N]. subst v.
    split; [apply count_pos; exact N|reflexivity]. }
  split.
  { intros k v H. apply tag_entry in H. destruct H as [E [N _]]. subst v.
    split; [apply count_pos; exact N|reflexivity]. }
  split.
  { intros h q H. unfold hourRates in H. apply in_map_iff in H.
    destruct H as [[h' v] [E I]]. simpl in E. inversion E. subst h' q.
    apply hour_entry in I. destruct I as [I N]. subst v. simpl.
    apply safeRate_average, count_pos. exact N. }
  split.
  { intros k q H. unfold tagRates in H. apply in_map_iff in H.
    destruct H as [[k' v] [E I]]. simpl in E. inversion E. subst k' q.
    apply tag_entry in I. destruct I as [I [N _]]. subst v. simpl.
    apply safeRate_average, count_pos. exact N. }
  intros e H. destruct (typeScores_sorted rows) as [P _].
  apply (Permutation_in _ (Permutation_sym P)) in H.
  apply in_map_iff in H. destruct H as [[t v] [E I]].
  apply type_entry in I. destruct I as [I N]. subst v e. simpl.
  apply safeRate_average, count_pos. exact N.
Qed.

(** ** The lists of the response *)

Lemma hourOf_range (r : MetricRow) :
  (exists n, hour r = JNumber n) \/ hour r = JNull ->
  exists z, hourOf r = Int z /\ (0 <= z <= 23)%Z.
Proof.
  intros [[n H]|H].
  - rewrite (hourOf_number r H). eexists. split; [reflexivity|lia].
  - rewrite hourOf_falsy by (rewrite H; reflexivity).
    exists 0%Z. split; [reflexivity|lia].
Qed.



Lemma keys_tagRates (a : Aggregates) :
  map fst (tagRates a) = JsMap.keys (hashtagStats a).
Proof. unfold tagRates, JsMap.entries. rewrite map_map. reflexivity. Qed.


(** X4. With at most 15 hashtags in the working set, [topHashtags] and the
    keys of [hashtagLeaders] are the same hashtags, all of them, in two
    orders. *)
Theorem few_hashtags_all_listed :
  forall rows : list MetricRow,
    (List.length (hashtagStats (aggregate rows)) <= 15)%nat ->
    Permutation (topHashtags (aggregate rows))
      (JsMap.keys (hashtagStats (aggregate rows))) /\
    Permutation (map fst (hashtagLeaders (aggregate rows)))
      (JsMap.keys (hashtagStats (aggregate rows))) /\
    Permutation (topHashtags (aggregate rows))
      (map fst (hashtagLeaders (aggregate rows))).
Proof.
  intros rows H.
  assert (P1 : Permutation (topHashtags (aggregate rows))
                 (JsMap.keys (hashtagStats (aggregate rows)))).
  { unfold topHashtags, topN, JsArray.sliceTo.
    rewrite firstn_all2.
    - rewrite <- keys_tagRates. apply Permutation_map, Permutation_sym.
      apply sort_perm.
    - rewrite (length_sort (fun a b : string * Q => snd b - snd a)).
      unfold tagRates, JsMap.entries. rewrite length_map. exact H. }
  assert (P2 : Permutation (map fst (hashtagLeaders (aggregate rows)))
                 (JsMap.keys (hashtagStats (aggregate rows)))).
  { unfold hashtagLeaders, JsArray.sliceTo.
    rewrite firstn_all2.
    - apply Permutation_map, Permutation_sym. apply sort_perm.
    - rewrite (length_sort
                 (fun x y : string * TagStat =>
                    inject_Z (s_views (snd y) - s_views (snd x)))).
      unfold JsMap.entries. lia. }
  split; [exact P1|]. split; [exact P2|].
  eapply perm_trans; [exact P1|apply Permutation_sym; exact P2].
Qed.

(** The sample rows carry 7 hashtags. *)
Lemma few_hashtags_all_listed_witness :
  Permutation (topHashtags (aggregate sampleRows))
    (map fst (hashtagLeaders (aggregate sampleRows))).
Proof.
  apply (@few_hashtags_all_listed sampleRows).
  vm_compute. lia.
Defined.

(** ** Rounding keeps the order *)

Lemma Qmake_le (a b : Z) (p : positive) : (a <= b)%Z -> a # p <= b # p.
Proof. intro H. unfold Qle. simpl. nia. Qed.

Lemma Qmake_nonneg (a : Z) (p : positive) : (0 <= a)%Z -> 0 <= a # p.
Proof. intro H. unfold Qle. simpl. lia. Qed.

Lemma floor_half_nonneg (a : Q) (p : positive) :
  0 <= a -> (0 <= Qfloor (a * inject_Z (Zpos p) + (1 # 2)))%Z.
Proof.
  intro H. change 0%Z with (Qfloor 0). apply Qfloor_resp_le.
  assert (P : 0 <= inject_Z (Zpos p)) by (unfold Qle; simpl; lia).
  pose proof (Qmult_le_0_compat _ _ H P). lra.
Qed.

Lemma floor_half_mono (a b : Q) (p : positive) :
  a <= b ->
  (Qfloor (a * inject_Z (Zpos p) + (1 # 2)) <=
   Qfloor (b * inject_Z (Zpos p) + (1 # 2)))%Z.
Proof.
  intro H. apply Qfloor_resp_le.
  assert (P : 0 <= inject_Z (Zpos p)) by (unfold Qle; simpl; lia).
  pose proof (Qmult_le_compat_r _ _ _ H P). lra.
Qed.

Lemma value_toFixed_mono (x y : Q) (f : nat) :
  x <= y ->
  JsNum.value (JsNum.toFixed x f) <= JsNum.value (JsNum.toFixed y f).
Proof.
  intro H. unfold JsNum.value, JsNum.toFixed.
  cbn [JsNum.negative JsNum.digits JsNum.fraction].
  destruct (JsNum.gtb 0 x) eqn:Sx; destruct (JsNum.gtb 0 y) eqn:Sy.
  - apply Qopp_le_compat, Qmake_le, floor_half_mono. lra.
  - apply gtb_true_iff in Sx. apply gtb_false_iff in Sy.
    assert (Nx : 0 <= - x) by lra.
    pose proof (Qmake_nonneg (JsNum.pow10 f)
                  (floor_half_nonneg (JsNum.pow10 f) Nx)) as N.
    pose proof (Qmake_nonneg (JsNum.pow10 f)
                  (floor_half_nonneg (JsNum.pow10 f) Sy)) as M.
    lra.
  - apply gtb_false_iff in Sx. apply gtb_true_iff in Sy. lra.
  - apply Qmake_le, floor_half_mono. exact H.
Qed.

(** X5. Rounding to 4 decimal digits never reverses an order: with the same
    positive denominator a larger numerator gives a rate that is at least
    as large, and two buckets whose averages are ordered have rates in the
    same order or equal. *)
Theorem safeRate_monotone :
  forall n n' d d' : Q,
    0 < d -> 0 < d' -> n / d <= n' / d' ->
    safeRate n d <= safeRate n' d'.
Proof.
  intros n n' d d' Hd Hd' H.
  rewrite (safeRate_pos n Hd), (safeRate_pos n' Hd').
  apply round_mono, value_toFixed_mono, round_mono. exact H.
Qed.

Lemma safeRate_monotone_witness : safeRate 10 4 <= safeRate 11 4.
Proof.
  apply (@safeRate_monotone 10 11 4 4); unfold Qlt, Qle; simpl; lia.
Defined.

(** ** The cadence *)

(** X6. The cadence grows with the number of rows: it is 5 up to 9 rows, the
    rounded six tenths of the row count from 10 to 22 rows, and 14 from 23
    rows on. *)
Theorem plannedCadence_steps :
  forall n m : nat,
    ((n <= m)%nat -> (plannedCadence n <= plannedCadence m)%Z) /\
    ((n <= 9)%nat -> plannedCadence n = 5%Z) /\
    ((10 <= n <= 22)%nat ->
       plannedCadence n = ((6 * Z.of_nat n + 5) / 10)%Z /\
       (6 <= plannedCadence n <= 13)%Z) /\
    ((23 <= n)%nat -> plannedCadence n = 14%Z).
Proof.
  intros n m. unfold plannedCadence.
  rewrite !cadence_double, !round_cadence.
  assert (D : forall a b, (a <= b)%Z -> (a / 10 <= b / 10)%Z)
    by (intros a b H; apply Z.div_le_mono; lia).
  split.
  { intro H.
    assert (L : ((6 * Z.of_nat n + 5) / 10 <= (6 * Z.of_nat m + 5) / 10)%Z)
      by (apply D; lia).
    lia. }
  split.
  { intro H.
    assert (L : ((6 * Z.of_nat n + 5) / 10 <= 59 / 10)%Z) by (apply D; lia).
    change (59 / 10)%Z with 5%Z in L. lia. }
  split.
  { intro H.
    assert (L : (65 / 10 <= (6 * Z.of_nat n + 5) / 10)%Z) by (apply D; lia).
    assert (U : ((6 * Z.of_nat n + 5) / 10 <= 137 / 10)%Z) by (apply D; lia).
    change (65 / 10)%Z with 6%Z in L. change (137 / 10)%Z with 13%Z in U.
    lia. }
  intro H.
  assert (L : (143 / 10 <= (6 * Z.of_nat n + 5) / 10)%Z) by (apply D; lia).
  change (143 / 10)%Z with 14%Z in L. lia.
Qed.

(** ** The responses *)

Lemma strOr_Some (s d : string) :
  s <> EmptyString -> strOr (Some s) d = s.
Proof. destruct s; [contradiction|reflexivity]. Qed.

Lemma strOr_nonempty (x : option string) (d : string) :
  d <> EmptyString -> strOr x d <> EmptyString.
Proof.
  intro H. unfold strOr. destruct x as [s|]; [|exact H].
  destruct s; simpl; [exact H|discriminate].
Qed.


(** ** The order of the rows and batches of rows *)

Lemma Permutation_filter (A : Type) (f : A -> bool) (l l' : list A) :
  Permutation l l' -> Permutation (filter f l) (filter f l').
Proof.
  induction 1 as [|x l l' P IH|x y l|l l' l'' P1 IH1 P2 IH2]; simpl.
  - constructor.
  - destruct (f x); [apply perm_skip|]; exact IH.
  - destruct (f x); destruct (f y); try apply Permutation_refl.
    apply perm_swap.
  - eapply perm_trans; eassumption.
Qed.

Lemma sumBy_perm (A : Type) (f : A -> Z) (l l' : list A) :
  Permutation l l' -> sumBy f l = sumBy f l'.
Proof.
  induction 1 as [|x l l' P IH|x y l|l l' l'' P1 IH1 P2 IH2].
  - reflexivity.
  - rewrite !sumBy_cons, IH. reflexivity.
  - rewrite !sumBy_cons. lia.
  - congruence.
Qed.

Lemma count_perm (A : Type) (l l' : list A) :
  Permutation l l' -> count l = count l'.
Proof. intro P. unfold count. rewrite (Permutation_length P). reflexivity. Qed.

Lemma perm_nil_iff (A : Type) (l l' : list A) :
  Permutation l l' -> (l = [] <-> l' = []).
Proof.
  intro P. split; intro E; subst.
  - apply Permutation_nil. exact P.
  - apply Permutation_nil, Permutation_sym. exact P.
Qed.

Lemma hour_bucket_perm (rows rows' : list MetricRow) (h : Num) :
  Permutation rows rows' ->
  JsMap.get Num_eq_dec (byHour (aggregate rows)) h =
  JsMap.get Num_eq_dec (byHour (aggregate rows')) h.
Proof.
  intro P. rewrite !hour_bucket.
  pose proof
    (Permutation_filter
       (fun r => if Num_eq_dec (hourOf r) h then true else false) P) as Q.
  fold (rowsAtHour h rows) in Q. fold (rowsAtHour h rows') in Q.
  pose proof (perm_nil_iff Q) as N.
  destruct (rowsAtHour h rows) as [|r rs] eqn:E1;
    destruct (rowsAtHour h rows') as [|r' rs'] eqn:E2.
  - reflexivity.
  - destruct N as [N _]. discriminate (N eq_refl).
  - destruct N as [_ N]. discriminate (N eq_refl).
  - cbv zeta. rewrite (sumBy_perm views Q), (count_perm Q). reflexivity.
Qed.

Lemma type_bucket_perm (rows rows' : list MetricRow) (t : string) :
  Permutation rows rows' ->
  JsMap.get string_dec (byType (aggregate rows)) t =
  JsMap.get string_dec (byType (aggregate rows')) t.
Proof.
  intro P. rewrite !type_bucket.
  pose proof (Permutation_filter (fun r => String.eqb (typeOf r) t) P) as Q.
  fold (rowsOfType t rows) in Q. fold (rowsOfType t rows') in Q.
  pose proof (perm_nil_iff Q) as N.
  destruct (rowsOfType t rows) as [|r rs] eqn:E1;
    destruct (rowsOfType t rows') as [|r' rs'] eqn:E2.
  - reflexivity.
  - destruct N as [N _]. discriminate (N eq_refl).
  - destruct N as [_ N]. discriminate (N eq_refl).
  - cbv zeta. rewrite (sumBy_perm views Q), (sumBy_perm likes Q),
      (sumBy_perm comments Q), (sumBy_perm shares Q), (count_perm Q).
    reflexivity.
Qed.

Lemma tag_bucket_perm (rows rows' : list MetricRow) (k : string) :
  Permutation rows rows' ->
  JsMap.get string_dec (hashtagStats (aggregate rows)) k =
  JsMap.get string_dec (hashtagStats (aggregate rows')) k.
Proof.
  intro P. rewrite !tag_bucket.
  destruct (JsString.isEmpty k); [reflexivity|].
  assert (Q : Permutation (tagUses k rows) (tagUses k rows'))
    by (apply Permutation_flat_map; exact P).
  pose proof (perm_nil_iff Q) as N.
  destruct (tagUses k rows) as [|r rs] eqn:E1;
    destruct (tagUses k rows') as [|r' rs'] eqn:E2.
  - reflexivity.
  - destruct N as [N _]. discriminate (N eq_refl).
  - destruct N as [_ N]. discriminate (N eq_refl).
  - cbv zeta. rewrite (sumBy_perm views Q), (count_perm Q). reflexivity.
Qed.

Lemma entries_perm (K V : Type) (dec : forall x y : K, {x = y} + {x <> y})
    (m m' : @JsMap.t K V) :
  NoDup (JsMap.keys m) -> NoDup (JsMap.keys m') ->
  (forall k, JsMap.get dec m k = JsMap.get dec m' k) ->
  Permutation m m'.
Proof.
  intros N N' H. apply NoDup_Permutation.
  - apply (NoDup_map_inv fst). exact N.
  - apply (NoDup_map_inv fst). exact N'.
  - intros [k v]. split; intro I.
    + apply (get_In dec). rewrite <- H. apply In_get; assumption.
    + apply (get_In dec). rewrite H. apply In_get; assumption.
Qed.

(** X8. The totals of the buckets do not depend on the order of the rows: a
    permutation of the working set gives the same bucket for every hour,
    type and hashtag, hence the same scored types and the same rates up to
    their order in the maps, and the same cadence. *)
Theorem aggregates_order_independent :
  forall rows rows' : list MetricRow,
    Permutation rows rows' ->
    (forall h, hourBucket (aggregate rows) h = hourBucket (aggregate rows') h)
    /\
    (forall t, typeBucket (aggregate rows) t = typeBucket (aggregate rows') t)
    /\
    (forall k, tagBucket (aggregate rows) k = tagBucket (aggregate rows') k)
    /\
    Permutation (hourRates (aggregate rows)) (hourRates (aggregate rows')) /\
    Permutation (typeScores (aggregate rows)) (typeScores (aggregate rows'))
    /\
    Permutation (tagRates (aggregate rows)) (tagRates (aggregate rows')) /\
    plannedCadence (List.length rows) = plannedCadence (List.length rows').
Proof.
  intros rows rows' P.
  split; [intro h; unfold hourBucket; rewrite (hour_bucket_perm h P);
          reflexivity|].
  split; [intro t; unfold typeBucket; rewrite (type_bucket_perm t P);
          reflexivity|].
  split; [intro k; unfold tagBucket; rewrite (tag_bucket_perm k P);
          reflexivity|].
  split.
  { unfold hourRates, JsMap.entries. apply Permutation_map.
    apply (entries_perm Num_eq_dec).
    - rewrite keys_byHour. apply NoDup_distinct.
    - rewrite keys_byHour. apply NoDup_distinct.
    - intro h. apply hour_bucket_perm. exact P. }
  split.
  { destruct (typeScores_sorted rows) as [P1 _].
    destruct (typeScores_sorted rows') as [P2 _].
    eapply perm_trans; [apply Permutation_sym; exact P1|].
    eapply perm_trans; [|exact P2].
    unfold JsMap.entries. apply Permutation_map.
    apply (entries_perm string_dec).
    - rewrite keys_byType. apply NoDup_distinct.
    - rewrite keys_byType. apply NoDup_distinct.
    - intro t. apply type_bucket_perm. exact P. }
  split.
  { unfold tagRates, JsMap.entries. apply Permutation_map.
    apply (entries_perm string_dec).
    - rewrite keys_hashtagStats. apply NoDup_distinct.
    - rewrite keys_hashtagStats. apply NoDup_distinct.
    - intro k. apply tag_bucket_perm. exact P. }
  rewrite (Permutation_length P). reflexivity.
Qed.

(** * Properties of the page *)

(** ** Splitting a text into lines *)

Section LineFacts.

Import JsText.

Lemma splitLines_lf (l rest : string) :
  cleanLine l = true ->
  splitLines (l ++ lineFeed ++ rest) = l :: splitLines rest.
Proof.
  induction l as [|c l IH]; intro H; [reflexivity|].
  simpl in H. apply andb_prop in H. destruct H as [H Hl].
  apply andb_prop in H. destruct H as [Hlf Hcr].
  apply negb_true_iff in Hlf, Hcr.
  change ((String c l ++ lineFeed ++ rest)%string)
    with (String c (l ++ lineFeed ++ rest)).
  cbn [splitLines]. rewrite Hlf, Hcr. cbn [andb].
  rewrite (IH Hl).
  destruct ((l ++ lineFeed ++ rest)%string); reflexivity.
Qed.

Lemma splitLines_crlf (l rest : string) :
  cleanLine l = true ->
  splitLines (l ++ crlf ++ rest) = l :: splitLines rest.
Proof.
  induction l as [|c l IH]; intro H; [reflexivity|].
  simpl in H. apply andb_prop in H. destruct H as [H Hl].
  apply andb_prop in H. destruct H as [Hlf Hcr].
  apply negb_true_iff in Hlf, Hcr.
  change ((String c l ++ crlf ++ rest)%string)
    with (String c (l ++ crlf ++ rest)).
  cbn [splitLines]. rewrite Hlf, Hcr. cbn [andb].
  rewrite (IH Hl).
  destruct ((l ++ crlf ++ rest)%string); reflexivity.
Qed.

Lemma splitLines_clean (l : string) :
  cleanLine l = true -> splitLines l = [l].
Proof.
  induction l as [|c l IH]; intro H; [reflexivity|].
  simpl in H. apply andb_prop in H. destruct H as [H Hl].
  apply andb_prop in H. destruct H as [Hlf Hcr].
  apply negb_true_iff in Hlf, Hcr.
  cbn [splitLines]. rewrite Hlf, Hcr. cbn [andb].
  rewrite (IH Hl). destruct l; reflexivity.
Qed.

Lemma splitLines_concat (sep : string) (ls : list string) :
  (forall l rest, cleanLine l = true ->
     splitLines (l ++ sep ++ rest) = l :: splitLines rest) ->
  ls <> [] -> Forall (fun l => cleanLine l = true) ls ->
  splitLines (String.concat sep ls) = ls.
Proof.
  intros Hsep Hne F. induction F as [|l ls Hl F IH]; [contradiction|].
  destruct ls as [|l' ls].
  - simpl. apply splitLines_clean. exact Hl.
  - change (String.concat sep (l :: l' :: ls))
      with ((l ++ sep ++ String.concat sep (l' :: ls))%string).
    rewrite (Hsep _ _ Hl), IH; [reflexivity|discriminate].
Qed.

End LineFacts.

(** X11. Splitting gives back the lines that were joined: for lines without
    line feed and carriage return, joined by line feeds or by carriage
    return and line feed, [split(/\r?\n/)] returns exactly these lines. *)
Theorem splitLines_join :
  forall ls : list string,
    ls <> [] ->
    Forall (fun l => cleanLine l = true) ls ->
    JsText.splitLines (String.concat lineFeed ls) = ls /\
    JsText.splitLines (String.concat crlf ls) = ls.
Proof.
  intros ls Hne F. split.
  - apply splitLines_concat; [exact splitLines_lf|exact Hne|exact F].
  - apply splitLines_concat; [exact splitLines_crlf|exact Hne|exact F].
Qed.

Lemma splitLines_join_witness :
  JsText.splitLines
    (String.concat lineFeed ["a,b"; EmptyString; "1,2"]%string) =
    ["a,b"; EmptyString; "1,2"]%string /\
  JsText.splitLines
    (String.concat crlf ["a,b"; EmptyString; "1,2"]%string) =
    ["a,b"; EmptyString; "1,2"]%string.
Proof.
  apply (@splitLines_join ["a,b"; EmptyString; "1,2"]%string).
  - discriminate.
  - repeat constructor.
Defined.

(** ** [parseCSV] *)

Section CsvFacts.

Import JsText.

Variable Number : string -> Num.
Variables randomId isoNow : nat -> string.

Lemma length_mapFrom (A B : Type) (f : nat -> A -> B) (i : nat)
    (l : list A) :
  List.length (mapFrom f i l) = List.length l.
Proof.
  revert i. induction l as [|a l IH]; intro i; simpl; [reflexivity|].
  rewrite IH. reflexivity.
Qed.

Lemma Forall_mapFrom (A B : Type) (f : nat -> A -> B) (P : B -> Prop)
    (i : nat) (l : list A) :
  (forall j a, P (f j a)) -> Forall P (mapFrom f i l).
Proof.
  intro H. revert i. induction l as [|a l IH]; intro i; simpl;
    constructor; auto.
Qed.

Lemma nonEmpty_splitLines (ls : list string) :
  Forall (fun l => cleanLine l = true) ls ->
  nonEmpty (splitLines (String.concat lineFeed ls)) = nonEmpty ls.
Proof.
  intro F. destruct ls as [|l ls]; [reflexivity|].
  rewrite (splitLines_concat lineFeed splitLines_lf); [reflexivity| |exact F].
  discriminate.
Qed.

Lemma Forall_consHead (P : string -> Prop) (c : ascii) (l : list string) :
  (forall p, P p -> P (String c p)) -> P (String c EmptyString) ->
  Forall P l -> Forall P (consHead c l).
Proof.
  intros H H0 F. destruct F as [|p ps Hp F]; simpl; constructor; auto.
Qed.

Lemma sepFree_splitTags (s : string) :
  Forall (fun t => sepFree t = true) (splitTags s).
Proof.
  induction s as [|c s IH]; [repeat constructor|].
  cbn [splitTags]. destruct (isSpaceOrHash c) eqn:E.
  - destruct s as [|c' s']; [constructor; [reflexivity|exact IH]|].
    destruct (isSpaceOrHash c'); [exact IH|].
    constructor; [reflexivity|exact IH].
  - apply Forall_consHead; [| |exact IH].
    + intros p Hp. simpl. rewrite E, Hp. reflexivity.
    + simpl. rewrite E. reflexivity.
Qed.

Lemma Forall_nonEmpty (P : string -> Prop) (l : list string) :
  Forall P l -> Forall (fun t => t <> EmptyString /\ P t) (nonEmpty l).
Proof.
  induction 1 as [|t l Ht F IH]; simpl; [constructor|].
  destruct t as [|c t]; simpl; [exact IH|].
  constructor; [|exact IH]. split; [discriminate|exact Ht].
Qed.






(** X12. The rows of a text that is a header line and data lines joined by line
    feeds: one row for every data line that is not empty, in their order,
    each read against the header cells trimmed and in lower case; none for
    the empty text and for a header alone. *)
Theorem parseCSV_lines :
  forall (header : string) (data : list string),
    header <> EmptyString ->
    cleanLine header = true ->
    Forall (fun l => cleanLine l = true) data ->
    Page.parseCSV Number randomId isoNow
      (String.concat lineFeed (header :: data)) =
      mapFrom
        (Page.parseLine Number randomId isoNow
           (map (fun h => JsString.toLowerCase (trim h))
              (splitComma header)))
        O (nonEmpty data) /\
    List.length
      (Page.parseCSV Number randomId isoNow
         (String.concat lineFeed (header :: data))) =
      List.length (nonEmpty data) /\
    Page.parseCSV Number randomId isoNow EmptyString = [] /\
    Page.parseCSV Number randomId isoNow header = [].
Proof.
  intros header data Hne Hc F.
  assert (L : nonEmpty
                (splitLines (String.concat lineFeed (header :: data))) =
              header :: nonEmpty data).
  { rewrite nonEmpty_splitLines by (constructor; assumption).
    unfold nonEmpty. cbn [filter].
    destruct header; [contradiction|reflexivity]. }
  assert (E : Page.parseCSV Number randomId isoNow
                (String.concat lineFeed (header :: data)) =
              mapFrom
                (Page.parseLine Number randomId isoNow
                   (map (fun h => JsString.toLowerCase (trim h))
                      (splitComma header)))
                O (nonEmpty data)).
  { unfold Page.parseCSV. rewrite L.
    destruct (nonEmpty data) as [|d ds]; reflexivity. }
  split; [exact E|]. split; [rewrite E; apply length_mapFrom|].
  split; [reflexivity|].
  unfold Page.parseCSV. rewrite (splitLines_clean _ Hc).
  unfold nonEmpty. cbn [filter].
  destruct header; [contradiction|reflexivity].
Qed.

(** X13. Every row that [parseCSV] returns has a content type that is not
    empty, hashtags that are not empty and hold no space and no number
    sign, and a watch time; when the route keeps the row its loop reads it
    without a throw and files it under that content type, never under
    [unknown] by default, with these hashtags and an hour between 0 and
    23. *)
Theorem parseCSV_rows_wellformed :
  forall text : string,
    Forall
      (fun r =>
         Page.p_contentType r <> EmptyString /\
         Forall (fun t => t <> EmptyString /\ sepFree t = true)
           (Page.p_hashtags r) /\
         Page.p_watchTimeSec r <> None /\
         forall x, keepRow (Page.toJson r) = Some x ->
           exists y,
             read x = inl y /\
             typeOf y = Page.p_contentType r /\
             tagsOf y = map Some (Page.p_hashtags r) /\
             exists h, hourOf y = Int h /\ (0 <= h <= 23)%Z)
      (Page.parseCSV Number randomId isoNow text).
Proof.
  intro text. unfold Page.parseCSV.
  destruct (List.length (nonEmpty (splitLines text)) <? 2)%nat;
    [constructor|].
  apply Forall_mapFrom. intros j l.
  match goal with
  | |- context [Page.parseLine ?a ?b ?c ?h j l] =>
      set (r := Page.parseLine a b c h j l)
  end.
  assert (C : Page.p_contentType r <> EmptyString).
  { subst r. simpl. apply strOr_nonempty, strOr_nonempty. discriminate. }
  assert (T : Forall (fun t => t <> EmptyString /\ sepFree t = true)
                (Page.p_hashtags r)).
  { subst r. simpl. apply Forall_nonEmpty, sepFree_splitTags. }
  assert (W : Page.p_watchTimeSec r <> None) by (subst r; discriminate).
  clearbody r.
  split; [exact C|]. split; [exact T|]. split; [exact W|].
  intros x Hx. unfold Page.toJson, keepRow in Hx.
  cbn [views] in Hx.
  destruct (Page.p_views r); [discriminate|].
  cbn [Page.jsonValue] in Hx. inversion Hx. subst x. clear Hx.
  unfold read. cbn [hashtags]. rewrite readTags_strings.
  eexists. split; [reflexivity|].
  split; [|split; [reflexivity|]].
  - unfold typeOf. cbn [contentType]. apply strOr_Some. exact C.
  - apply hourOf_range. cbn [hour].
    destruct (Page.p_hour r) as [|hz]; [right|left; exists hz]; reflexivity.
Qed.

End CsvFacts.

(** A header, two data lines and an empty line between them. *)
Lemma parseCSV_lines_witness :
  List.length
    (Page.parseCSV digitsNumber (fun _ => "id"%string)
       (fun _ => "now"%string)
       (String.concat lineFeed
          ["platform,views"; "tt,12"; EmptyString; "yt,7"]%string)) =
  2%nat.
Proof.
  exact (proj1 (proj2
    (@parseCSV_lines digitsNumber (fun _ => "id"%string)
       (fun _ => "now"%string) "platform,views"%string
       ["tt,12"; EmptyString; "yt,7"]%string
       ltac:(discriminate) eq_refl
       ltac:(repeat constructor)))).
Defined.



(** ** The rows of the page *)

(** X15. The page never holds an empty list of rows: it starts with the sample
    rows, and a text that parses to no row leaves the rows as they are. *)
Theorem page_rows_never_empty :
  forall (Number : string -> Num) (events : list Page.Event),
    Page.rowsAfter Number events <> [] /\
    (forall rows raw randomId isoNow,
       Page.parseCSV Number randomId isoNow raw = [] ->
       Page.handle Number rows (Page.ParsePasted raw randomId isoNow) = rows
       /\
       Page.handle Number rows (Page.FileLoaded raw randomId isoNow) = rows).
Proof.
  intros Number events. split.
  - unfold Page.rowsAfter.
    assert (G : forall rows, rows <> [] ->
                  fold_left (Page.handle Number) events rows <> []).
    { induction events as [|e es IH]; intros rows H; [exact H|].
      simpl. apply IH. destruct e as [|raw r d|text r d]; simpl.
      - discriminate.
      - destruct (Page.parseCSV Number r d raw); [exact H|discriminate].
      - destruct (Page.parseCSV Number r d text); [exact H|discriminate]. }
    apply G. discriminate.
  - intros rows raw r d E. simpl. rewrite E. split; reflexivity.
Qed.

(** ** The request *)

Lemma routeRow_toJson (r : Page.Row) :
  routeRow r =
  match Page.p_views r with
  | Int z =>
      Some (mkRow (Page.p_platform r) (Page.p_postId r) (Page.p_date r)
              (Page.jsonValue (Page.p_hour r))
              (Some (Page.p_contentType r)) (Page.p_title r)
              (Some (map Some (Page.p_hashtags r))) z
              (Page.jsonCounter (Page.p_likes r))
              (Page.jsonCounter (Page.p_comments r))
              (Page.jsonCounter (Page.p_shares r))
              match Page.p_watchTimeSec r with
              | Some n => Page.jsonNumber n
              | None => None
              end)
  | NaN => None
  end.
Proof.
  unfold routeRow, Page.toJson, keepRow. cbn [views].
  destruct (Page.p_views r); cbn [Page.jsonValue]; [reflexivity|].
  unfold read. cbn [hashtags]. rewrite readTags_strings. reflexivity.
Qed.

Lemma readRows_page (rows : list Page.Row) :
  readRows (filterRows (map Page.toJson rows)) =
  inl (flat_map (fun r => match routeRow r with
                          | Some y => [y]
                          | None => []
                          end) rows).
Proof.
  induction rows as [|r rows IH]; [reflexivity|].
  cbn [map filterRows flat_map]. unfold routeRow.
  destruct (keepRow (Page.toJson r)) as [x|] eqn:K; [|exact IH].
  cbn [readRows]. rewrite IH.
  assert (R : exists y, read x = inl y).
  { unfold Page.toJson, keepRow in K. cbn [views] in K.
    destruct (Page.p_views r); cbn [Page.jsonValue] in K; [discriminate|].
    inversion K. unfold read. cbn [hashtags].
    rewrite readTags_strings. eexists. reflexivity. }
  destruct R as [y R]. rewrite R. reflexivity.
Qed.

Lemma numericRows_cons (r : Page.Row) (rows : list Page.Row) :
  numericRows (r :: rows) =
  match routeRow r with
  | Some x => x :: numericRows rows
  | None => numericRows rows
  end.
Proof.
  unfold numericRows. rewrite !readRows_page. cbn [flat_map].
  destruct (routeRow r); reflexivity.
Qed.

Lemma length_numericRows (rows : list Page.Row) :
  List.length (numericRows rows) =
  List.length (filterRows (map Page.toJson rows)).
Proof.
  unfold numericRows.
  destruct (readRows (filterRows (map Page.toJson rows))) as [xs|m] eqn:R.
  - apply (length_readRows _ R).
  - rewrite readRows_page in R. discriminate.
Qed.

Lemma numericRows_empty (rows : list Page.Row) :
  numericRows rows = [] <->
  forall r, In r rows -> Page.p_views r = NaN.
Proof.
  induction rows as [|r rows IH]; [simpl; tauto|].
  rewrite numericRows_cons, routeRow_toJson.
  destruct (Page.p_views r) eqn:E.
  - rewrite IH. split.
    + intros H r' [H'|H']; [subst; exact E|auto].
    + intros H r' H'. apply H. right. exact H'.
  - split; [discriminate|]. intro H.
    specialize (H r (or_introl eq_refl)). congruence.
Qed.

Lemma numericRows_views (rows : list Page.Row) :
  map (fun x => Int (views x)) (numericRows rows) =
  filter isInt (map Page.p_views rows).
Proof.
  induction rows as [|r rows IH]; [reflexivity|].
  rewrite numericRows_cons, routeRow_toJson. simpl map. cbn [filter].
  destruct (Page.p_views r); simpl; rewrite IH; reflexivity.
Qed.

Lemma POST_request (engine : Engine) (rows : list Page.Row) :
  POST engine (Page.request rows) =
  match numericRows rows with
  | [] => errorResponse "No data provided" 400
  | xs => analysis xs
  end.
Proof.
  unfold Page.request. rewrite POST_array.
  pose proof (length_numericRows rows) as L.
  pose proof (readRows_page rows) as R.
  unfold numericRows in *. rewrite R in *.
  destruct (filterRows (map Page.toJson rows)) as [|k kept];
    destruct (flat_map _ rows) as [|x xs]; try discriminate;
    try rewrite R; reflexivity.
Qed.

(** X16. The route keeps of the rows of the page those whose [views] is a
    number, in their order, and drops those whose [views] is NaN; it
    answers [No data provided] exactly when every [views] is NaN, and else
    analyses the rows it keeps, whose hashtags its loop reads without a
    throw. *)
Theorem request_keeps_numeric_rows :
  forall (engine : Engine) (rows : list Page.Row),
    map (fun x => Int (views x)) (numericRows rows) =
      filter isInt (map Page.p_views rows) /\
    (status (POST engine (Page.request rows)) = 400%Z <->
     forall r, In r rows -> Page.p_views r = NaN) /\
    ((exists r, In r rows /\ Page.p_views r <> NaN) ->
     POST engine (Page.request rows) = analysis (numericRows rows)) /\
    ((forall r, In r rows -> Page.p_views r <> NaN) ->
     List.length (numericRows rows) = List.length rows) /\
    readRows (filterRows (map Page.toJson rows)) = inl (numericRows rows).
Proof.
  intros engine rows.
  split; [apply numericRows_views|].
  rewrite POST_request.
  split.
  { rewrite <- numericRows_empty.
    destruct (numericRows rows); simpl; split; congruence. }
  split.
  { intros [r [I N]].
    destruct (numericRows rows) eqn:E; [|reflexivity].
    exfalso. apply N. apply (proj1 (numericRows_empty rows) E). exact I. }
  split.
  { intro H.
    rewrite <- (length_map (fun x => Int (views x))), numericRows_views.
    rewrite filter_all; [apply length_map|].
    intros n Hn. apply in_map_iff in Hn. destruct Hn as [r [E I]].
    subst n. specialize (H r I).
    destruct (Page.p_views r); [exfalso; apply H|]; reflexivity. }
  unfold numericRows. rewrite readRows_page. reflexivity.
Qed.

(** ** The totals *)

Lemma reduceSum_from (f : Page.Row -> Num) (rows : list Page.Row)
    (a : Z) :
  (forall r, In r rows -> isInt (f r) = true) ->
  fold_left (fun a r => Page.add a (f r)) rows (Int a) =
  Int (a + sumBy (fun r => Page.jsonCounter (f r)) rows).
Proof.
  revert a. induction rows as [|r rows IH]; intros a H.
  - simpl. f_equal. lia.
  - simpl fold_left. specialize (H r (or_introl eq_refl)) as Hr.
    destruct (f r) as [|z] eqn:E; [discriminate|].
    simpl Page.add. rewrite IH.
    + rewrite sumBy_cons, E. simpl. f_equal. lia.
    + intros r' H'. apply H. right. exact H'.
Qed.

Lemma fold_add_NaN (f : Page.Row -> Num) (rows : list Page.Row) :
  fold_left (fun a r => Page.add a (f r)) rows NaN = NaN.
Proof. induction rows as [|r rows IH]; [reflexivity|exact IH]. Qed.

Lemma reduceSum_NaN (f : Page.Row -> Num) (rows : list Page.Row)
    (a : Num) :
  (exists r, In r rows /\ f r = NaN) ->
  fold_left (fun a r => Page.add a (f r)) rows a = NaN.
Proof.
  revert a. induction rows as [|r rows IH]; intros a [x [I E]];
    [contradiction|].
  simpl. destruct I as [I|I].
  - subst x. rewrite E. destruct a; simpl; apply fold_add_NaN.
  - apply IH. exists x. split; assumption.
Qed.

Lemma numericRows_sum (g : MetricRow -> Z) (f : Page.Row -> Num)
    (rows : list Page.Row) :
  (forall r x, routeRow r = Some x ->
     g x = Page.jsonCounter (f r)) ->
  (forall r, In r rows -> Page.p_views r <> NaN) ->
  sumBy g (numericRows rows) =
  sumBy (fun r => Page.jsonCounter (f r)) rows.
Proof.
  intros G H. induction rows as [|r rows IH]; [reflexivity|].
  rewrite numericRows_cons.
  destruct (routeRow r) as [x|] eqn:E.
  - rewrite !sumBy_cons, (G r x E), IH; [reflexivity|].
    intros r' H'. apply H. right. exact H'.
  - rewrite routeRow_toJson in E.
    specialize (H r (or_introl eq_refl)).
    destruct (Page.p_views r); [contradiction|discriminate].
Qed.

Lemma type_totals (rows : list MetricRow) :
  sumBy (fun e => t_likes (snd e)) (byType (aggregate rows)) =
    sumBy likes rows /\
  sumBy (fun e => t_comments (snd e)) (byType (aggregate rows)) =
    sumBy comments rows /\
  sumBy (fun e => t_shares (snd e)) (byType (aggregate rows)) =
    sumBy shares rows /\
  sumBy (fun e => t_views (snd e)) (byType (aggregate rows)) =
    sumBy views rows.
Proof.
  rewrite byType_aggregate. repeat split.
  - rewrite (sumBy_fold_upsert string_dec typeOf typeUpd
               (mkTypeAgg 0 0 0 0 0) t_likes likes); reflexivity.
  - rewrite (sumBy_fold_upsert string_dec typeOf typeUpd
               (mkTypeAgg 0 0 0 0 0) t_comments comments); reflexivity.
  - rewrite (sumBy_fold_upsert string_dec typeOf typeUpd
               (mkTypeAgg 0 0 0 0 0) t_shares shares); reflexivity.
  - rewrite (sumBy_fold_upsert string_dec typeOf typeUpd
               (mkTypeAgg 0 0 0 0 0) t_views views); reflexivity.
Qed.

(** X17. A total of the page is NaN as soon as one row has NaN in that column;
    when the four counters of every row are numbers, the totals of the
    page are the sums of the type buckets that the route returns in its
    diagnostics for these rows. *)
Theorem totals_match_diagnostics :
  forall rows : list Page.Row,
    (forall f, (exists r, In r rows /\ f r = NaN) ->
       Page.reduceSum f rows = NaN) /\
    (forallb allNumeric rows = true ->
     Page.totals rows =
     Page.mkTotals
       (Int (sumBy (fun e => t_views (snd e))
                    (byType (aggregate (numericRows rows)))))
       (Int (sumBy (fun e => t_likes (snd e))
                    (byType (aggregate (numericRows rows)))))
       (Int (sumBy (fun e => t_comments (snd e))
                    (byType (aggregate (numericRows rows)))))
       (Int (sumBy (fun e => t_shares (snd e))
                    (byType (aggregate (numericRows rows)))))).
Proof.
  intro rows. split.
  { intros f H. apply reduceSum_NaN. exact H. }
  intro H. rewrite forallb_forall in H.
  assert (A : forall r, In r rows ->
                isInt (Page.p_views r) = true /\
                isInt (Page.p_likes r) = true /\
                isInt (Page.p_comments r) = true /\
                isInt (Page.p_shares r) = true).
  { intros r I. specialize (H r I). unfold allNumeric in H.
    apply andb_prop in H. destruct H as [H H4].
    apply andb_prop in H. destruct H as [H H3].
    apply andb_prop in H. destruct H as [H1 H2]. auto. }
  assert (V : forall r, In r rows -> Page.p_views r <> NaN).
  { intros r I E. destruct (A r I) as [Hv _]. rewrite E in Hv.
    discriminate. }
  destruct (type_totals (numericRows rows)) as [L [C [S W]]].
  rewrite L, C, S, W.
  assert (K : forall (g : MetricRow -> Z) (f : Page.Row -> Num),
            (forall r x, routeRow r = Some x ->
               g x = Page.jsonCounter (f r)) ->
            (forall r, In r rows -> isInt (f r) = true) ->
            Page.reduceSum f rows = Int (sumBy g (numericRows rows))).
  { intros g f G F. unfold Page.reduceSum.
    rewrite (reduceSum_from f rows 0 F), (numericRows_sum g f rows G V).
    reflexivity. }
  assert (J : forall r x, routeRow r = Some x ->
            views x = Page.jsonCounter (Page.p_views r) /\
            likes x = Page.jsonCounter (Page.p_likes r) /\
            comments x = Page.jsonCounter (Page.p_comments r) /\
            shares x = Page.jsonCounter (Page.p_shares r)).
  { intros r x E. rewrite routeRow_toJson in E.
    destruct (Page.p_views r); [discriminate|].
    inversion E. simpl. auto. }
  unfold Page.totals. f_equal.
  - apply K; [intros r x E; apply (J r x E)|intros r I; apply (A r I)].
  - apply K; [intros r x E; apply (J r x E)|intros r I; apply (A r I)].
  - apply K; [intros r x E; apply (J r x E)|intros r I; apply (A r I)].
  - apply K; [intros r x E; apply (J r x E)|intros r I; apply (A r I)].
Qed.

(** ** What the page shows of an answer *)

Lemma POST_cases (engine : Engine) (body : Body) :
  (exists code c msg,
     POST engine body =
     mkResponse code (Some (String c msg)) None None None None)
  \/
  (exists kept rows,
     rows <> [] /\ workingSet body = Some kept /\ readRows kept = inl rows /\
     POST engine body = analysis rows).
Proof.
  assert (E : forall x, exists c msg,
                strOr x "Unexpected error" = String c msg).
  { intro x. destruct x as [[|c m]|]; simpl; eauto. }
  destruct body as [e|[|l|]].
  - left. destruct (E (message e)) as [c [msg H]].
    exists 500%Z, c, msg. unfold POST. simpl. rewrite H. reflexivity.
  - left. eexists. eexists. eexists. reflexivity.
  - rewrite POST_array. cbn [workingSet].
    destruct (filterRows l) as [|r rs] eqn:F.
    + left. eexists. eexists. eexists. reflexivity.
    + destruct (readRows (r :: rs)) as [rows|m] eqn:R.
      * right. exists (r :: rs), rows.
        split; [|split; [reflexivity|split; [exact R|reflexivity]]].
        intro N. subst rows. apply length_readRows in R. discriminate.
      * left. destruct (E (message (typeError engine m))) as [c [msg H]].
        exists 500%Z, c, msg. rewrite H. reflexivity.
  - left. destruct (E (message (typeError engine NoFilter))) as [c [msg H]].
    exists 500%Z, c, msg. unfold POST. simpl. rewrite H. reflexivity.
Qed.

Lemma hourText_json (hs : list Num) :
  map (fun h => (Page.hourText h ++ ":00")%string) (map Page.jsonNumber hs) =
  map (fun h => (match h with
                 | Int z => JsString.ofZ z
                 | NaN => "null"
                 end ++ ":00")%string) hs.
Proof.
  rewrite map_map. apply map_ext. intros [|z]; reflexivity.
Qed.

Lemma hourText_number (hs : list Num) :
  ~ In NaN hs ->
  map (fun h => (match h with
                 | Int z => JsString.ofZ z
                 | NaN => "null"
                 end ++ ":00")%string) hs =
  map (fun h => (JsString.ofNum h ++ ":00")%string) hs.
Proof.
  intro H. apply map_ext_in. intros h I.
  destruct h as [|z]; [contradiction|reflexivity].
Qed.

(** X18. The Strategy panel shows the message of the route for every error
    answer, [Failed to analyze] when the request itself fails, and else the
    action plan with the best post times and the first 10 top hashtags.
    The times it shows are those of the best-hours line of the plan when no
    best hour is NaN; a best hour that is NaN reaches the page as [null]
    and is shown as [null:00], where the plan says [NaN:00]. *)
Theorem panel_of_answer :
  forall (engine : Engine) (body : Body),
    (forall msg, r_error (POST engine body) = Some msg ->
       Page.strategy (Page.analyze (Some (POST engine body))) =
       Page.ErrorPanel msg) /\
    (r_error (POST engine body) = None ->
     exists kept rows times,
       rows <> [] /\ workingSet body = Some kept /\
       readRows kept = inl rows /\
       times =
         JsString.join ", "
           (map (fun h =>
                   (match h with
                    | Int z => JsString.ofZ z
                    | NaN => "null"
                    end ++ ":00")%string)
              (bestHours (aggregate rows))) /\
       Page.strategy (Page.analyze (Some (POST engine body))) =
         Page.StrategyPanel
           (Some (actions (List.length rows) (aggregate rows)))
           (Some times)
           (Some (JsString.join "  "
                    (map (fun h => ("#" ++ h)%string)
                       (firstn 10 (topHashtags (aggregate rows)))))) /\
       In ("Post at "
           ++ JsString.join ", "
                (map (fun h =>
                        (match h with
                         | Int z => JsString.ofZ z
                         | NaN => "NaN"
                         end ++ ":00")%string)
                   (bestHours (aggregate rows)))
           ++ " local time.")%string
         (actions (List.length rows) (aggregate rows)) /\
       (~ In NaN (bestHours (aggregate rows)) ->
        In ("Post at " ++ times ++ " local time.")%string
          (actions (List.length rows) (aggregate rows)))) /\
    Page.strategy (Page.analyze None) =
      Page.ErrorPanel "Failed to analyze".
Proof.
  intros engine body. split; [|split; [|reflexivity]].
  - intros msg H.
    destruct (POST_cases engine body)
      as [[code [c [m E]]]|[kept [rows [_ [_ [_ E]]]]]];
      rewrite E in *; simpl in H.
    + inversion H. reflexivity.
    + discriminate.
  - intro H.
    destruct (POST_cases engine body)
      as [[code [c [m E]]]|[kept [rows [N [W [R E]]]]]];
      rewrite E in *; simpl in H; [discriminate|].
    exists kept, rows. eexists. split; [exact N|]. split; [exact W|].
    split; [exact R|]. split; [reflexivity|].
    assert (L : In (hoursLine (bestHours (aggregate rows)))
                  (actions (List.length rows) (aggregate rows))).
    { rewrite actions_shape. pose proof (bestHours_nonempty N) as B.
      destruct (bestHours (aggregate rows)) as [|h hs] eqn:Eb;
        [contradiction|].
      apply in_or_app. right. apply in_or_app. left. left. reflexivity. }
    split.
    { unfold Page.strategy, Page.analyze, Page.dataOf, analysis, respond.
      cbn [Page.j_error Page.j_actions Page.j_bestHours Page.j_topHashtags
           r_error r_actions r_bestHours r_topHashtags option_map].
      rewrite hourText_json. reflexivity. }
    split; [exact L|].
    intro NN. rewrite (hourText_number _ NN). exact L.
Qed.

(** ** The types that the plan names *)

(** X9. For a working set that is not empty the plan starts with the line
    [Double down on T content (top format).] for a type [T] whose score is
    the highest of all types, and ends with the line [De-prioritize L
    until performance improves.], for a type [L] whose score is the
    lowest, before the cadence line. *)
Theorem plan_names_extremes :
  forall rows : list MetricRow,
    rows <> [] ->
    exists (top low : TypeScore) (middle : list string),
      In top (typeScores (aggregate rows)) /\
      In low (typeScores (aggregate rows)) /\
      actions (List.length rows) (aggregate rows) =
        ("Double down on " ++ type top ++ " content (top format).")%string
        :: middle ++
        [("De-prioritize " ++ type low
          ++ " until performance improves.")%string;
         ("Publish ~" ++ JsString.ofZ (plannedCadence (List.length rows))
          ++ " posts next 7 days with 70/20/10: top/experimental/brand."
         )%string]
      /\
      (forall e, In e (typeScores (aggregate rows)) ->
         score low <= score e /\ score e <= score top) /\
      In (type top) (map typeOf rows) /\ In (type low) (map typeOf rows).
Proof.
  intros rows H.
  pose proof (typeScores_nonempty H) as N.
  destruct (typeScores_sorted rows) as [_ [S _]].
  pose proof (typeScores_types rows) as PT.
  rewrite actions_shape.
  destruct (typeScores (aggregate rows)) as [|top rest] eqn:Et;
    [contradiction|].
  destruct (exists_last (l := top :: rest)) as [front [low E]];
    [discriminate|].
  exists top, low. rewrite E, rev_app_distr. simpl rev. cbn [app].
  rewrite <- E.
  eexists.
  split; [left; reflexivity|].
  split; [rewrite E; apply in_or_app; right; left; reflexivity|].
  split.
  { unfold topLine, lowLine, cadenceLine. cbn [app]. f_equal.
    rewrite !app_assoc. reflexivity. }
  split.
  { intros e He. split.
    - rewrite E in S, He. apply in_app_or in He.
      destruct He as [He|[He|[]]]; [|subst; apply Qle_refl].
      exact (@sorted_app_le _ _ _ _ S e low He (or_introl eq_refl)).
    - inversion S as [|? ? _ F]. subst.
      destruct He as [He|He]; [subst; apply Qle_refl|].
      rewrite Forall_forall in F. apply F. exact He. }
  assert (I : forall e, In e (top :: rest) -> In (type e) (map typeOf rows)).
  { intros e He. apply (in_map type) in He.
    apply (Permutation_in _ PT) in He. apply In_distinct in He. exact He. }
  split; apply I; [left; reflexivity|].
  rewrite E. apply in_or_app. right. left. reflexivity.
Qed.

Lemma plan_names_extremes_witness :
  exists (top low : TypeScore) (middle : list string),
    In top (typeScores (aggregate sampleRows)) /\
    In low (typeScores (aggregate sampleRows)) /\
    actions (List.length sampleRows) (aggregate sampleRows) =
      ("Double down on " ++ type top ++ " content (top format).")%string
      :: middle ++
      [("De-prioritize " ++ type low ++ " until performance improves.")%string;
       ("Publish ~" ++ JsString.ofZ (plannedCadence (List.length sampleRows))
        ++ " posts next 7 days with 70/20/10: top/experimental/brand.")%string]
    /\
    (forall e, In e (typeScores (aggregate sampleRows)) ->
       score low <= score e /\ score e <= score top) /\
    In (type top) (map typeOf sampleRows) /\
    In (type low) (map typeOf sampleRows).
Proof.
  apply (@plan_names_extremes sampleRows).
  intro H. vm_compute in H. discriminate H.
Defined.

(** ** Batches of rows *)

(** The sample rows and the same rows in reverse order. *)
Lemma aggregates_order_independent_witness :
  Permutation (typeScores (aggregate sampleRows))
    (typeScores (aggregate (rev sampleRows))) /\
  plannedCadence (List.length sampleRows) =
    plannedCadence (List.length (rev sampleRows)).
Proof.
  pose proof (@aggregates_order_independent sampleRows (rev sampleRows)
                (Permutation_rev sampleRows)) as H.
  split; [apply H|apply H].
Defined.

Lemma hourBucket_sums (rows : list MetricRow) (h : Num) :
  hourBucket (aggregate rows) h =
  mkHourAgg (sumBy views (rowsAtHour h rows)) (count (rowsAtHour h rows)).
Proof.
  unfold hourBucket. rewrite hour_bucket.
  destruct (rowsAtHour h rows); reflexivity.
Qed.

Lemma typeBucket_sums (rows : list MetricRow) (t : string) :
  typeBucket (aggregate rows) t =
  mkTypeAgg (sumBy views (rowsOfType t rows)) (count (rowsOfType t rows))
    (sumBy likes (rowsOfType t rows)) (sumBy comments (rowsOfType t rows))
    (sumBy shares (rowsOfType t rows)).
Proof.
  unfold typeBucket. rewrite type_bucket.
  destruct (rowsOfType t rows); reflexivity.
Qed.

Lemma tagBucket_sums (rows : list MetricRow) (k : string) :
  k <> EmptyString ->
  tagBucket (aggregate rows) k =
  mkTagStat (sumBy views (tagUses k rows)) (count (tagUses k rows)).
Proof.
  intro H. unfold tagBucket. rewrite tag_bucket.
  destruct (JsString.isEmpty k) eqn:E.
  - apply isEmpty_true in E. contradiction.
  - destruct (tagUses k rows); reflexivity.
Qed.

(** X10. Analysing two batches of rows one after the other is analysing their
    concatenation, and every counter of every bucket of the concatenation
    is the sum of the counters of the two batches. *)
Theorem aggregate_batches :
  forall (rows1 rows2 : list MetricRow) (h : Num) (t k : string),
    aggregate (rows1 ++ rows2) = fold_left step rows2 (aggregate rows1) /\
    hourBucket (aggregate (rows1 ++ rows2)) h =
      mkHourAgg
        (h_views (hourBucket (aggregate rows1) h) +
         h_views (hourBucket (aggregate rows2) h))
        (h_posts (hourBucket (aggregate rows1) h) +
         h_posts (hourBucket (aggregate rows2) h)) /\
    typeBucket (aggregate (rows1 ++ rows2)) t =
      mkTypeAgg
        (t_views (typeBucket (aggregate rows1) t) +
         t_views (typeBucket (aggregate rows2) t))
        (t_posts (typeBucket (aggregate rows1) t) +
         t_posts (typeBucket (aggregate rows2) t))
        (t_likes (typeBucket (aggregate rows1) t) +
         t_likes (typeBucket (aggregate rows2) t))
        (t_comments (typeBucket (aggregate rows1) t) +
         t_comments (typeBucket (aggregate rows2) t))
        (t_shares (typeBucket (aggregate rows1) t) +
         t_shares (typeBucket (aggregate rows2) t)) /\
    tagBucket (aggregate (rows1 ++ rows2)) k =
      mkTagStat
        (s_views (tagBucket (aggregate rows1) k) +
         s_views (tagBucket (aggregate rows2) k))
        (s_uses (tagBucket (aggregate rows1) k) +
         s_uses (tagBucket (aggregate rows2) k)).
Proof.
  intros rows1 rows2 h t k.
  split; [apply fold_left_app|].
  split.
  { rewrite !hourBucket_sums. unfold rowsAtHour.
    rewrite filter_app, sumBy_app, count_app. reflexivity. }
  split.
  { rewrite !typeBucket_sums. unfold rowsOfType.
    rewrite filter_app, !sumBy_app, count_app. reflexivity. }
  destruct (string_dec k EmptyString) as [E|N].
  - subst k. unfold tagBucket. rewrite !tag_bucket. reflexivity.
  - rewrite !(tagBucket_sums _ N). unfold tagUses.
    rewrite flat_map_app, sumBy_app, count_app. reflexivity.
Qed.
